(** * Screenshot annotation canvas: shapes, history, selection, highlighting

    A shallow embedding of the annotation core of the clipboard manager:

    - [Shapes]: the shape model, the five shape handlers and the registry
      (composables/shapes/index.ts and the handler files);
    - [Binary64], [ArrowHandler64]: binary64 addition, and the arrow's move
      with its additions rounded;
    - [FabricCanvas]: the drawing-surface composable (useFabricCanvas) with
      its history log, undo/redo and export;
    - [Selection]: the region-selection handlers of the capture window, in
      the plain-canvas variant and in the fabric variant;
    - [Capture]: the bounds of the capture window, the hit testing of its
      plain-canvas shapes and the placement of its toolbar;
    - [MergeLatest]: the script that merges the updater manifests;
    - [HighlightText]: the search-highlight computation.

    JavaScript numbers are embedded as real numbers: [+], [-], [*], [/],
    [Math.abs], [Math.min], [Math.max] and [Math.sqrt] are the exact
    operations of [R], so rounding, infinities and NaN are outside the
    model.  The one exception is [Binary64], where the additions of the
    arrow's move are rounded as binary64 rounds them.  Array indices and
    the history cursor are integers.  Strings are the UTF-8 bytes of the
    JavaScript strings. *)

From stdpp Require Import base option list strings gmap.
From Stdlib Require Import ZArith Reals Lra Lia Ascii Classical_Prop.

(** ** Numbers *)

Module Num.
Local Open Scope R_scope.

(** [a < b] and [a <= b] as the booleans a JavaScript condition yields. *)
Definition ltb (a b : R) : bool := if Rlt_dec a b then true else false.
Definition leb (a b : R) : bool := if Rle_dec a b then true else false.

(** [Math.atan2(y, x)], by the usual case analysis on the quadrant. *)
Definition atan2 (y x : R) : R :=
  if ltb 0 x then atan (y / x)
  else if ltb x 0 then (if leb 0 y then atan (y / x) + PI else atan (y / x) - PI)
  else if ltb 0 y then PI / 2
  else if ltb y 0 then - (PI / 2)
  else 0.
End Num.

(** ** Geometry shared by the shape model and the fabric objects *)

(** A point of the editing surface (Point2D of shapes/index.ts). *)
Record Point2D := mkPoint2D { x : R; y : R }.

(** The commands of an SVG path string, as the handlers print them:
    [M x y], [L x y], [C x1 y1 x2 y2 x y] and [Z]. *)
Inductive PathCmd :=
| PathM (px py : R)
| PathL (px py : R)
| PathC (c1x c1y c2x c2y px py : R)
| PathZ.

(** The points a path visits, control points of curves left out. *)
Definition vertex (c : PathCmd) : option Point2D :=
  match c with
  | PathM px py | PathL px py | PathC _ _ _ _ px py => Some (mkPoint2D px py)
  | PathZ => None
  end.

Definition vertices (p : list PathCmd) : list Point2D := omap vertex p.

(** ** The shape model (composables/shapes/index.ts) *)

Inductive ShapeType := rect | ellipse | arrow | pen | text.

#[global] Instance ShapeType_eq_dec : EqDecision ShapeType.
Proof. solve_decision. Defined.

(** The tagged union ShapeData.  A text datum also carries the [width] and
    [height] that the drawing surface writes into it once fabric has
    measured the text; they are absent when the datum is created. *)
Inductive ShapeData :=
| RectShapeData (x1 y1 x2 y2 : R)
| EllipseShapeData (x1 y1 x2 y2 : R)
| ArrowShapeData (x1 y1 x2 y2 : R)
| PenShapeData (points : list Point2D)
| TextShapeData (tx ty : R) (content : string) (fontSize : R)
    (width height : option R).

(** The [type] tag of a datum. *)
Definition shapeType (d : ShapeData) : ShapeType :=
  match d with
  | RectShapeData _ _ _ _ => rect
  | EllipseShapeData _ _ _ _ => ellipse
  | ArrowShapeData _ _ _ _ => arrow
  | PenShapeData _ => pen
  | TextShapeData _ _ _ _ _ _ => text
  end.

Module DrawingConfig.
Record t := mk { strokeColor : string; strokeWidth : R; fillColor : string }.
End DrawingConfig.

(** ** Fabric objects

    The part of a fabric object that the code reads or writes and that a
    snapshot stores: placement, visibility, paint, the geometry of its
    kind, and the two custom properties [shapeData] and [isControlPoint]
    (with [pointId] for control circles).  Interaction flags such as
    [selectable] or [hasControls] are not modelled. *)

Inductive FabricKind :=
| Path (path : list PathCmd)
| IText (content : string) (fontSize : R)
| Circle (radius : R).

Record FabricObject := mkObject {
  kind : FabricKind;
  left : R;
  top : R;
  visible : bool;
  fill : string;
  stroke : string;
  strokeWidth : R;
  strokeDashArray : option (list R);
  shapeData : option ShapeData;
  isControlPoint : bool;
  pointId : option string;
}.

(** [obj.type === "i-text" || obj.type === "text"]. *)
Definition isTextObject (o : FabricObject) : bool :=
  match kind o with IText _ _ => true | _ => false end.

(** [obj.set({...})] and plain property assignments, one per property. *)
Definition set_kind (k : FabricKind) (o : FabricObject) : FabricObject :=
  mkObject k (left o) (top o) (visible o) (fill o) (stroke o) (strokeWidth o)
    (strokeDashArray o) (shapeData o) (isControlPoint o) (pointId o).
Definition set_position (l t : R) (o : FabricObject) : FabricObject :=
  mkObject (kind o) l t (visible o) (fill o) (stroke o) (strokeWidth o)
    (strokeDashArray o) (shapeData o) (isControlPoint o) (pointId o).
Definition set_visible (v : bool) (o : FabricObject) : FabricObject :=
  mkObject (kind o) (left o) (top o) v (fill o) (stroke o) (strokeWidth o)
    (strokeDashArray o) (shapeData o) (isControlPoint o) (pointId o).
Definition set_fill (c : string) (o : FabricObject) : FabricObject :=
  mkObject (kind o) (left o) (top o) (visible o) c (stroke o) (strokeWidth o)
    (strokeDashArray o) (shapeData o) (isControlPoint o) (pointId o).
Definition set_stroke (c : string) (o : FabricObject) : FabricObject :=
  mkObject (kind o) (left o) (top o) (visible o) (fill o) c (strokeWidth o)
    (strokeDashArray o) (shapeData o) (isControlPoint o) (pointId o).
Definition set_strokeWidth (w : R) (o : FabricObject) : FabricObject :=
  mkObject (kind o) (left o) (top o) (visible o) (fill o) (stroke o) w
    (strokeDashArray o) (shapeData o) (isControlPoint o) (pointId o).
Definition set_strokeDashArray (d : option (list R)) (o : FabricObject)
  : FabricObject :=
  mkObject (kind o) (left o) (top o) (visible o) (fill o) (stroke o)
    (strokeWidth o) d (shapeData o) (isControlPoint o) (pointId o).
Definition set_shapeData (d : option ShapeData) (o : FabricObject)
  : FabricObject :=
  mkObject (kind o) (left o) (top o) (visible o) (fill o) (stroke o)
    (strokeWidth o) (strokeDashArray o) d (isControlPoint o) (pointId o).
Definition set_fontSize (s : R) (o : FabricObject) : FabricObject :=
  match kind o with
  | IText c _ => set_kind (IText c s) o
  | _ => o
  end.

(** What fabric computes and the code only reads: where the constructor of
    a Path places the object (from its path data and stroke width), and
    the scaled width and height of a text object. *)
Class FabricLayout := {
  pathOrigin : list PathCmd -> R -> Point2D;
  scaledSize : string -> R -> R * R;
}.

(** [new Path(pathData, { fill, stroke, strokeWidth, ... })]. *)
Definition newPath `{FabricLayout} (pathData : list PathCmd)
    (fillColor strokeColor : string) (width : R) : FabricObject :=
  let o := pathOrigin pathData width in
  mkObject (Path pathData) (x o) (y o) true fillColor strokeColor width None
    None false None.

(** [new IText(text, { left, top, fontSize, fill, ... })]. *)
Definition newIText (content : string) (l t size : R) (fillColor : string)
  : FabricObject :=
  mkObject (IText content size) l t true fillColor "" 1 None None false None.

(** [new Circle({ left, top, radius, fill, stroke, strokeWidth, ... })]. *)
Definition newCircle (l t r : R) (fillColor strokeColor : string) (width : R)
  : FabricObject :=
  mkObject (Circle r) l t true fillColor strokeColor width None None false
    None.

(** ** Shape handlers and the registry *)

Module Shapes.
Local Open Scope R_scope.

Module ControlStyle.
Record t := mk {
  radius : option R;
  fill : option string;
  stroke : option string;
  strokeWidth : option R;
}.
End ControlStyle.

(** ControlPointDef: a named handle, its position on a datum and the datum
    that dragging it to [newPos] yields. *)
Record ControlPointDef := mkControlPointDef {
  id : string;
  getPosition : ShapeData -> Point2D;
  onDrag : ShapeData -> Point2D -> ShapeData;
  style : option ControlStyle.t;
}.

(** ShapeHandler, at the union type under which the registry stores every
    handler.  A handler is only ever applied to data of its own [type]
    (the dispatch goes through the tag); on data of another variant, which
    the type parameter of the interface excludes, the model leaves the
    datum as it is. *)
Record ShapeHandler := mkShapeHandler {
  type : ShapeType;
  createData : Point2D -> Point2D -> option (list Point2D) -> option ShapeData;
  createPath : ShapeData -> DrawingConfig.t -> FabricObject;
  move : ShapeData -> R -> R -> ShapeData;
  getControlPoints : list ControlPointDef;
  isFilled : option bool;
}.

(** *** Path builders *)

Definition buildRectPathData (x1 y1 x2 y2 : R) : list PathCmd :=
  let left := Rmin x1 x2 in
  let top := Rmin y1 y2 in
  let right := Rmax x1 x2 in
  let bottom := Rmax y1 y2 in
  [PathM left top; PathL right top; PathL right bottom; PathL left bottom;
   PathZ].

Definition buildEllipsePathData (x1 y1 x2 y2 : R) : list PathCmd :=
  let cx := (x1 + x2) / 2 in
  let cy := (y1 + y2) / 2 in
  let rx := Rabs (x2 - x1) / 2 in
  let ry := Rabs (y2 - y1) / 2 in
  let k := 5522847498 / 10000000000 in
  let kx := rx * k in
  let ky := ry * k in
  [PathM cx (cy - ry);
   PathC (cx + kx) (cy - ry) (cx + rx) (cy - ky) (cx + rx) cy;
   PathC (cx + rx) (cy + ky) (cx + kx) (cy + ry) cx (cy + ry);
   PathC (cx - kx) (cy + ry) (cx - rx) (cy + ky) (cx - rx) cy;
   PathC (cx - rx) (cy - ky) (cx - kx) (cy - ry) cx (cy - ry);
   PathZ].

(** The local constants of buildArrowPathData, in the order the function
    computes them. *)
Record ArrowGeometry := mkArrowGeometry {
  angle : R;
  segmentLength : R;
  scale : R;
  shaftWidth : R;
  headLength : R;
  headWidth : R;
  neck : Point2D;
  tail1 : Point2D;
  tail2 : Point2D;
  neck1 : Point2D;
  neck2 : Point2D;
  head1 : Point2D;
  head2 : Point2D;
}.

Definition arrowGeometry (x1 y1 x2 y2 : R) (width : option R) : ArrowGeometry :=
  let width := default 3 width in
  let angle := Num.atan2 (y2 - y1) (x2 - x1) in
  let length := sqrt ((x2 - x1) ^ 2 + (y2 - y1) ^ 2) in
  let scale := Rmax (1 / 2) (width / 3) in
  let shaftWidth := 2 * scale in
  let headLength := Rmin (30 * scale) (length * (4 / 10)) in
  let headWidth := 10 * scale in
  let neckX := x2 - headLength * cos angle in
  let neckY := y2 - headLength * sin angle in
  let perpAngle := angle + PI / 2 in
  let cosPerp := cos perpAngle in
  let sinPerp := sin perpAngle in
  mkArrowGeometry angle length scale shaftWidth headLength headWidth
    (mkPoint2D neckX neckY)
    (mkPoint2D (x1 + shaftWidth * cosPerp) (y1 + shaftWidth * sinPerp))
    (mkPoint2D (x1 - shaftWidth * cosPerp) (y1 - shaftWidth * sinPerp))
    (mkPoint2D (neckX + shaftWidth * cosPerp) (neckY + shaftWidth * sinPerp))
    (mkPoint2D (neckX - shaftWidth * cosPerp) (neckY - shaftWidth * sinPerp))
    (mkPoint2D (neckX + headWidth * cosPerp) (neckY + headWidth * sinPerp))
    (mkPoint2D (neckX - headWidth * cosPerp) (neckY - headWidth * sinPerp)).

(** buildArrowPathData: the closed arrow outline, drawn in one stroke.  The
    stroke width is optional and defaults to 3. *)
Definition buildArrowPathData (x1 y1 x2 y2 : R) (width : option R)
  : list PathCmd :=
  let g := arrowGeometry x1 y1 x2 y2 width in
  [PathM (x (tail1 g)) (y (tail1 g));
   PathL (x (neck1 g)) (y (neck1 g));
   PathL (x (head1 g)) (y (head1 g));
   PathL x2 y2;
   PathL (x (head2 g)) (y (head2 g));
   PathL (x (neck2 g)) (y (neck2 g));
   PathL (x (tail2 g)) (y (tail2 g));
   PathZ].

(** buildPenPathData: the empty string below two points, else a move to the
    first point and a line to each later one. *)
Definition buildPenPathData (points : list Point2D) : list PathCmd :=
  if (length points <? 2)%nat then []
  else
    match points with
    | [] => []
    | p :: rest => PathM (x p) (y p) :: map (fun q => PathL (x q) (y q)) rest
    end.

(** *** Handlers *)

Section Handlers.
Context `{FabricLayout}.

Definition defaultStyle (r : R) : option ControlStyle.t :=
  Some (ControlStyle.mk (Some r) (Some "#ffffff"%string)
          (Some "#0066ff"%string) (Some 2)).

(** [move] of the rect, ellipse and arrow handlers: the spread keeps every
    other property of the datum, the tag included. *)
Definition moveCorners (data : ShapeData) (dx dy : R) : ShapeData :=
  match data with
  | RectShapeData x1 y1 x2 y2 =>
      RectShapeData (x1 + dx) (y1 + dy) (x2 + dx) (y2 + dy)
  | EllipseShapeData x1 y1 x2 y2 =>
      EllipseShapeData (x1 + dx) (y1 + dy) (x2 + dx) (y2 + dy)
  | ArrowShapeData x1 y1 x2 y2 =>
      ArrowShapeData (x1 + dx) (y1 + dy) (x2 + dx) (y2 + dy)
  | _ => data
  end.

(** The corners of a two-corner datum, and the datum with new corners. *)
Definition corners (data : ShapeData) : option (R * R * R * R) :=
  match data with
  | RectShapeData x1 y1 x2 y2 | EllipseShapeData x1 y1 x2 y2
  | ArrowShapeData x1 y1 x2 y2 => Some (x1, y1, x2, y2)
  | _ => None
  end.

Definition withCorners (data : ShapeData) (x1 y1 x2 y2 : R) : ShapeData :=
  match data with
  | RectShapeData _ _ _ _ => RectShapeData x1 y1 x2 y2
  | EllipseShapeData _ _ _ _ => EllipseShapeData x1 y1 x2 y2
  | ArrowShapeData _ _ _ _ => ArrowShapeData x1 y1 x2 y2
  | _ => data
  end.

(** The four corner handles shared, line for line, by the rect and the
    ellipse handler.  [atLeft] and [atTop] say which extreme the handle
    sits on: "tl" is (min x, min y), "br" is (max x, max y). *)
Definition cornerControl (name : string) (atLeft atTop : bool)
  : ControlPointDef :=
  mkControlPointDef name
    (fun data =>
       match corners data with
       | Some (x1, y1, x2, y2) =>
           mkPoint2D (if atLeft then Rmin x1 x2 else Rmax x1 x2)
                     (if atTop then Rmin y1 y2 else Rmax y1 y2)
       | None => mkPoint2D 0 0
       end)
    (fun data newPos =>
       match corners data with
       | Some (x1, y1, x2, y2) =>
           let isX1Left := Num.leb x1 x2 in
           let isY1Top := Num.leb y1 y2 in
           (* the handle moves x1 when x1 is on the handle's side *)
           let moveX1 := if atLeft then isX1Left else negb isX1Left in
           let moveY1 := if atTop then isY1Top else negb isY1Top in
           withCorners data
             (if moveX1 then x newPos else x1)
             (if moveY1 then y newPos else y1)
             (if moveX1 then x2 else x newPos)
             (if moveY1 then y2 else y newPos)
       | None => data
       end)
    (defaultStyle 5).

Definition cornerControls : list ControlPointDef :=
  [cornerControl "tl" true true; cornerControl "tr" false true;
   cornerControl "bl" true false; cornerControl "br" false false].

Definition RectHandler : ShapeHandler :=
  mkShapeHandler rect
    (fun start current _ =>
       let width := Rabs (x current - x start) in
       let height := Rabs (y current - y start) in
       if Num.ltb width 2 || Num.ltb height 2 then None
       else Some (RectShapeData (x start) (y start) (x current) (y current)))
    (fun data config =>
       let pathData :=
         match corners data with
         | Some (x1, y1, x2, y2) => buildRectPathData x1 y1 x2 y2
         | None => []
         end in
       newPath pathData "transparent" (DrawingConfig.strokeColor config)
         (DrawingConfig.strokeWidth config))
    moveCorners
    cornerControls
    None.

Definition EllipseHandler : ShapeHandler :=
  mkShapeHandler ellipse
    (fun start current _ =>
       let rx := Rabs (x current - x start) / 2 in
       let ry := Rabs (y current - y start) / 2 in
       if Num.ltb rx 2 || Num.ltb ry 2 then None
       else Some (EllipseShapeData (x start) (y start) (x current) (y current)))
    (fun data config =>
       let pathData :=
         match corners data with
         | Some (x1, y1, x2, y2) => buildEllipsePathData x1 y1 x2 y2
         | None => []
         end in
       newPath pathData "transparent" (DrawingConfig.strokeColor config)
         (DrawingConfig.strokeWidth config))
    moveCorners
    cornerControls
    None.

Definition ArrowHandler : ShapeHandler :=
  mkShapeHandler arrow
    (fun start current _ =>
       let dx := Rabs (x current - x start) in
       let dy := Rabs (y current - y start) in
       if Num.ltb dx 5 && Num.ltb dy 5 then None
       else Some (ArrowShapeData (x start) (y start) (x current) (y current)))
    (fun data config =>
       let pathData :=
         match corners data with
         | Some (x1, y1, x2, y2) =>
             buildArrowPathData x1 y1 x2 y2
               (Some (DrawingConfig.strokeWidth config))
         | None => []
         end in
       newPath pathData (DrawingConfig.strokeColor config)
         (DrawingConfig.strokeColor config) 1)
    moveCorners
    [mkControlPointDef "start"
       (fun data =>
          match corners data with
          | Some (x1, y1, _, _) => mkPoint2D x1 y1
          | None => mkPoint2D 0 0
          end)
       (fun data newPos =>
          match corners data with
          | Some (_, _, x2, y2) => withCorners data (x newPos) (y newPos) x2 y2
          | None => data
          end)
       (defaultStyle 6);
     mkControlPointDef "end"
       (fun data =>
          match corners data with
          | Some (_, _, x2, y2) => mkPoint2D x2 y2
          | None => mkPoint2D 0 0
          end)
       (fun data newPos =>
          match corners data with
          | Some (x1, y1, _, _) => withCorners data x1 y1 (x newPos) (y newPos)
          | None => data
          end)
       (defaultStyle 6)]
    (Some true).

Definition movePoints (points : list Point2D) (dx dy : R) : list Point2D :=
  map (fun p => mkPoint2D (x p + dx) (y p + dy)) points.

(** A translate handle of the pen: dragging the anchor point moves every
    point by the same delta. *)
Definition penControl (name : string)
    (anchor : list Point2D -> option Point2D) : ControlPointDef :=
  mkControlPointDef name
    (fun data =>
       match data with
       | PenShapeData points => default (mkPoint2D 0 0) (anchor points)
       | _ => mkPoint2D 0 0
       end)
    (fun data newPos =>
       match data with
       | PenShapeData points =>
           match anchor points with
           | None => data
           | Some a =>
               PenShapeData (movePoints points (x newPos - x a) (y newPos - y a))
           end
       | _ => data
       end)
    (defaultStyle 5).

Definition PenHandler : ShapeHandler :=
  mkShapeHandler pen
    (fun start current points =>
       let allPoints := default [start; current] points in
       if (length allPoints <? 2)%nat then None
       else Some (PenShapeData allPoints))
    (fun data config =>
       let pathData :=
         match data with
         | PenShapeData points => buildPenPathData points
         | _ => []
         end in
       newPath pathData "transparent" (DrawingConfig.strokeColor config)
         (DrawingConfig.strokeWidth config))
    (fun data dx dy =>
       match data with
       | PenShapeData points => PenShapeData (movePoints points dx dy)
       | _ => data
       end)
    [penControl "start" head; penControl "end" last]
    None.

Definition TextHandler : ShapeHandler :=
  mkShapeHandler text
    (fun start _ _ => Some (TextShapeData (x start) (y start) "" 20 None None))
    (fun data config =>
       match data with
       | TextShapeData tx ty content fontSize _ _ =>
           newIText content tx ty fontSize (DrawingConfig.strokeColor config)
       | _ => newIText "" 0 0 0 (DrawingConfig.strokeColor config)
       end)
    (fun data dx dy =>
       match data with
       | TextShapeData tx ty content fontSize w h =>
           TextShapeData (tx + dx) (ty + dy) content fontSize w h
       | _ => data
       end)
    []
    None.

(** *** The registry: a Map from the type tag to its handler *)

(** [handlers.set(handler.type, handler)]: overwrite in place, or append. *)
Fixpoint register (handler : ShapeHandler)
    (handlers : list (ShapeType * ShapeHandler))
  : list (ShapeType * ShapeHandler) :=
  match handlers with
  | [] => [(type handler, handler)]
  | (t, h) :: rest =>
      if decide (t = type handler) then (t, handler) :: rest
      else (t, h) :: register handler rest
  end.

(** [handlers.get(type)]. *)
Fixpoint getHandler (handlers : list (ShapeType * ShapeHandler))
    (t : ShapeType) : option ShapeHandler :=
  match handlers with
  | [] => None
  | (t', h) :: rest => if decide (t' = t) then Some h else getHandler rest t
  end.

Definition getTypes (handlers : list (ShapeType * ShapeHandler))
  : list ShapeType := map fst handlers.

(** The registry once the five handler modules have been imported, in the
    order the drawing surface imports them. *)
Definition ShapeRegistry : list (ShapeType * ShapeHandler) :=
  register TextHandler
    (register PenHandler
       (register ArrowHandler
          (register EllipseHandler (register RectHandler [])))).

(** The dispatch every caller performs: look the handler up by tag, then
    ask it for the datum of a drag gesture. *)
Definition dispatchCreateData (t : ShapeType) (start current : Point2D)
    (points : option (list Point2D)) : option ShapeData :=
  handler ← getHandler ShapeRegistry t;
  createData handler start current points.

End Handlers.
End Shapes.

(** ** Binary64 addition

    The numbers of JavaScript are the binary64 numbers of IEEE 754.  Where
    a property is about the rounding of a sum, addition is a relation on
    the reals: the sum of two finite numbers is the finite number nearest
    to the exact sum, and of two that are equally near the one with the
    even significand.  An exact sum of magnitude 2^1024 - 2^970 or more
    gives an infinity, which is outside the relation, as are NaN and the
    sign of zero. *)

Module Binary64.
Local Open Scope R_scope.

(** [m * 2^e]. *)
Definition value (m e : Z) : R := IZR m * powerRZ 2 e.

(** The significand and the exponent of a finite number: 53 bits at an
    exponent from -1074 to 971 for a normal number, fewer bits at the
    exponent -1074 for a subnormal number and for zero. *)
Definition canonical (m e : Z) : Prop :=
  ((2 ^ 52 <= Z.abs m < 2 ^ 53)%Z /\ (-1074 <= e <= 971)%Z)
  \/ ((Z.abs m < 2 ^ 52)%Z /\ e = (-1074)%Z).

Definition finite (r : R) : Prop :=
  exists m e, canonical m e /\ r = value m e.

(** No finite number is nearer to [r] than [z]. *)
Definition nearest (r z : R) : Prop :=
  finite z /\ forall g, finite g -> Rabs (z - r) <= Rabs (g - r).

Definition evenSignificand (z : R) : Prop :=
  exists m e, canonical m e /\ z = value m e /\ Z.even m = true.

(** Round to nearest, ties to even. *)
Definition rounds (r z : R) : Prop :=
  nearest r z
  /\ ((exists z', nearest r z' /\ z' <> z) -> evenSignificand z).

(** The least magnitude that rounds to an infinity: 2^1024 - 2^970. *)
Definition overflow : R := value (2 ^ 54 - 1) 970.

(** [x + y] gives [z]. *)
Definition add (x y z : R) : Prop :=
  finite x /\ finite y /\ Rabs (x + y) < overflow /\ rounds (x + y) z.

End Binary64.

(** ArrowHandler.move with its four additions as binary64 performs them:
    [moved] is what [move(data, dx, dy)] returns. *)
Module ArrowHandler64.
Import Shapes.

Definition move (data : ShapeData) (dx dy : R) (moved : ShapeData) : Prop :=
  match data, moved with
  | ArrowShapeData x1 y1 x2 y2, ArrowShapeData x1' y1' x2' y2' =>
      Binary64.add x1 dx x1' /\ Binary64.add y1 dy y1'
      /\ Binary64.add x2 dx x2' /\ Binary64.add y2 dy y2'
  | _, _ => False
  end.

End ArrowHandler64.

(** ** The drawing surface (useFabricCanvas) *)

Module FabricCanvas.
Import Shapes.
Local Open Scope R_scope.

(** Objects live in a store and are named by their index in it, so that
    the canvas, the control-point list and [currentObject] can hold the
    same object.  The store only grows: [new] appends. *)
Abbreviation ObjId := nat (only parsing).

(** The fabric canvas: its objects in stacking order, the active object,
    and its size. *)
Record Canvas := mkCanvas {
  objects : list ObjId;
  activeObject : option ObjId;
  width : R;
  height : R;
}.

(** [controlPoints]: the shape that owns the handles on display, and the
    handles. *)
Record ControlPoints := mkControlPoints {
  shape : option ObjId;
  points : list ObjId;
}.

(** A history entry.  [json] stands for the string JSON.stringify makes of
    the canvas state: the serialized objects, control points filtered
    out. *)
Record HistoryEntry := mkHistoryEntry { json : list FabricObject }.

(** The state of one useFabricCanvas instance. *)
Record State := mkState {
  heap : list FabricObject;
  fabricCanvas : option Canvas;
  activeTool : option ShapeType;
  isDrawing : bool;
  drawStartPoint : Point2D;
  currentObject : option ObjId;
  penPoints : list Point2D;
  history : list HistoryEntry;
  historyIndex : Z;
  isLoadingHistory : bool;
  lastObjectPosition : option (R * R);
  controlPoints : ControlPoints;
  drawingConfig : DrawingConfig.t;
}.

Definition defaultDrawingConfig : DrawingConfig.t :=
  DrawingConfig.mk "#ff0000" 3 "transparent".

(** The state useFabricCanvas starts in. *)
Definition initialState (config : DrawingConfig.t) : State :=
  mkState [] None None false (mkPoint2D 0 0) None [] [] (-1) false None
    (mkControlPoints None []) config.

Definition set_heap (h : list FabricObject) (s : State) : State :=
  mkState h (fabricCanvas s) (activeTool s) (isDrawing s) (drawStartPoint s)
    (currentObject s) (penPoints s) (history s) (historyIndex s)
    (isLoadingHistory s) (lastObjectPosition s) (controlPoints s)
    (drawingConfig s).
Definition set_fabricCanvas (c : option Canvas) (s : State) : State :=
  mkState (heap s) c (activeTool s) (isDrawing s) (drawStartPoint s)
    (currentObject s) (penPoints s) (history s) (historyIndex s)
    (isLoadingHistory s) (lastObjectPosition s) (controlPoints s)
    (drawingConfig s).
Definition set_activeTool (t : option ShapeType) (s : State) : State :=
  mkState (heap s) (fabricCanvas s) t (isDrawing s) (drawStartPoint s)
    (currentObject s) (penPoints s) (history s) (historyIndex s)
    (isLoadingHistory s) (lastObjectPosition s) (controlPoints s)
    (drawingConfig s).
Definition set_isDrawing (b : bool) (s : State) : State :=
  mkState (heap s) (fabricCanvas s) (activeTool s) b (drawStartPoint s)
    (currentObject s) (penPoints s) (history s) (historyIndex s)
    (isLoadingHistory s) (lastObjectPosition s) (controlPoints s)
    (drawingConfig s).
Definition set_drawStartPoint (p : Point2D) (s : State) : State :=
  mkState (heap s) (fabricCanvas s) (activeTool s) (isDrawing s) p
    (currentObject s) (penPoints s) (history s) (historyIndex s)
    (isLoadingHistory s) (lastObjectPosition s) (controlPoints s)
    (drawingConfig s).
Definition set_currentObject (o : option ObjId) (s : State) : State :=
  mkState (heap s) (fabricCanvas s) (activeTool s) (isDrawing s)
    (drawStartPoint s) o (penPoints s) (history s) (historyIndex s)
    (isLoadingHistory s) (lastObjectPosition s) (controlPoints s)
    (drawingConfig s).
Definition set_penPoints (l : list Point2D) (s : State) : State :=
  mkState (heap s) (fabricCanvas s) (activeTool s) (isDrawing s)
    (drawStartPoint s) (currentObject s) l (history s) (historyIndex s)
    (isLoadingHistory s) (lastObjectPosition s) (controlPoints s)
    (drawingConfig s).
Definition set_history (h : list HistoryEntry) (s : State) : State :=
  mkState (heap s) (fabricCanvas s) (activeTool s) (isDrawing s)
    (drawStartPoint s) (currentObject s) (penPoints s) h (historyIndex s)
    (isLoadingHistory s) (lastObjectPosition s) (controlPoints s)
    (drawingConfig s).
Definition set_historyIndex (i : Z) (s : State) : State :=
  mkState (heap s) (fabricCanvas s) (activeTool s) (isDrawing s)
    (drawStartPoint s) (currentObject s) (penPoints s) (history s) i
    (isLoadingHistory s) (lastObjectPosition s) (controlPoints s)
    (drawingConfig s).
Definition set_isLoadingHistory (b : bool) (s : State) : State :=
  mkState (heap s) (fabricCanvas s) (activeTool s) (isDrawing s)
    (drawStartPoint s) (currentObject s) (penPoints s) (history s)
    (historyIndex s) b (lastObjectPosition s) (controlPoints s)
    (drawingConfig s).
Definition set_lastObjectPosition (p : option (R * R)) (s : State) : State :=
  mkState (heap s) (fabricCanvas s) (activeTool s) (isDrawing s)
    (drawStartPoint s) (currentObject s) (penPoints s) (history s)
    (historyIndex s) (isLoadingHistory s) p (controlPoints s)
    (drawingConfig s).
Definition set_controlPoints (c : ControlPoints) (s : State) : State :=
  mkState (heap s) (fabricCanvas s) (activeTool s) (isDrawing s)
    (drawStartPoint s) (currentObject s) (penPoints s) (history s)
    (historyIndex s) (isLoadingHistory s) (lastObjectPosition s) c
    (drawingConfig s).
Definition set_drawingConfig (c : DrawingConfig.t) (s : State) : State :=
  mkState (heap s) (fabricCanvas s) (activeTool s) (isDrawing s)
    (drawStartPoint s) (currentObject s) (penPoints s) (history s)
    (historyIndex s) (isLoadingHistory s) (lastObjectPosition s)
    (controlPoints s) c.

(** *** The object store and the canvas *)

(** [new ...]: a fresh object, named by the next free index. *)
Definition alloc (o : FabricObject) (s : State) : ObjId * State :=
  (length (heap s), set_heap (heap s ++ [o]) s).

(** [obj.set(...)] or an assignment to a property of [obj]. *)
Definition modify (id : ObjId) (f : FabricObject -> FabricObject) (s : State)
  : State :=
  set_heap (alter f id (heap s)) s.

Definition withCanvas (f : Canvas -> Canvas) (s : State) : State :=
  set_fabricCanvas (f <$> fabricCanvas s) s.

(** [canvas.add(obj)]: on top of the stack. *)
Definition canvasAdd (id : ObjId) (s : State) : State :=
  withCanvas (fun c =>
    mkCanvas (objects c ++ [id]) (activeObject c) (width c) (height c)) s.

(** [canvas.remove(obj)].  An object that is removed stops being the
    active one.  (Fabric would then also fire [selection:cleared]; the
    handlers below never remove the object that is active at the time.) *)
Definition canvasRemove (id : ObjId) (s : State) : State :=
  withCanvas (fun c =>
    mkCanvas (filter (fun i => i <> id) (objects c))
      (if decide (activeObject c = Some id) then None else activeObject c)
      (width c) (height c)) s.

Definition set_activeObject (a : option ObjId) (s : State) : State :=
  withCanvas (fun c => mkCanvas (objects c) a (width c) (height c)) s.

(** [canvas.getObjects()], as objects. *)
Definition canvasObjects (s : State) : list FabricObject :=
  match fabricCanvas s with
  | Some c => omap (fun id => heap s !! id) (objects c)
  | None => []
  end.

(** The object [toObject(["shapeData", "isControlPoint"])] serializes: the
    properties of the model except [pointId], which is not asked for. *)
Definition toObject (o : FabricObject) : FabricObject :=
  mkObject (kind o) (left o) (top o) (visible o) (fill o) (stroke o)
    (strokeWidth o) (strokeDashArray o) (shapeData o) (isControlPoint o) None.

(** The persistent object list of the surface: the serialized objects of
    the canvas without the control points.  This is what saveHistory
    stores. *)
Definition persistentObjects (s : State) : list FabricObject :=
  filter (fun o => isControlPoint o = false) (toObject <$> canvasObjects s).

(** *** Control points and selection listeners *)

Section Handlers.
Context `{FabricLayout}.

(** JavaScript's [a || b] on an optional number (0 is falsy) and on an
    optional string (the empty string is falsy). *)
Definition or_num (v : option R) (d : R) : R :=
  match v with
  | Some r => if Req_dec_T r 0 then d else r
  | None => d
  end.

Definition or_str (v : option string) (d : string) : string :=
  match v with
  | Some EmptyString | None => d
  | Some str => str
  end.

(** [!text || text.trim() === ""].  A string of the model is the UTF-8
    encoding of the JavaScript string, and [trim] strips the white space
    and line terminators of ECMAScript: U+0009 to U+000D and U+0020 (one
    byte each), U+00A0 (two bytes), and U+1680, U+2000 to U+200A, U+2028,
    U+2029, U+202F, U+205F, U+3000 and U+FEFF (three bytes each). *)
Definition isWhiteSpace1 (b1 : nat) : bool :=
  ((9 <=? b1) && (b1 <=? 13) || (b1 =? 32))%nat.

Definition isWhiteSpace2 (b1 b2 : nat) : bool :=
  ((b1 =? 194) && (b2 =? 160))%nat.

Definition isWhiteSpace3 (b1 b2 b3 : nat) : bool :=
  ((b1 =? 225) && (b2 =? 154) && (b3 =? 128)
   || (b1 =? 226) && (b2 =? 128)
      && ((128 <=? b3) && (b3 <=? 138) || (b3 =? 168) || (b3 =? 169)
          || (b3 =? 175))
   || (b1 =? 226) && (b2 =? 129) && (b3 =? 159)
   || (b1 =? 227) && (b2 =? 128) && (b3 =? 128)
   || (b1 =? 239) && (b2 =? 187) && (b3 =? 191))%nat.

Fixpoint isBlank (str : string) : bool :=
  match str with
  | EmptyString => true
  | String c1 rest1 =>
      if isWhiteSpace1 (nat_of_ascii c1) then isBlank rest1
      else
        match rest1 with
        | EmptyString => false
        | String c2 rest2 =>
            if isWhiteSpace2 (nat_of_ascii c1) (nat_of_ascii c2)
            then isBlank rest2
            else
              match rest2 with
              | EmptyString => false
              | String c3 rest3 =>
                  if isWhiteSpace3 (nat_of_ascii c1) (nat_of_ascii c2)
                       (nat_of_ascii c3)
                  then isBlank rest3
                  else false
              end
        end
  end.

Definition shapeDataOf (s : State) (id : ObjId) : option ShapeData :=
  o ← heap s !! id; shapeData o.

(** removeControlPoints: take the handles off the canvas, undash the shape
    that owned them, forget them. *)
Definition removeControlPoints (s : State) : State :=
  match fabricCanvas s with
  | None => s
  | Some _ =>
      let s := foldl (fun s pt => canvasRemove pt s) s (points (controlPoints s)) in
      let s :=
        match shape (controlPoints s) with
        | Some sh => modify sh (set_strokeDashArray None) s
        | None => s
        end in
      set_controlPoints (mkControlPoints None []) s
  end.

(** The circle createControlPoints makes for one definition. *)
Definition controlCircle (def : ControlPointDef) (data : ShapeData)
  : FabricObject :=
  let pos := getPosition def data in
  let c :=
    newCircle (x pos) (y pos)
      (or_num (style def ≫= ControlStyle.radius) 6)
      (or_str (style def ≫= ControlStyle.fill) "#ffffff")
      (or_str (style def ≫= ControlStyle.stroke) "#0066ff")
      (or_num (style def ≫= ControlStyle.strokeWidth) 2) in
  mkObject (kind c) (left c) (top c) (visible c) (fill c) (stroke c)
    (strokeWidth c) (strokeDashArray c) (shapeData c) true (Some (id def)).

(** createControlPoints: replace the handles on display by one circle per
    control-point definition of the shape's handler, on top of the stack. *)
Definition createControlPoints (shapeId : ObjId) (s : State) : State :=
  match fabricCanvas s, shapeDataOf s shapeId with
  | Some _, Some data =>
      let s := removeControlPoints s in
      match getHandler ShapeRegistry (shapeType data) with
      | None => s
      | Some handler =>
          let '(newPoints, s) :=
            foldl (fun '(acc, s) def =>
                     let '(control, s) := alloc (controlCircle def data) s in
                     (acc ++ [control], canvasAdd control s))
              ([], s) (getControlPoints handler) in
          set_controlPoints (mkControlPoints (Some shapeId) newPoints) s
      end
  | _, _ => s
  end.

(** updateAllControlPoints: move every handle of the shape to the position
    its definition gives on the current datum. *)
Definition updateAllControlPoints (shapeId : ObjId) (s : State) : State :=
  match shape (controlPoints s), shapeDataOf s shapeId with
  | Some sh, Some data =>
      if decide (sh = shapeId) then
        match getHandler ShapeRegistry (shapeType data) with
        | None => s
        | Some handler =>
            foldl (fun s pt =>
                     match
                       o ← heap s !! pt;
                       pid ← pointId o;
                       List.find (fun d => bool_decide (id d = pid))
                         (getControlPoints handler)
                     with
                     | Some def =>
                         let newPos := getPosition def data in
                         modify pt (set_position (x newPos) (y newPos)) s
                     | None => s
                     end)
              s (points (controlPoints s))
        end
      else s
  | _, _ => s
  end.

(** A text datum with the size fabric measures for the object. *)
Definition withScaledSize (o : FabricObject) (d : ShapeData) : ShapeData :=
  match d, kind o with
  | TextShapeData tx ty content size _ _, IText shown fontSize =>
      let '(w, h) := scaledSize shown fontSize in
      TextShapeData tx ty content size (Some w) (Some h)
  | _, _ => d
  end.

(** handleSelected: dash the outline of a shape (a text shows its border
    instead), refresh the measured size of a text, build the handles. *)
Definition handleSelected (objs : list ObjId) (s : State) : State :=
  foldl (fun s obj =>
           match heap s !! obj with
           | None => s
           | Some o =>
               if isControlPoint o then s
               else
                 let s :=
                   if isTextObject o then
                     modify obj (fun o =>
                       set_shapeData (withScaledSize o <$> shapeData o) o) s
                   else modify obj (set_strokeDashArray (Some [5; 5])) s in
                 match shapeData o with
                 | Some _ => createControlPoints obj s
                 | None => s
                 end
           end)
    s objs.

(** handleDeselected: undash, delete a text left empty, drop the handles. *)
Definition handleDeselected (objs : list ObjId) (s : State) : State :=
  let s :=
    foldl (fun s obj =>
             match heap s !! obj with
             | None => s
             | Some o =>
                 if isControlPoint o then s
                 else
                   let s := modify obj (set_strokeDashArray None) s in
                   match kind o with
                   | IText content _ =>
                       if isBlank content then canvasRemove obj s else s
                   | _ => s
                   end
             end)
      s objs in
  removeControlPoints s.

(** The listeners of [selection:created], [selection:updated] and
    [selection:cleared]. *)
Definition onSelectionCreated (selected : list ObjId) (s : State) : State :=
  handleSelected selected s.

Definition onSelectionUpdated (selected deselected : list ObjId) (s : State)
  : State :=
  match o ← head selected; heap s !! o with
  | Some o =>
      if isControlPoint o then s
      else handleSelected selected (handleDeselected deselected s)
  | None => handleSelected selected (handleDeselected deselected s)
  end.

Definition onSelectionCleared (deselected : list ObjId) (s : State) : State :=
  handleDeselected deselected s.

(** [canvas.discardActiveObject()]: fabric clears the active object and
    fires [selection:cleared] if there was one. *)
Definition discardActiveObject (s : State) : State :=
  match c ← fabricCanvas s; activeObject c with
  | Some a => onSelectionCleared [a] (set_activeObject None s)
  | None => s
  end.

(** [canvas.setActiveObject(obj)]: fabric makes [obj] the active object and
    fires [selection:created], or [selection:updated] when another object
    was active. *)
Definition setActiveObject (obj : ObjId) (s : State) : State :=
  match fabricCanvas s with
  | None => s
  | Some c =>
      match activeObject c with
      | None => onSelectionCreated [obj] (set_activeObject (Some obj) s)
      | Some a =>
          if decide (a = obj) then s
          else onSelectionUpdated [obj] [a] (set_activeObject (Some obj) s)
      end
  end.

(** *** History *)

(** [list.slice(0, end)]: a negative [end] counts from the end of the
    list. *)
Definition slice0 {A} (l : list A) (end_ : Z) : list A :=
  let len := Z.of_nat (length l) in
  let stop := if (end_ <? 0)%Z then Z.max (len + end_) 0 else Z.min end_ len in
  take (Z.to_nat stop) l.

(** [list[i]]: undefined outside the list. *)
Definition at_index {A} (l : list A) (i : Z) : option A :=
  if (i <? 0)%Z then None else l !! Z.to_nat i.

(** saveHistory: cut the entries after the cursor, if any, then push the
    serialized canvas and put the cursor on it. *)
Definition saveHistory (s : State) : State :=
  match fabricCanvas s with
  | None => s
  | Some _ =>
      let s :=
        if (historyIndex s <? Z.of_nat (length (history s)) - 1)%Z
        then set_history (slice0 (history s) (historyIndex s + 1)) s
        else s in
      let json := persistentObjects s in
      let s := set_history (history s ++ [mkHistoryEntry json]) s in
      set_historyIndex (Z.of_nat (length (history s)) - 1) s
  end.

(** One object of an entry, revived and put on the canvas. *)
Definition revive (s : State) (o : FabricObject) : State :=
  let '(obj, s) := alloc o s in canvasAdd obj s.

(** [canvas.loadFromJSON(json)]: fabric clears the canvas, which discards
    the active object, and adds the objects it revives from the entry. *)
Definition loadFromJSON (entry : list FabricObject) (s : State) : State :=
  let s := discardActiveObject s in
  let s := withCanvas (fun c => mkCanvas [] None (width c) (height c)) s in
  foldl revive s entry.

(** undo: one entry back, and the canvas reloaded from it.  The call is
    awaited; if the entry at the cursor were missing, reading its [json]
    would throw and leave the state as it is then. *)
Definition undo (s : State) : State :=
  match fabricCanvas s with
  | None => s
  | Some _ =>
      if (historyIndex s <=? 0)%Z then s
      else
        let s := set_isLoadingHistory true s in
        let s := set_historyIndex (historyIndex s - 1) s in
        match at_index (history s) (historyIndex s) with
        | Some entry => set_isLoadingHistory false (loadFromJSON (json entry) s)
        | None => s
        end
  end.

(** redo: one entry forward, and the canvas reloaded from it. *)
Definition redo (s : State) : State :=
  match fabricCanvas s with
  | None => s
  | Some _ =>
      if (Z.of_nat (length (history s)) - 1 <=? historyIndex s)%Z then s
      else
        let s := set_isLoadingHistory true s in
        let s := set_historyIndex (historyIndex s + 1) s in
        match at_index (history s) (historyIndex s) with
        | Some entry => set_isLoadingHistory false (loadFromJSON (json entry) s)
        | None => s
        end
  end.

Definition resetHistory (s : State) : State :=
  set_historyIndex (-1) (set_history [] s).

Definition canUndo (s : State) : bool := (0 <? historyIndex s)%Z.

Definition canRedo (s : State) : bool :=
  (historyIndex s <? Z.of_nat (length (history s)) - 1)%Z.

(** [historyLength()]. *)
Definition historyLength (s : State) : Z := Z.of_nat (length (history s)).

(** *** Export *)

(** The image [canvas.toDataURL] encodes, as what went into it: the
    options of the call and the objects that were painted, bottom first
    (those on the canvas that were visible). *)
Record Raster := mkRaster {
  format : string;
  quality : R;
  multiplier : R;
  painted : list (ObjId * FabricObject);
}.

(** What a render paints: the visible objects of the canvas. *)
Definition renderAll (s : State) : list (ObjId * FabricObject) :=
  match fabricCanvas s with
  | Some c =>
      filter (fun p => visible p.2 = true)
        (omap (fun obj => pair obj <$> heap s !! obj) (objects c))
  | None => []
  end.

(** toDataURL: hide the control points, rasterize at multiplier 1, show
    them again.  Without a canvas the result is the empty string
    ([None]). *)
Definition toDataURL (fmt : string) (q : R) (s : State)
  : option Raster * State :=
  match fabricCanvas s with
  | None => (None, s)
  | Some _ =>
      let controls := points (controlPoints s) in
      let s := foldl (fun s c => modify c (set_visible false) s) s controls in
      let dataUrl := mkRaster fmt q 1 (renderAll s) in
      let s := foldl (fun s c => modify c (set_visible true) s) s controls in
      (Some dataUrl, s)
  end.

(** *** Drawing *)

(** handleMouseDown: a press on empty canvas with a tool starts a stroke. *)
Definition handleMouseDown (pointer : Point2D) (target : option ObjId)
    (s : State) : State :=
  match fabricCanvas s, activeTool s, target with
  | Some _, Some _, None =>
      let s := set_isDrawing true s in
      let s := set_drawStartPoint pointer s in
      let s := set_penPoints [pointer] s in
      discardActiveObject s
  | _, _, _ => s
  end.

(** handleMouseMove: replace the transient object by the one the handler
    makes for the pointer, clamped to the canvas. *)
Definition handleMouseMove (pointer : Point2D) (s : State) : State :=
  match fabricCanvas s, isDrawing s, activeTool s with
  | Some canvas, true, Some tool =>
      let start := drawStartPoint s in
      let s :=
        match currentObject s with
        | Some current => canvasRemove current s
        | None => s
        end in
      let clampedX := Rmax 0 (Rmin (x pointer) (or_num (Some (width canvas)) 0)) in
      let clampedY := Rmax 0 (Rmin (y pointer) (or_num (Some (height canvas)) 0)) in
      let clampedPointer := mkPoint2D clampedX clampedY in
      let s :=
        if decide (tool = pen) then set_penPoints (penPoints s ++ [clampedPointer]) s
        else s in
      match getHandler ShapeRegistry tool with
      | None => s
      | Some handler =>
          match createData handler start clampedPointer (Some (penPoints s)) with
          | None => s
          | Some data =>
              let newObject :=
                set_shapeData (Some data) (createPath handler data (drawingConfig s)) in
              let '(obj, s) := alloc newObject s in
              set_currentObject (Some obj) (canvasAdd obj s)
          end
      end
  | _, _, _ => s
  end.

(** The first step of handleMouseUp: with the text tool and no transient
    object (the pointer never moved), make the empty text at the start
    point. *)
Definition createClickedText (s : State) : State :=
  match currentObject s, activeTool s with
  | None, Some text =>
      match getHandler ShapeRegistry text with
      | Some handler =>
          match createData handler (drawStartPoint s) (drawStartPoint s) None with
          | Some data =>
              let newObject :=
                set_shapeData (Some data)
                  (createPath handler data (drawingConfig s)) in
              let '(obj, s) := alloc newObject s in
              set_currentObject (Some obj) (canvasAdd obj s)
          | None => s
          end
      | None => s
      end
  | _, _ => s
  end.

(** The second step: if there is a current object, dash it (a text gets
    its fill colour instead), select it, push a history entry and forget
    it. *)
Definition commitCurrentObject (s : State) : State :=
  match currentObject s with
  | Some current =>
      let s :=
        modify current (fun o =>
          let isText := isTextObject o in
          set_fill
            (if isText then DrawingConfig.strokeColor (drawingConfig s)
             else "transparent")
            (set_strokeDashArray (if isText then None else Some [5; 5]) o))
          s in
      let s := setActiveObject current s in
      let s := saveHistory s in
      set_currentObject None s
  | None => s
  end.

(** handleMouseUp: end the stroke, commit its object, clear the pen
    points. *)
Definition handleMouseUp (s : State) : State :=
  match fabricCanvas s, isDrawing s with
  | Some _, true =>
      let s := set_isDrawing false s in
      let s := createClickedText s in
      let s := commitCurrentObject s in
      set_penPoints [] s
  | _, _ => s
  end.

(** *** Moving and reshaping *)

(** The second [mouse:down] listener: remember where the pressed object
    is, and give it handles if it has none. *)
Definition onMouseDown (target : option ObjId) (s : State) : State :=
  match t ← target; pair t <$> heap s !! t with
  | Some (t, o) =>
      if isControlPoint o then s
      else
        let s := set_lastObjectPosition (Some (left o, top o)) s in
        match shapeData o with
        | Some _ =>
            if decide (shape (controlPoints s) = Some t) then s
            else createControlPoints t s
        | None => s
        end
  | None => s
  end.

(** The [object:moving] listener: translate the datum by the distance the
    object has moved since the last event, and the handles with it. *)
Definition onObjectMoving (obj : ObjId) (s : State) : State :=
  match heap s !! obj with
  | Some o =>
      match shapeData o with
      | Some data =>
          match lastObjectPosition s with
          | None => set_lastObjectPosition (Some (left o, top o)) s
          | Some (lastLeft, lastTop) =>
              let dx := left o - lastLeft in
              let dy := top o - lastTop in
              if Num.ltb (1 / 100) (Rabs dx) || Num.ltb (1 / 100) (Rabs dy) then
                match getHandler ShapeRegistry (shapeType data) with
                | Some handler =>
                    let s := modify obj (set_shapeData (Some (move handler data dx dy))) s in
                    let s := updateAllControlPoints obj s in
                    set_lastObjectPosition (Some (left o, top o)) s
                | None => s
                end
              else s
          end
      | None => s
      end
  | None => s
  end.

(** The [object:modified] listener: bring the datum of a text up to date
    with the object, then push a history entry unless one is loading. *)
Definition onObjectModified (target : option ObjId) (s : State) : State :=
  let s :=
    match t ← target; pair t <$> heap s !! t with
    | Some (t, o) =>
        match kind o, shapeData o with
        | IText content _, Some (TextShapeData _ _ _ size w h) =>
            let s :=
              modify t (fun o =>
                set_shapeData
                  (Some (withScaledSize o
                           (TextShapeData (left o) (top o) content size w h)))
                  o) s in
            updateAllControlPoints t s
        | _, _ => s
        end
    | None => s
    end in
  if isLoadingHistory s then s else saveHistory s.

(** updateShapeFromControl: the handle has been dragged; reshape the datum
    through the definition's onDrag and regenerate the object in place. *)
Definition updateShapeFromControl (shapeId control : ObjId)
    (def : ControlPointDef) (s : State) : State :=
  match fabricCanvas s, heap s !! shapeId, heap s !! control with
  | Some _, Some sh, Some ctl =>
      match shapeData sh with
      | None => s
      | Some data =>
          match getHandler ShapeRegistry (shapeType data) with
          | None => s
          | Some handler =>
              let newPos := mkPoint2D (left ctl) (top ctl) in
              let newData := onDrag def data newPos in
              let s := modify shapeId (set_shapeData (Some newData)) s in
              let tempPath :=
                createPath handler newData
                  (DrawingConfig.mk
                     (or_str (Some (stroke sh)) "#000000")
                     (or_num (Some (strokeWidth sh)) 1)
                     (or_str (Some (fill sh)) "transparent")) in
              let s :=
                match kind tempPath with
                | Path p =>
                    modify shapeId (fun o =>
                      set_position (left tempPath) (top tempPath)
                        (set_kind (Path p) o)) s
                | IText _ size =>
                    if isTextObject sh then
                      modify shapeId (fun o =>
                        let o :=
                          set_fontSize size
                            (set_position (left tempPath) (top tempPath) o) in
                        set_shapeData (withScaledSize o <$> shapeData o) o) s
                    else
                      modify shapeId
                        (set_position (left tempPath) (top tempPath)) s
                | Circle _ =>
                    modify shapeId
                      (set_position (left tempPath) (top tempPath)) s
                end in
              updateAllControlPoints shapeId s
          end
      end
  | _, _, _ => s
  end.

(** The [moving] listener createControlPoints binds to a handle: it
    reshapes the shape the handle was made for, through the definition it
    was made from. *)
Definition onControlMoving (control : ObjId) (s : State) : State :=
  match
    shapeId ← shape (controlPoints s);
    data ← shapeDataOf s shapeId;
    handler ← getHandler ShapeRegistry (shapeType data);
    ctl ← heap s !! control;
    pid ← pointId ctl;
    def ← List.find (fun d => bool_decide (id d = pid)) (getControlPoints handler);
    Some (shapeId, def)
  with
  | Some (shapeId, def) =>
      if bool_decide (control ∈ points (controlPoints s))
      then updateShapeFromControl shapeId control def s
      else s
  | None => s
  end.

(** *** Canvas life cycle and tools *)

(** initCanvas: a new, empty fabric canvas of the given size replaces the
    one in use. *)
Definition initCanvas (w h : R) (s : State) : State :=
  set_fabricCanvas (Some (mkCanvas [] None w h)) s.

Definition setActiveTool (tool : option ShapeType) (s : State) : State :=
  let s := set_activeTool tool s in
  match fabricCanvas s, tool with
  | Some _, Some _ => discardActiveObject s
  | _, _ => s
  end.

(** [canvas.remove(obj)] called from outside the listeners: if the object
    was the active one, fabric fires [selection:cleared] for it. *)
Definition fabricRemove (s : State) (obj : ObjId) : State :=
  match fabricCanvas s with
  | Some c =>
      if decide (activeObject c = Some obj)
      then onSelectionCleared [obj] (canvasRemove obj s)
      else canvasRemove obj s
  | None => s
  end.

(** addObject, removeObject and clearObjects. *)
Definition addObject (o : FabricObject) (s : State) : State :=
  match fabricCanvas s with
  | Some _ => let '(obj, s) := alloc o s in canvasAdd obj s
  | None => s
  end.

Definition removeObject (obj : ObjId) (s : State) : State :=
  fabricRemove s obj.

Definition clearObjects (s : State) : State :=
  match fabricCanvas s with
  | Some c => foldl fabricRemove s (objects c)
  | None => s
  end.

(** setStrokeColor: the colour of the configuration and of the active
    object (the fill of a text, the stroke of a shape), and a history
    entry if there is an active object. *)
Definition setStrokeColor (color : string) (s : State) : State :=
  let s :=
    set_drawingConfig
      (DrawingConfig.mk color (DrawingConfig.strokeWidth (drawingConfig s))
         (DrawingConfig.fillColor (drawingConfig s))) s in
  match c ← fabricCanvas s; activeObject c with
  | Some active =>
      let s :=
        modify active (fun o =>
          if isTextObject o then set_fill color o else set_stroke color o) s in
      saveHistory s
  | None => s
  end.

(** setStrokeWidth: a text steps its font size with the width. *)
Definition setStrokeWidth (w : R) (s : State) : State :=
  let s :=
    set_drawingConfig
      (DrawingConfig.mk (DrawingConfig.strokeColor (drawingConfig s)) w
         (DrawingConfig.fillColor (drawingConfig s))) s in
  match c ← fabricCanvas s; activeObject c with
  | Some active =>
      let s :=
        modify active (fun o =>
          if isTextObject o then set_fontSize (16 + (w - 1) * 4) o
          else set_strokeWidth w o) s in
      saveHistory s
  | None => s
  end.

(** dispose: drop the canvas and every piece of state with it. *)
Definition dispose (s : State) : State :=
  let s := set_fabricCanvas None s in
  let s := set_activeTool None s in
  let s := set_isDrawing false s in
  let s := set_currentObject None s in
  let s := set_penPoints [] s in
  let s := set_controlPoints (mkControlPoints None []) s in
  resetHistory s.

(** What the capture window does when the selection is confirmed or
    changes: a fresh canvas, then a history that holds the empty canvas as
    its baseline entry. *)
Definition openSurface (w h : R) (s : State) : State :=
  saveHistory (resetHistory (initCanvas w h s)).

(** *** Gestures

    What fabric does with the pointer, around the listeners above: a press
    selects the object under the pointer (or clears the selection on empty
    canvas) before the [mouse:down] listeners run; a drag moves the pressed
    object and fires its [moving] listener and [object:moving]; a release
    after a drag fires [object:modified], and then [mouse:up]. *)

Definition fabricMouseDown (pointer : Point2D) (target : option ObjId)
    (s : State) : State :=
  let s :=
    match target with
    | Some t => setActiveObject t s
    | None => discardActiveObject s
    end in
  onMouseDown target (handleMouseDown pointer target s).

Definition fabricDrag (s : State) (obj : ObjId) (position : R * R) : State :=
  let s := modify obj (set_position position.1 position.2) s in
  onObjectMoving obj (onControlMoving obj s).

Definition fabricMouseUp (dragged : option ObjId) (s : State) : State :=
  let s :=
    match dragged with
    | Some _ => onObjectModified dragged s
    | None => s
    end in
  handleMouseUp s.






(** *** The surface as a transition system

    Every way the capture window and fabric drive one instance: the
    functions it exports and the pointer events of its canvas. *)
Inductive Event :=
| InitCanvas (w h : R)
| Dispose
| SetActiveTool (tool : option ShapeType)
| MouseDown (pointer : Point2D) (target : option ObjId)
| MouseMove (pointer : Point2D)
| Drag (obj : ObjId) (position : R * R)
| MouseUp (dragged : option ObjId)
| AddObject (o : FabricObject)
| RemoveObject (obj : ObjId)
| ClearObjects
| DiscardActiveObject
| SetStrokeColor (color : string)
| SetStrokeWidth (w : R)
| SaveHistory
| Undo
| Redo
| ResetHistory
| ToDataURL (fmt : string) (q : R).

Definition step (e : Event) (s : State) : State :=
  match e with
  | InitCanvas w h => initCanvas w h s
  | Dispose => dispose s
  | SetActiveTool tool => setActiveTool tool s
  | MouseDown pointer target => fabricMouseDown pointer target s
  | MouseMove pointer => handleMouseMove pointer s
  | Drag obj position => fabricDrag s obj position
  | MouseUp dragged => fabricMouseUp dragged s
  | AddObject o => addObject o s
  | RemoveObject obj => removeObject obj s
  | ClearObjects => clearObjects s
  | DiscardActiveObject => discardActiveObject s
  | SetStrokeColor color => setStrokeColor color s
  | SetStrokeWidth w => setStrokeWidth w s
  | SaveHistory => saveHistory s
  | Undo => undo s
  | Redo => redo s
  | ResetHistory => resetHistory s
  | ToDataURL fmt q => (toDataURL fmt q s).2
  end.

(** The states an instance can be in. *)
Inductive reachable : State -> Prop :=
| reachable_initial config : reachable (initialState config)
| reachable_step e s : reachable s -> reachable (step e s).

(** *** Queries *)

(** getActiveObject: the active object of the canvas, null without a
    canvas. *)
Definition getActiveObject (s : State) : option ObjId :=
  c ← fabricCanvas s; activeObject c.

(** getObjectAtPoint: the objects of the canvas are searched from the top
    of the stack down, and the first that contains the point is returned.
    [containsPoint] stands for fabric's [obj.containsPoint(point)]. *)
Definition getObjectAtPoint (containsPoint : FabricObject -> Point2D -> bool)
    (px py : R) (s : State) : option ObjId :=
  match fabricCanvas s with
  | None => None
  | Some c =>
      let point := mkPoint2D px py in
      List.find
        (fun obj =>
           match heap s !! obj with
           | Some o => containsPoint o point
           | None => false
           end)
        (rev (objects c))
  end.

End Handlers.
End FabricCanvas.

(** ** Region selection (the capture window) *)

Module Box.
(** A rectangle [{x, y, w, h}] in canvas pixels. *)
Record t := mk { x : R; y : R; w : R; h : R }.
End Box.

Module Selection.
Local Open Scope R_scope.

(** The names getResizeHandle returns. *)
Inductive Handle :=
| Handle_nw | Handle_ne | Handle_sw | Handle_se
| Handle_n | Handle_s | Handle_w | Handle_e.

(** The refs of the capture component that the selection handlers use.
    [bounds] is the computed capture rectangle; [hasObjects] stands for
    [shapes.value.length > 0] in the plain-canvas variant and for
    [hasFabricObjects()] in the fabric variant; [mask] is the selection
    whose border and handles renderMask last drew, if it drew any. *)
Record State := mkState {
  isSelecting : bool;
  isDragging : bool;
  isResizing : bool;
  resizeHandle : option Handle;
  selection : option Box.t;
  startPos : Point2D;
  dragStartPos : Point2D;
  dragStartSelection : option Box.t;
  scaleFactor : Point2D;
  bounds : Box.t;
  hasObjects : bool;
  mask : option Box.t;
}.

Definition set_selection (sel : option Box.t) (st : State) : State :=
  mkState (isSelecting st) (isDragging st) (isResizing st) (resizeHandle st)
    sel (startPos st) (dragStartPos st) (dragStartSelection st)
    (scaleFactor st) (bounds st) (hasObjects st) (mask st).

Definition set_isSelecting (b : bool) (st : State) : State :=
  mkState b (isDragging st) (isResizing st) (resizeHandle st)
    (selection st) (startPos st) (dragStartPos st) (dragStartSelection st)
    (scaleFactor st) (bounds st) (hasObjects st) (mask st).

(** renderMask: the border and the eight handles are drawn only around a
    selection of positive width and height. *)
Definition renderMask (st : State) : State :=
  mkState (isSelecting st) (isDragging st) (isResizing st) (resizeHandle st)
    (selection st) (startPos st) (dragStartPos st) (dragStartSelection st)
    (scaleFactor st) (bounds st) (hasObjects st)
    (match selection st with
     | Some sel =>
         if Num.ltb 0 (Box.w sel) && Num.ltb 0 (Box.h sel) then Some sel
         else None
     | None => None
     end).

Definition toCanvasCoords (st : State) (clientX clientY : R) : Point2D :=
  mkPoint2D (clientX * x (scaleFactor st)) (clientY * y (scaleFactor st)).

(** getResizeHandle: corners first, then edges, each within 12 pixels. *)
Definition getResizeHandle (st : State) (px py : R) : option Handle :=
  match selection st with
  | None => None
  | Some sel =>
      let sx := Box.x sel in
      let sy := Box.y sel in
      let w := Box.w sel in
      let h := Box.h sel in
      let threshold := 12 in
      if Num.ltb (Rabs (px - sx)) threshold && Num.ltb (Rabs (py - sy)) threshold
      then Some Handle_nw
      else if Num.ltb (Rabs (px - (sx + w))) threshold
              && Num.ltb (Rabs (py - sy)) threshold
      then Some Handle_ne
      else if Num.ltb (Rabs (px - sx)) threshold
              && Num.ltb (Rabs (py - (sy + h))) threshold
      then Some Handle_sw
      else if Num.ltb (Rabs (px - (sx + w))) threshold
              && Num.ltb (Rabs (py - (sy + h))) threshold
      then Some Handle_se
      else if Num.ltb (Rabs (px - sx)) threshold
              && Num.ltb sy py && Num.ltb py (sy + h)
      then Some Handle_w
      else if Num.ltb (Rabs (px - (sx + w))) threshold
              && Num.ltb sy py && Num.ltb py (sy + h)
      then Some Handle_e
      else if Num.ltb (Rabs (py - sy)) threshold
              && Num.ltb sx px && Num.ltb px (sx + w)
      then Some Handle_n
      else if Num.ltb (Rabs (py - (sy + h))) threshold
              && Num.ltb sx px && Num.ltb px (sx + w)
      then Some Handle_s
      else None
  end.

Definition isInsideSelection (st : State) (px py : R) : bool :=
  match selection st with
  | None => false
  | Some sel =>
      Num.ltb (Box.x sel) px && Num.ltb px (Box.x sel + Box.w sel)
      && Num.ltb (Box.y sel) py && Num.ltb py (Box.y sel + Box.h sel)
  end.

(** The resize branch of handleMouseMove, from the box at the start of the
    drag, the handle and the displacement of the pointer: move the edges
    the handle holds, flip a negative extent, clamp to the bounds. *)
Definition resizeSelection (bounds start : Box.t) (handle : Handle)
    (dx dy : R) : Box.t :=
  let sx := Box.x start in
  let sy := Box.y start in
  let sw := Box.w start in
  let sh := Box.h start in
  let '(newX, newY, newW, newH) :=
    match handle with
    | Handle_nw => (sx + dx, sy + dy, sw - dx, sh - dy)
    | Handle_ne => (sx, sy + dy, sw + dx, sh - dy)
    | Handle_sw => (sx + dx, sy, sw - dx, sh + dy)
    | Handle_se => (sx, sy, sw + dx, sh + dy)
    | Handle_n => (sx, sy + dy, sw, sh - dy)
    | Handle_s => (sx, sy, sw, sh + dy)
    | Handle_w => (sx + dx, sy, sw - dx, sh)
    | Handle_e => (sx, sy, sw + dx, sh)
    end in
  let '(newX, newW) :=
    if Num.ltb newW 0 then (newX + newW, - newW) else (newX, newW) in
  let '(newY, newH) :=
    if Num.ltb newH 0 then (newY + newH, - newH) else (newY, newH) in
  let newX := Rmax 0 newX in
  let newY := Rmax 0 newY in
  let newW := Rmin (Box.w bounds - newX) newW in
  let newH := Rmin (Box.h bounds - newY) newH in
  Box.mk newX newY newW newH.

(** The move branch: translate the box, clamped so it stays in the bounds. *)
Definition moveSelection (bounds start : Box.t) (dx dy : R) : Box.t :=
  let newX := Box.x start + dx in
  let newY := Box.y start + dy in
  let newX := Rmax 0 (Rmin (Box.w bounds - Box.w start) newX) in
  let newY := Rmax 0 (Rmin (Box.h bounds - Box.h start) newY) in
  Box.mk newX newY (Box.w start) (Box.h start).

(** handleMouseMove, the selection branches (they are the same in both
    variants; the cursor update and, in the plain-canvas variant, the
    branches that draw or edit shapes do not touch the selection). *)
Definition handleMouseMove (clientX clientY : R) (st : State) : State :=
  let pos := toCanvasCoords st clientX clientY in
  if isSelecting st then
    let bx := Rmin (x (startPos st)) (x pos) in
    let by_ := Rmin (y (startPos st)) (y pos) in
    let bw := Rabs (x pos - x (startPos st)) in
    let bh := Rabs (y pos - y (startPos st)) in
    renderMask (set_selection (Some (Box.mk bx by_ bw bh)) st)
  else
    match isDragging st, dragStartSelection st with
    | true, Some start =>
        if hasObjects st then st
        else
          let dx := x pos - x (dragStartPos st) in
          let dy := y pos - y (dragStartPos st) in
          renderMask
            (set_selection (Some (moveSelection (bounds st) start dx dy)) st)
    | _, _ =>
        match isResizing st, dragStartSelection st, resizeHandle st with
        | true, Some start, Some handle =>
            if hasObjects st then st
            else
              let dx := x pos - x (dragStartPos st) in
              let dy := y pos - y (dragStartPos st) in
              renderMask
                (set_selection
                   (Some (resizeSelection (bounds st) start handle dx dy)) st)
        | _, _, _ => st
        end
    end.

(** The tail of handleMouseUp, common to both variants: every drag mode is
    left. *)
Definition endDrag (st : State) : State :=
  mkState (isSelecting st) false false None (selection st) (startPos st)
    (dragStartPos st) None (scaleFactor st) (bounds st) (hasObjects st)
    (mask st).

Definition tooSmall (sel : Box.t) : bool :=
  Num.ltb (Box.w sel) 10 || Num.ltb (Box.h sel) 10.

(** handleMouseUp of the plain-canvas variant: a selection below 10 pixels
    on either axis is cleared. *)
Definition handleMouseUp_canvas (st : State) : State :=
  let st :=
    if isSelecting st then
      let st := set_isSelecting false st in
      match selection st with
      | Some sel =>
          if tooSmall sel then renderMask (set_selection None st) else st
      | None => st
      end
    else st in
  endDrag st.

(** handleMouseUp of the fabric variant: a selection below 10 pixels on
    either axis counts as a click and selects the whole capture. *)
Definition handleMouseUp_fabric (st : State) : State :=
  let st :=
    if isSelecting st then
      let st := set_isSelecting false st in
      match selection st with
      | Some sel =>
          if tooSmall sel then
            renderMask
              (set_selection
                 (Some (Box.mk 0 0 (Box.w (bounds st)) (Box.h (bounds st)))) st)
          else st
      | None => st
      end
    else st in
  endDrag st.

(** handleMouseDown of the fabric variant.  [onToolbar] and [onUpperCanvas]
    say where the event landed. *)
Definition handleMouseDown_fabric (onToolbar onUpperCanvas : bool)
    (clientX clientY : R) (st : State) : State :=
  if onToolbar then st
  else if onUpperCanvas then st
  else
    let pos := toCanvasCoords st clientX clientY in
    match selection st with
    | Some sel =>
        if isInsideSelection st (x pos) (y pos) then st
        else if negb (hasObjects st) then
          match getResizeHandle st (x pos) (y pos) with
          | Some handle =>
              mkState (isSelecting st) (isDragging st) true (Some handle)
                (selection st) (startPos st) pos (Some sel)
                (scaleFactor st) (bounds st) (hasObjects st) (mask st)
          | None => st
          end
        else st
    | None =>
        renderMask
          (mkState true (isDragging st) (isResizing st) (resizeHandle st)
             (Some (Box.mk (x pos) (y pos) 0 0)) pos (dragStartPos st)
             (dragStartSelection st) (scaleFactor st) (bounds st)
             (hasObjects st) (mask st))
    end.

(** A box lies within the bounds [[0, w] x [0, h]] and has non-negative
    width and height. *)
Definition inBounds (bounds b : Box.t) : Prop :=
  0 <= Box.x b /\ 0 <= Box.y b /\ 0 <= Box.w b /\ 0 <= Box.h b
  /\ Box.x b + Box.w b <= Box.w bounds /\ Box.y b + Box.h b <= Box.h bounds.

(** The pointer events of the capture window, fabric variant, as far as
    they reach the selection handlers. *)
Inductive Event :=
| MouseDown (onToolbar onUpperCanvas : bool) (clientX clientY : R)
| MouseMove (clientX clientY : R)
| MouseUp.

Definition step_fabric (e : Event) (st : State) : State :=
  match e with
  | MouseDown onToolbar onUpperCanvas clientX clientY =>
      handleMouseDown_fabric onToolbar onUpperCanvas clientX clientY st
  | MouseMove clientX clientY => handleMouseMove clientX clientY st
  | MouseUp => handleMouseUp_fabric st
  end.

End Selection.

(** ** The capture window: bounds, hit testing and the toolbar *)

Module CaptureResult.
(** A captured screen, as far as the window reads it. *)
Record t := mk { x : R; y : R; width : R; height : R }.
End CaptureResult.

Module Capture.
Local Open Scope R_scope.

(** [bounds] of the plain-canvas variant: the window itself without
    captures, otherwise the box from the least left and top edge to the
    greatest right and bottom edge of the captures.  The running minima
    and maxima start at the infinities, so the first capture sets them. *)
Definition bounds (captures : list CaptureResult.t) (innerWidth innerHeight : R)
    : Box.t :=
  match captures with
  | [] => Box.mk 0 0 innerWidth innerHeight
  | c0 :: rest =>
      let '(minX, minY, maxX, maxY) :=
        foldl
          (fun '(minX, minY, maxX, maxY) c =>
             (Rmin minX (CaptureResult.x c),
              Rmin minY (CaptureResult.y c),
              Rmax maxX (CaptureResult.x c + CaptureResult.width c),
              Rmax maxY (CaptureResult.y c + CaptureResult.height c)))
          (CaptureResult.x c0, CaptureResult.y c0,
           CaptureResult.x c0 + CaptureResult.width c0,
           CaptureResult.y c0 + CaptureResult.height c0)
          rest in
      Box.mk minX minY (maxX - minX) (maxY - minY)
  end.

(** The shapes of the plain-canvas variant (DrawingShape). *)
Inductive DrawingShape :=
| RectShape (id : string) (x y w h : R)
| EllipseShape (id : string) (x y w h : R)
| ArrowShape (id : string) (x1 y1 x2 y2 : R)
| PenShape (id : string) (points : list Point2D).

(** pointToLineDistance: the distance from (px, py) to the point of the
    segment from (x1, y1) to (x2, y2) at the projection parameter, held in
    [[0, 1]]; a segment of length zero takes its first end. *)
Definition pointToLineDistance (px py x1 y1 x2 y2 : R) : R :=
  let A := px - x1 in
  let B := py - y1 in
  let C := x2 - x1 in
  let D := y2 - y1 in
  let dot := A * C + B * D in
  let lenSq := C * C + D * D in
  let param := if Req_dec_T lenSq 0 then -1 else dot / lenSq in
  let '(xx, yy) :=
    if Num.ltb param 0 then (x1, y1)
    else if Num.ltb 1 param then (x2, y2)
    else (x1 + param * C, y1 + param * D) in
  let dx := px - xx in
  let dy := py - yy in
  sqrt (dx * dx + dy * dy).

(** The pairs of consecutive points of a stroke. *)
Definition segments (points : list Point2D) : list (Point2D * Point2D) :=
  zip points (tail points).

(** isPointInShape, with its threshold of 10 pixels.  (For an ellipse of
    zero width or height JavaScript divides by zero; that case is outside
    the number model.) *)
Definition isPointInShape (px py : R) (shape : DrawingShape) : bool :=
  let threshold := 10 in
  match shape with
  | RectShape _ sx sy w h =>
      Num.leb (sx - threshold) px && Num.leb px (sx + w + threshold)
      && Num.leb (sy - threshold) py && Num.leb py (sy + h + threshold)
  | EllipseShape _ sx sy w h =>
      let cx := sx + w / 2 in
      let cy := sy + h / 2 in
      let rx := Rabs (w / 2) in
      let ry := Rabs (h / 2) in
      let dx := px - cx in
      let dy := py - cy in
      Num.leb ((dx * dx) / (rx * rx) + (dy * dy) / (ry * ry))
        (1 + threshold / Rmin rx ry)
  | ArrowShape _ x1 y1 x2 y2 =>
      Num.ltb (pointToLineDistance px py x1 y1 x2 y2) threshold
  | PenShape _ points =>
      existsb
        (fun '(a, b) =>
           Num.ltb (pointToLineDistance px py (x a) (y a) (x b) (y b))
             threshold)
        (segments points)
  end.

(** getShapeAtPoint: the shapes are searched from the last drawn down. *)
Definition getShapeAtPoint (shapes : list DrawingShape) (px py : R)
    : option DrawingShape :=
  List.find (isPointInShape px py) (rev shapes).

(** toolbarStyle: where the toolbar goes, in logical pixels; [None] is
    [display: none].  [toolbarWidth] is 340 in the plain-canvas variant and
    520 in the fabric variant. *)
Definition toolbarStyle (toolbarWidth : R) (selection : option Box.t)
    (scaleFactor : Point2D) (innerWidth innerHeight : R) : option (R * R) :=
  match selection with
  | None => None
  | Some sel =>
      let logicalX := Box.x sel / x scaleFactor in
      let logicalY := Box.y sel / y scaleFactor in
      let logicalW := Box.w sel / x scaleFactor in
      let logicalH := Box.h sel / y scaleFactor in
      let toolbarHeight := 40 in
      let margin := 8 in
      let left := logicalX + logicalW - toolbarWidth in
      let left := if Num.ltb left margin then logicalX else left in
      let left := if Num.ltb left margin then margin else left in
      let left :=
        if Num.ltb (innerWidth - margin) (left + toolbarWidth)
        then innerWidth - toolbarWidth - margin
        else left in
      let spaceBelow := innerHeight - (logicalY + logicalH) in
      let spaceAbove := logicalY in
      let top :=
        if Num.leb (toolbarHeight + margin * 2) spaceBelow
        then logicalY + logicalH + margin
        else if Num.leb (toolbarHeight + margin * 2) spaceAbove
        then logicalY - toolbarHeight - margin
        else logicalY + logicalH - toolbarHeight - margin in
      let top := Rmax margin (Rmin (innerHeight - toolbarHeight - margin) top) in
      Some (left, top)
  end.

End Capture.

(** ** Merging the updater manifests (scripts/merge-latest-json.mjs) *)

Module Manifest.
(** What the script reads of a parsed [latest-*.json]: three fields copied
    as they are ([None] for a field that is missing), and the properties of
    [platforms] ([None] when it is missing or falsy). *)
Record t {JSON : Type} := mk {
  version : option JSON;
  notes : option JSON;
  pub_date : option JSON;
  platforms : option (gmap string JSON);
}.
Arguments t : clear implicits.
Arguments mk {JSON}.
End Manifest.

Module Merged.
(** The object the script writes. *)
Record t {JSON : Type} := mk {
  version : option JSON;
  notes : option JSON;
  pub_date : option JSON;
  platforms : gmap string JSON;
}.
Arguments t : clear implicits.
Arguments mk {JSON}.
End Merged.

Module MergeLatest.

Section Merge.
Context {JSON : Type}.

(** A file of the input directory: its name, and what reading and parsing
    it gives ([None] when that throws). *)
Definition File : Type := string * option (Manifest.t JSON).

(** What the script does: write the merged object, or exit with a code. *)
Inductive Outcome :=
| Written (merged : Merged.t JSON)
| Exit (code : Z).

Definition startsWith (s prefix : string) : bool := String.prefix prefix s.

Definition endsWith (s suffix : string) : bool :=
  (String.length suffix <=? String.length s)%nat
  && String.eqb
       (String.substring (String.length s - String.length suffix)
          (String.length suffix) s)
       suffix.

(** The body of [files.forEach]: a file that cannot be read is skipped;
    the first file that can be read gives the metadata; the platforms of
    every such file are assigned over those merged so far. *)
Definition mergeFile (merged : option (Merged.t JSON)) (file : File)
    : option (Merged.t JSON) :=
  match file.2 with
  | None => merged
  | Some content =>
      let merged :=
        match merged with
        | Some merged => merged
        | None =>
            Merged.mk (Manifest.version content) (Manifest.notes content)
              (Manifest.pub_date content) ∅
        end in
      match Manifest.platforms content with
      | Some platforms =>
          Some (Merged.mk (Merged.version merged) (Merged.notes merged)
                  (Merged.pub_date merged)
                  (platforms ∪ Merged.platforms merged))
      | None => Some merged
      end
  end.

(** The script.  [inputDir] is the listing of the input directory,
    [None] if the directory does not exist. *)
Definition mergeLatest (inputDir : option (list File)) : Outcome :=
  match inputDir with
  | None => Exit 1
  | Some entries =>
      let files :=
        filter
          (fun f : File =>
             endsWith f.1 ".json" && startsWith f.1 "latest-" = true)
          entries in
      match foldl mergeFile None files with
      | Some merged => Written merged
      | None => Exit 1
      end
  end.

End Merge.

End MergeLatest.

(** ** Search highlighting (components/HighlightText.vue) *)

Module HighlightText.

(** The regular-expression engine of the host, as far as the component
    uses it: the constructor, which throws on an invalid pattern ([None]),
    and [String.prototype.split] with a regular expression, which splices
    the captures of every group into its result: the text of a group that
    took part in the match, [undefined] ([None]) for one that did not. *)
Class RegExpEngine := {
  RegExp : Type;
  newRegExp : string -> string -> option RegExp;
  split : string -> RegExp -> list (option string);
}.

Record Part := mkPart { text : string; highlight : bool }.

(** The characters of the class [[.*+?^${}()|[\]\\]]. *)
Definition isSpecial (c : Ascii.ascii) : bool :=
  bool_decide (c ∈ String.list_ascii_of_string ".*+?^${}()|[]\").

(** [query.replace(/[.*+?^${}()|[\]\\]/g, "\\$&")]: a backslash before
    every special character. *)
Fixpoint escape (s : string) : string :=
  match s with
  | EmptyString => EmptyString
  | String c rest =>
      if isSpecial c then String "\"%char (String c (escape rest))
      else String c (escape rest)
  end.

Definition pattern (isRegex : bool) (query : string) : string :=
  if isRegex then "(" +:+ query +:+ ")" else "(" +:+ escape query +:+ ")".

Definition flags (isCaseSensitive : bool) : string :=
  if isCaseSensitive then "g" else "gi".

(** The pieces of a split, if none of them is [undefined]. *)
Fixpoint defined (pieces : list (option string)) : option (list string) :=
  match pieces with
  | [] => Some []
  | None :: _ => None
  | Some piece :: rest => cons piece <$> defined rest
  end.

(** The computed property [parts]: the whole text, unhighlighted, for an
    empty query or when the [try] block throws; otherwise the pieces of the
    split, the odd ones (the matches) highlighted, empty pieces dropped.
    The [try] block throws when the constructor rejects the pattern, and
    when a piece of the split is [undefined]: reading its [length] throws,
    in the callback of [map] for a piece at an odd index and in that of
    [filter] for one at an even index. *)
Definition parts `{RegExpEngine} (txt query : string)
    (isRegex isCaseSensitive : bool) : list Part :=
  if decide (query = "") then [mkPart txt false]
  else
    match newRegExp (pattern isRegex query) (flags isCaseSensitive) with
    | None => [mkPart txt false]
    | Some regex =>
        match defined (split txt regex) with
        | None => [mkPart txt false]
        | Some pieces =>
            filter (fun p => (0 < String.length (text p))%nat)
              (imap (fun index part =>
                       mkPart part
                         ((index mod 2 =? 1)%nat
                          && (0 <? String.length part)%nat))
                 pieces)
        end
    end.

End HighlightText.

(** * Properties *)

(** ** Numbers *)

Module NumFacts.
Local Open Scope R_scope.

Lemma ltb_lt a b : Num.ltb a b = true <-> a < b.
Proof. unfold Num.ltb. destruct (Rlt_dec a b); split; (done || congruence). Qed.

Lemma ltb_ge a b : Num.ltb a b = false <-> b <= a.
Proof.
  unfold Num.ltb. destruct (Rlt_dec a b); split; try done; try lra.
Qed.

Lemma leb_le a b : Num.leb a b = true <-> a <= b.
Proof. unfold Num.leb. destruct (Rle_dec a b); split; (done || congruence). Qed.

Lemma leb_gt a b : Num.leb a b = false <-> b < a.
Proof.
  unfold Num.leb. destruct (Rle_dec a b); split; try done; try lra.
Qed.

End NumFacts.

(** Case analysis on every comparison of numbers in sight. *)
Ltac num_cases :=
  repeat match goal with
  | |- context [Num.ltb ?a ?b] =>
      let E := fresh "E" in
      destruct (Num.ltb a b) eqn:E;
      [apply NumFacts.ltb_lt in E | apply NumFacts.ltb_ge in E]
  | |- context [Num.leb ?a ?b] =>
      let E := fresh "E" in
      destruct (Num.leb a b) eqn:E;
      [apply NumFacts.leb_le in E | apply NumFacts.leb_gt in E]
  | H : context [Num.ltb ?a ?b] |- _ =>
      let E := fresh "E" in
      destruct (Num.ltb a b) eqn:E;
      [apply NumFacts.ltb_lt in E | apply NumFacts.ltb_ge in E]
  | H : context [Num.leb ?a ?b] |- _ =>
      let E := fresh "E" in
      destruct (Num.leb a b) eqn:E;
      [apply NumFacts.leb_le in E | apply NumFacts.leb_gt in E]
  end.

(** Case analysis on every absolute value, minimum and maximum in sight. *)
Ltac real_cases :=
  unfold Rabs, Rmin, Rmax in *;
  repeat match goal with
  | |- context [Rcase_abs ?a] => destruct (Rcase_abs a)
  | |- context [Rle_dec ?a ?b] => destruct (Rle_dec a b)
  | H : context [Rcase_abs ?a] |- _ => destruct (Rcase_abs a)
  | H : context [Rle_dec ?a ?b] |- _ => destruct (Rle_dec a b)
  end.


(** ** Shape handlers *)

Module ShapesSpec.
Import Shapes.
Local Open Scope R_scope.

Section WithLayout.
Context `{FabricLayout}.

Lemma getHandler_rect : getHandler ShapeRegistry rect = Some RectHandler.
Proof. reflexivity. Qed.
Lemma getHandler_ellipse : getHandler ShapeRegistry ellipse = Some EllipseHandler.
Proof. reflexivity. Qed.
Lemma getHandler_arrow : getHandler ShapeRegistry arrow = Some ArrowHandler.
Proof. reflexivity. Qed.
Lemma getHandler_pen : getHandler ShapeRegistry pen = Some PenHandler.
Proof. reflexivity. Qed.
Lemma getHandler_text : getHandler ShapeRegistry text = Some TextHandler.
Proof. reflexivity. Qed.

(** Every registered handler sits under its own tag. *)
Lemma getHandler_type t h : getHandler ShapeRegistry t = Some h -> type h = t.
Proof. destruct t; intros [= <-]; reflexivity. Qed.

(** The rejection rule in the words of the specification: rect and ellipse
    reject below a 2-pixel extent on either axis, arrow below 5 pixels on
    both, pen with fewer than 2 accumulated points, text never. *)
Definition specRejects (t : ShapeType) (start current : Point2D)
    (points : option (list Point2D)) : Prop :=
  match t with
  | rect | ellipse =>
      Rabs (x current - x start) < 2 \/ Rabs (y current - y start) < 2
  | arrow => Rabs (x current - x start) < 5 /\ Rabs (y current - y start) < 5
  | pen => (length (default [] points) < 2)%nat
  | text => False
  end.

(** The rule the handlers implement: the ellipse compares its radii, half
    the extents, with 2, and the pen only counts a list it was given. *)
Definition rejects (t : ShapeType) (start current : Point2D)
    (points : option (list Point2D)) : Prop :=
  match t with
  | rect => Rabs (x current - x start) < 2 \/ Rabs (y current - y start) < 2
  | ellipse => Rabs (x current - x start) < 4 \/ Rabs (y current - y start) < 4
  | arrow => Rabs (x current - x start) < 5 /\ Rabs (y current - y start) < 5
  | pen => exists l, points = Some l /\ (length l < 2)%nat
  | text => False
  end.

(** C1 (as amended): for every shape type and every drag gesture the
    dispatched createData returns null exactly when [rejects] holds: rect
    when either extent is below 2, ellipse when either radius is below 2
    (either extent below 4), arrow when both extents are below 5, pen when
    it was given a list of fewer than 2 points, text never; and the text
    datum is the empty placeholder anchored at the start point. *)
Theorem createData_rejection t start current points :
  (dispatchCreateData t start current points = None
   <-> rejects t start current points)
  /\ dispatchCreateData text start current points
     = Some (TextShapeData (x start) (y start) "" 20 None None).
Proof.
  split; [|reflexivity].
  unfold dispatchCreateData.
  destruct t;
    rewrite ?getHandler_rect, ?getHandler_ellipse, ?getHandler_arrow,
      ?getHandler_pen, ?getHandler_text; cbn.
  - num_cases; cbn; (split; intros Hr; [try done; (left; lra) || (right; lra) | try done; destruct Hr; lra]).
  - num_cases; cbn; (split; intros Hr; [try done; (left; lra) || (right; lra) | try done; destruct Hr; lra]).
  - num_cases; cbn; (split; intros Hr; [try done; split; lra | try done; destruct Hr; lra]).
  - destruct points as [l|]; cbn.
    + destruct (length l <=? 1)%nat eqn:E.
      * apply Nat.leb_le in E. split; [intros _; exists l; split; [done|lia]|done].
      * apply Nat.leb_gt in E. split; [done|]. intros (l' & [= <-] & ?). lia.
    + split; [done|]. intros (l' & [=] & _).
  - split; [done|intros []].
Qed.

End WithLayout.

(** Squared distance between two points. *)
Definition dist2 (p q : Point2D) : R := (x p - x q) ^ 2 + (y p - y q) ^ 2.

Lemma unit_vector a : cos a ^ 2 + sin a ^ 2 = 1.
Proof. pose proof (sin2_cos2 a) as E. unfold Rsqr in E. lra. Qed.

Lemma dist2_offset px py r a :
  dist2 (mkPoint2D (px + r * cos a) (py + r * sin a)) (mkPoint2D px py) = r ^ 2.
Proof.
  unfold dist2; cbn [x y]. pose proof (unit_vector a) as E.
  replace ((px + r * cos a - px) ^ 2 + (py + r * sin a - py) ^ 2)
    with (r ^ 2 * (cos a ^ 2 + sin a ^ 2)) by ring.
  rewrite E. ring.
Qed.

Lemma arrow_scale_pos x1 y1 x2 y2 width :
  1 / 2 <= scale (arrowGeometry x1 y1 x2 y2 width).
Proof. cbn. apply Rmax_l. Qed.

(** C6: for all endpoints and every stroke width, the head length of the
    arrow polygon is the minimum of 30 times the width-derived scale factor
    and 40% of the segment length, so it never exceeds 40% of the segment;
    the head half-width is 5 times the shaft half-width; and the outline is
    one closed path of exactly 7 vertices, in the order tail corner, neck
    corner, head outer corner, tip, head outer corner, neck corner, tail
    corner.  The named lengths are the distances in the polygon: the neck
    lies [headLength] behind the tip, the neck and tail corners lie
    [shaftWidth] off the axis and the head corners [headWidth]. *)
Theorem buildArrowPathData_geometry x1 y1 x2 y2 width :
  let g := arrowGeometry x1 y1 x2 y2 width in
  let tip := mkPoint2D x2 y2 in
  (scale g = Rmax (1 / 2) (default 3 width / 3)
   /\ segmentLength g = sqrt ((x2 - x1) ^ 2 + (y2 - y1) ^ 2)
   /\ headLength g = Rmin (30 * scale g) (segmentLength g * (4 / 10))
   /\ headLength g <= segmentLength g * (4 / 10))
  /\ (0 < shaftWidth g /\ headWidth g = 5 * shaftWidth g)
  /\ (buildArrowPathData x1 y1 x2 y2 width
      = [PathM (x (tail1 g)) (y (tail1 g)); PathL (x (neck1 g)) (y (neck1 g));
         PathL (x (head1 g)) (y (head1 g)); PathL x2 y2;
         PathL (x (head2 g)) (y (head2 g)); PathL (x (neck2 g)) (y (neck2 g));
         PathL (x (tail2 g)) (y (tail2 g)); PathZ]
      /\ vertices (buildArrowPathData x1 y1 x2 y2 width)
         = [tail1 g; neck1 g; head1 g; tip; head2 g; neck2 g; tail2 g]
      /\ length (vertices (buildArrowPathData x1 y1 x2 y2 width)) = 7%nat)
  /\ (dist2 tip (neck g) = headLength g ^ 2
      /\ dist2 (tail1 g) (mkPoint2D x1 y1) = shaftWidth g ^ 2
      /\ dist2 (tail2 g) (mkPoint2D x1 y1) = shaftWidth g ^ 2
      /\ dist2 (neck1 g) (neck g) = shaftWidth g ^ 2
      /\ dist2 (neck2 g) (neck g) = shaftWidth g ^ 2
      /\ dist2 (head1 g) (neck g) = headWidth g ^ 2
      /\ dist2 (head2 g) (neck g) = headWidth g ^ 2).
Proof.
  intros g tip.
  pose proof (arrow_scale_pos x1 y1 x2 y2 width) as Hs. fold g in Hs.
  assert (Hsw : shaftWidth g = 2 * scale g) by reflexivity.
  assert (Hhw : headWidth g = 10 * scale g) by reflexivity.
  split; [|split; [|split]].
  - repeat split. apply Rmin_r.
  - split; lra.
  - repeat split.
  - set (a := angle g). set (b := a + PI / 2).
    assert (Hneg : forall px py r c,
      dist2 (mkPoint2D (px - r * cos c) (py - r * sin c)) (mkPoint2D px py)
      = r ^ 2).
    { intros px py r c.
      replace (px - r * cos c) with (px + (- r) * cos c) by ring.
      replace (py - r * sin c) with (py + (- r) * sin c) by ring.
      rewrite dist2_offset. ring. }
    assert (Hsym : forall p q, dist2 p q = dist2 q p).
    { intros p q. unfold dist2. ring. }
    repeat split.
    + rewrite Hsym. apply (Hneg x2 y2 (headLength g) a).
    + apply (dist2_offset x1 y1 (shaftWidth g) b).
    + apply (Hneg x1 y1 (shaftWidth g) b).
    + apply (dist2_offset (x (neck g)) (y (neck g)) (shaftWidth g) b).
    + apply (Hneg (x (neck g)) (y (neck g)) (shaftWidth g) b).
    + apply (dist2_offset (x (neck g)) (y (neck g)) (headWidth g) b).
    + apply (Hneg (x (neck g)) (y (neck g)) (headWidth g) b).
Qed.

(** A layout to evaluate the handlers at concrete gestures. *)
Definition originLayout : FabricLayout :=
  {| pathOrigin := fun _ _ => mkPoint2D 0 0; scaledSize := fun _ _ => (0, 0) |}.

(** C1 (as stated) fails: a drag from (0,0) to (3,3) has extents of 3
    pixels, not below 2, yet the ellipse handler rejects it (its radii are
    1.5); and the pen handler, given no accumulated list at all, accepts the
    two-point stroke from start to current. *)
Lemma createData_rejection_counterexample :
  ~ (@dispatchCreateData originLayout ellipse (mkPoint2D 0 0) (mkPoint2D 3 3) None = None
     <-> specRejects ellipse (mkPoint2D 0 0) (mkPoint2D 3 3) None)
  /\ ~ (@dispatchCreateData originLayout pen (mkPoint2D 0 0) (mkPoint2D 3 3) None = None
        <-> specRejects pen (mkPoint2D 0 0) (mkPoint2D 3 3) None).
Proof.
  split.
  - intros [Hrej _]. unfold dispatchCreateData in Hrej.
    rewrite getHandler_ellipse in Hrej. cbn in Hrej.
    assert (E : Num.ltb (Rabs (3 - 0) / 2) 2 = true).
    { apply NumFacts.ltb_lt. real_cases; lra. }
    rewrite E in Hrej. cbn in Hrej. specialize (Hrej eq_refl).
    real_cases; lra.
  - intros [_ Hacc]. unfold dispatchCreateData in Hacc.
    rewrite getHandler_pen in Hacc. cbn in Hacc. discriminate Hacc. lia.
Qed.

End ShapesSpec.

(** ** Binary64 addition *)

Module Binary64Facts.
Import Binary64.
Local Open Scope R_scope.

Lemma pow2_pos e : 0 < powerRZ 2 e.
Proof. apply powerRZ_lt. lra. Qed.

Lemma IZR_pow2 k : (0 <= k)%Z -> IZR (2 ^ k) = powerRZ 2 k.
Proof.
  intros Hk. rewrite <- (Z2Nat.id k) by done.
  rewrite <- pow_IZR, <- pow_powerRZ. reflexivity.
Qed.

Lemma value_IZR m e : (0 <= e)%Z -> value m e = IZR (m * 2 ^ e).
Proof. intros He. unfold value. by rewrite mult_IZR, IZR_pow2. Qed.

Lemma value_opp m e : value (- m) e = - value m e.
Proof. unfold value. rewrite opp_IZR. ring. Qed.

Lemma canonical_opp m e : canonical m e -> canonical (- m) e.
Proof. unfold canonical. by rewrite Z.abs_opp. Qed.

Lemma finite_opp r : finite r -> finite (- r).
Proof.
  intros (m & e & Hc & ->). exists (- m)%Z, e.
  split; [by apply canonical_opp|]. by rewrite value_opp.
Qed.

Lemma canonical_0 : canonical 0 (-1074).
Proof. right. split; [done|done]. Qed.

Lemma finite_0 : finite 0.
Proof. exists 0%Z, (-1074)%Z. split; [apply canonical_0|]. unfold value. lra. Qed.

(** The unit in the last place of the subnormal numbers. *)
Definition tiny : R := powerRZ 2 (-1074).

(** A finite number as a multiple of [tiny]. *)
Definition scaled (m e : Z) : Z := (m * 2 ^ (e + 1074))%Z.

Lemma value_scaled m e :
  (-1074 <= e)%Z -> value m e = IZR (scaled m e) * tiny.
Proof.
  intros He. unfold value, scaled, tiny.
  rewrite mult_IZR, IZR_pow2 by lia. rewrite Rmult_assoc.
  rewrite <- powerRZ_add by (intros H; lra). do 2 f_equal. lia.
Qed.

Lemma canonical_exponent m e : canonical m e -> (-1074 <= e <= 971)%Z.
Proof. intros [[_ ?]|[_ ->]]; lia. Qed.

Lemma canonical_significand m e : canonical m e -> (Z.abs m < 2 ^ 53)%Z.
Proof. intros [[? _]|[? _]]; lia. Qed.

Definition grid (n : Z) : Prop := exists m e, canonical m e /\ n = scaled m e.

Lemma finite_grid z : finite z <-> exists n, grid n /\ z = IZR n * tiny.
Proof.
  split.
  - intros (m & e & Hc & ->). exists (scaled m e). split.
    + exists m, e. by split.
    + apply value_scaled. apply canonical_exponent in Hc; lia.
  - intros (n & (m & e & Hc & ->) & ->). exists m, e. split; [done|].
    symmetry. apply value_scaled. apply canonical_exponent in Hc; lia.
Qed.

Lemma tiny_pos : 0 < tiny.
Proof. apply pow2_pos. Qed.

Lemma grid_0 : grid 0.
Proof. exists 0%Z, (-1074)%Z. split; [apply canonical_0|done]. Qed.

Lemma grid_opp n : grid n -> grid (- n).
Proof.
  intros (m & e & Hc & ->). exists (- m)%Z, e.
  split; [by apply canonical_opp|]. unfold scaled. lia.
Qed.

(** The greatest multiple. *)
Definition top : Z := ((2 ^ 53 - 1) * 2 ^ 2045)%Z.

Lemma pow2_gt0 k : (0 <= k)%Z -> (0 < 2 ^ k)%Z.
Proof. intros. by apply Z.pow_pos_nonneg. Qed.

Lemma grid_range n : grid n -> (- top <= n <= top)%Z.
Proof.
  intros (m & e & Hc & ->). unfold scaled, top.
  pose proof (canonical_exponent m e Hc) as He.
  pose proof (canonical_significand m e Hc) as Hm.
  assert (Hp : (0 < 2 ^ (e + 1074) <= 2 ^ 2045)%Z).
  { split; [apply pow2_gt0; lia|]. apply Z.pow_le_mono_r; lia. }
  set (p := (2 ^ (e + 1074))%Z) in *. set (q := (2 ^ 2045)%Z) in *.
  assert (Hm' : (- (2 ^ 53 - 1) <= m <= 2 ^ 53 - 1)%Z) by lia.
  clearbody p q. nia.
Qed.


(** *** Every real has a nearest finite number *)

Lemma least_on_range (P : Z -> Prop) (f : Z -> R) (n : nat) (a : Z) :
  (exists k, (a <= k <= a + Z.of_nat n)%Z /\ P k) ->
  exists k, (a <= k <= a + Z.of_nat n)%Z /\ P k
            /\ forall j, (a <= j <= a + Z.of_nat n)%Z -> P j -> f k <= f j.
Proof.
  induction n as [|n IH].
  - intros (k & Hk & HP). assert (k = a) as -> by lia.
    exists a. split; [lia|]. split; [done|].
    intros j Hj _. assert (j = a) as -> by lia. lra.
  - intros (k & Hk & HP).
    destruct (classic (exists k, (a <= k <= a + Z.of_nat n)%Z /\ P k))
      as [Hlow|Hlow].
    + destruct (IH Hlow) as (k0 & Hk0 & HP0 & Hmin).
      destruct (classic (P (a + Z.of_nat (S n))%Z)) as [Htop|Htop].
      * destruct (Rle_dec (f k0) (f (a + Z.of_nat (S n))%Z)) as [Hle|Hgt].
        -- exists k0. split; [lia|]. split; [done|]. intros j Hj HPj.
           destruct (decide (j = a + Z.of_nat (S n))%Z) as [->|Hne]; [done|].
           apply Hmin; [lia|done].
        -- exists (a + Z.of_nat (S n))%Z. split; [lia|]. split; [done|].
           intros j Hj HPj.
           destruct (decide (j = a + Z.of_nat (S n))%Z) as [->|Hne]; [lra|].
           transitivity (f k0); [lra|]. apply Hmin; [lia|done].
      * exists k0. split; [lia|]. split; [done|]. intros j Hj HPj.
        destruct (decide (j = a + Z.of_nat (S n))%Z) as [->|Hne]; [done|].
        apply Hmin; [lia|done].
    + assert (k = a + Z.of_nat (S n))%Z as ->.
      { destruct (decide (k = a + Z.of_nat (S n))%Z) as [|Hne]; [done|].
        exfalso. apply Hlow. exists k. split; [lia|done]. }
      exists (a + Z.of_nat (S n))%Z. split; [lia|]. split; [done|].
      intros j Hj HPj.
      destruct (decide (j = a + Z.of_nat (S n))%Z) as [->|Hne]; [lra|].
      exfalso. apply Hlow. exists j. split; [lia|done].
Qed.

Lemma top_pos : (0 <= top)%Z.
Proof. unfold top. apply Z.mul_nonneg_nonneg; [done|]. apply Z.pow_nonneg. done. Qed.

Lemma nearest_total r : exists z, nearest r z.
Proof.
  destruct (least_on_range grid (fun n => Rabs (IZR n * tiny - r))
              (Z.to_nat (2 * top)) (- top)) as (k & Hk & Hgrid & Hmin).
  { exists 0%Z. pose proof top_pos. split; [lia|apply grid_0]. }
  exists (IZR k * tiny). split.
  - apply finite_grid. by exists k.
  - intros g Hg. apply finite_grid in Hg as (j & Hj & ->).
    apply Hmin; [|done]. pose proof (grid_range j Hj). pose proof top_pos. lia.
Qed.

(** *** Neighbours on the grid *)

Lemma scaled_nonneg m e : (-1074 <= e)%Z -> (0 <= scaled m e)%Z -> (0 <= m)%Z.
Proof.
  intros He Hn. unfold scaled in Hn.
  pose proof (pow2_gt0 (e + 1074) ltac:(lia)).
  set (p := (2 ^ (e + 1074))%Z) in *. clearbody p. nia.
Qed.

(** The next multiple of the own unit above a non-negative finite number
    is on the grid, unless the number is the greatest. *)
Lemma successor_grid m e :
  canonical m e -> (0 <= m)%Z -> (scaled m e < top)%Z ->
  exists m' e',
    canonical m' e' /\ scaled m' e' = ((m + 1) * 2 ^ (e + 1074))%Z
    /\ (Z.even m = false -> Z.even m' = true).
Proof.
  intros Hc Hm Htop.
  pose proof (canonical_exponent m e Hc) as He.
  pose proof (canonical_significand m e Hc) as Hs.
  destruct (decide (m + 1 < 2 ^ 53)%Z) as [Hlt|Hge].
  - exists (m + 1)%Z, e. split; [|split; [done|]].
    + destruct Hc as [[Hn _]|[Hsub ->]].
      * left. split; lia.
      * destruct (decide (m + 1 < 2 ^ 52)%Z); [right|left]; split; lia.
    + intros Hodd. replace (m + 1)%Z with (Z.succ m) by lia.
      rewrite Z.even_succ. rewrite <- Z.negb_even. by rewrite Hodd.
  - assert (Hm53 : (m = 2 ^ 53 - 1)%Z) by lia.
    assert (He' : (e < 971)%Z).
    { destruct (decide (e < 971)%Z) as [|Hn]; [done|]. exfalso.
      assert (e = 971%Z) as -> by lia. subst m. unfold scaled, top in Htop.
      replace (971 + 1074)%Z with 2045%Z in Htop by lia. lia. }
    exists (2 ^ 52)%Z, (e + 1)%Z. split; [|split; [|done]].
    + left. split; [done|lia].
    + unfold scaled. replace (e + 1 + 1074)%Z with (Z.succ (e + 1074)) by lia.
      rewrite Z.pow_succ_r by lia. subst m. ring.
Qed.

(** No finite number lies strictly between a non-negative finite number
    and the next multiple of its unit. *)
Lemma nothing_between m e n :
  canonical m e -> (0 <= m)%Z -> grid n -> (scaled m e < n)%Z ->
  ((m + 1) * 2 ^ (e + 1074) <= n)%Z.
Proof.
  intros Hc Hm (m1 & e1 & Hc1 & ->) Hlt. unfold scaled in *.
  pose proof (canonical_exponent m e Hc) as He.
  pose proof (canonical_exponent m1 e1 Hc1) as He1.
  pose proof (canonical_significand m1 e1 Hc1) as Hs1.
  destruct (decide (e <= e1)%Z) as [Hle|Hgt].
  - assert (E : (2 ^ (e1 + 1074) = 2 ^ (e1 - e) * 2 ^ (e + 1074))%Z).
    { rewrite <- Z.pow_add_r by lia. f_equal. lia. }
    rewrite E in *. clear E.
    pose proof (pow2_gt0 (e + 1074) ltac:(lia)) as Hp.
    pose proof (pow2_gt0 (e1 - e) ltac:(lia)) as Hq.
    set (p := (2 ^ (e + 1074))%Z) in *. set (q := (2 ^ (e1 - e))%Z) in *.
    clearbody p q.
    assert (H1 : (m < m1 * q)%Z).
    { destruct (decide (m < m1 * q)%Z) as [|Hn]; [done|]. exfalso.
      assert (m1 * q * p <= m * p)%Z by (apply Z.mul_le_mono_nonneg_r; lia).
      lia. }
    assert ((m + 1) * p <= m1 * q * p)%Z by (apply Z.mul_le_mono_nonneg_r; lia).
    lia.
  - exfalso.
    assert (Hn : (2 ^ 52 <= m)%Z).
    { destruct Hc as [[? _]|[_ ->]]; lia. }
    assert (E : (2 ^ (e + 1074) = 2 ^ (e - e1 - 1) * (2 * 2 ^ (e1 + 1074)))%Z).
    { rewrite <- Z.pow_succ_r, <- Z.pow_add_r by lia. f_equal. lia. }
    rewrite E in *. clear E.
    pose proof (pow2_gt0 (e1 + 1074) ltac:(lia)) as Hp.
    pose proof (pow2_gt0 (e - e1 - 1) ltac:(lia)) as Hq.
    set (p := (2 ^ (e1 + 1074))%Z) in *. set (q := (2 ^ (e - e1 - 1))%Z) in *.
    clearbody p q.
    assert (H1 : (m1 * p < 2 ^ 53 * p)%Z).
    { apply Z.mul_lt_mono_pos_r; lia. }
    assert (H2 : (2 ^ 52 * 1 <= m * q)%Z).
    { apply Z.mul_le_mono_nonneg; lia. }
    assert (H3 : (2 ^ 52 * 1 * (2 * p) <= m * q * (2 * p))%Z).
    { apply Z.mul_le_mono_nonneg_r; lia. }
    lia.
Qed.

Definition evenGrid (n : Z) : Prop :=
  exists m e, canonical m e /\ n = scaled m e /\ Z.even m = true.

Lemma evenGrid_opp n : evenGrid n -> evenGrid (- n).
Proof.
  intros (m & e & Hc & -> & Hev). exists (- m)%Z, e.
  split; [by apply canonical_opp|]. split; [unfold scaled; lia|].
  by rewrite Z.even_opp.
Qed.

(** Of two neighbours on the grid, one has an even significand. *)
Lemma neighbours_nonneg n0 n1 :
  grid n0 -> grid n1 -> (0 <= n0 < n1)%Z ->
  (forall n, grid n -> ~ (n0 < n < n1)%Z) ->
  evenGrid n0 \/ evenGrid n1.
Proof.
  intros (m & e & Hc & ->) Hg1 [H0 Hlt] Hnone.
  pose proof (canonical_exponent m e Hc) as He.
  pose proof (scaled_nonneg m e ltac:(lia) H0) as Hm.
  destruct (Z.even m) eqn:Hev.
  - left. by exists m, e.
  - right.
    pose proof (nothing_between m e n1 Hc Hm Hg1 Hlt) as Hnext.
    pose proof (grid_range n1 Hg1) as Hr.
    destruct (successor_grid m e Hc Hm ltac:(lia)) as (m' & e' & Hc' & Hs & Heven).
    assert (Hn1 : n1 = scaled m' e').
    { destruct (decide (n1 = scaled m' e')) as [|Hne]; [done|]. exfalso.
      apply (Hnone (scaled m' e')); [by exists m', e'|].
      rewrite Hs. unfold scaled in *.
      pose proof (pow2_gt0 (e + 1074) ltac:(lia)) as Hp.
      set (p := (2 ^ (e + 1074))%Z) in *. clearbody p. nia. }
    exists m', e'. split; [done|]. split; [done|]. by apply Heven.
Qed.

Lemma neighbours n0 n1 :
  grid n0 -> grid n1 -> (n0 < n1)%Z ->
  (forall n, grid n -> ~ (n0 < n < n1)%Z) ->
  evenGrid n0 \/ evenGrid n1.
Proof.
  intros Hg0 Hg1 Hlt Hnone.
  destruct (decide (0 <= n0)%Z) as [Hpos|Hneg].
  - by apply neighbours_nonneg.
  - assert (Hn1 : (n1 <= 0)%Z).
    { destruct (decide (n1 <= 0)%Z) as [|Hgt]; [done|]. exfalso.
      apply (Hnone 0%Z grid_0). lia. }
    destruct (neighbours_nonneg (- n1) (- n0)) as [Hev|Hev].
    + by apply grid_opp.
    + by apply grid_opp.
    + lia.
    + intros n Hn Hbetween. apply (Hnone (- n)%Z); [by apply grid_opp|lia].
    + right. apply evenGrid_opp in Hev. by rewrite Z.opp_involutive in Hev.
    + left. apply evenGrid_opp in Hev. by rewrite Z.opp_involutive in Hev.
Qed.

Lemma evenGrid_significand n : evenGrid n -> evenSignificand (IZR n * tiny).
Proof.
  intros (m & e & Hc & -> & Hev). exists m, e. split; [done|]. split; [|done].
  symmetry. apply value_scaled. apply canonical_exponent in Hc. lia.
Qed.

Lemma scaled_lt a b : (a < b)%Z <-> IZR a * tiny < IZR b * tiny.
Proof.
  pose proof tiny_pos. split.
  - intros Hlt. apply IZR_lt in Hlt. nra.
  - intros Hlt. apply lt_IZR. nra.
Qed.

(** *** Every real has a rounding *)

Lemma rounds_total r : exists z, rounds r z.
Proof.
  destruct (nearest_total r) as [z0 Hz0].
  destruct (classic (exists z', nearest r z' /\ z' <> z0)) as [(z1 & Hz1 & Hne)|Hnone].
  - assert (Hd : Rabs (z0 - r) = Rabs (z1 - r)).
    { apply Rle_antisym; [apply Hz0, Hz1|apply Hz1, Hz0]. }
    destruct (proj1 (finite_grid z0) (proj1 Hz0)) as (n0 & Hg0 & E0).
    destruct (proj1 (finite_grid z1) (proj1 Hz1)) as (n1 & Hg1 & E1).
    assert (Hbetween : forall a b za zb,
              nearest r za -> nearest r zb -> za = IZR a * tiny ->
              zb = IZR b * tiny -> Rabs (za - r) = Rabs (zb - r) ->
              (a < b)%Z -> forall n, grid n -> ~ (a < n < b)%Z).
    { intros a b za zb Ha Hb -> -> Heq Hab n Hn [H1 H2].
      apply scaled_lt in H1, H2, Hab.
      assert (Hfin : finite (IZR n * tiny)) by (apply finite_grid; by exists n).
      pose proof (proj2 Ha _ Hfin) as Hmin.
      revert Heq Hmin. unfold Rabs.
      repeat match goal with |- context [Rcase_abs ?x] => destruct (Rcase_abs x) end;
        intros; lra. }
    assert (Hcmp : n0 <> n1) by (intros ->; apply Hne; congruence).
    destruct (decide (n0 < n1)%Z) as [Hlt|Hge].
    + destruct (neighbours n0 n1 Hg0 Hg1 Hlt) as [Hev|Hev].
      * by apply (Hbetween n0 n1 z0 z1).
      * exists z0. split; [done|]. intros _. subst z0.
        by apply evenGrid_significand.
      * exists z1. split; [done|]. intros _. subst z1.
        by apply evenGrid_significand.
    + destruct (neighbours n1 n0 Hg1 Hg0 ltac:(lia)) as [Hev|Hev].
      * apply (Hbetween n1 n0 z1 z0); try done; lia.
      * exists z1. split; [done|]. intros _. subst z1.
        by apply evenGrid_significand.
      * exists z0. split; [done|]. intros _. subst z0.
        by apply evenGrid_significand.
  - exists z0. split; [done|]. intros Htie. by destruct Hnone.
Qed.


(** *** Exact sums *)

Lemma Rabs_zero r : Rabs r <= 0 -> r = 0.
Proof. unfold Rabs. destruct (Rcase_abs r); lra. Qed.

Lemma nearest_self r z : finite r -> nearest r z -> z = r.
Proof.
  intros Hf [_ Hmin]. specialize (Hmin r Hf).
  rewrite Rminus_diag, Rabs_R0 in Hmin. apply Rabs_zero in Hmin. lra.
Qed.

Lemma rounds_self r : finite r -> rounds r r.
Proof.
  intros Hf. split.
  - split; [done|]. intros g _. rewrite Rminus_diag, Rabs_R0. apply Rabs_pos.
  - intros (z' & Hz' & Hne). destruct Hne. by apply nearest_self.
Qed.

Lemma rounds_exact r z : finite r -> rounds r z -> z = r.
Proof. intros Hf [Hn _]. by apply nearest_self. Qed.

(** *** The numbers with few digits are finite *)

Lemma pow2_split a b : powerRZ 2 (a + b) = powerRZ 2 a * powerRZ 2 b.
Proof. apply powerRZ_add. intros H. lra. Qed.

Lemma finite_dyadic j e :
  (Z.abs j <= 2 ^ 53)%Z -> (-1022 <= e <= 970)%Z -> finite (value j e).
Proof.
  intros Hj He.
  destruct (decide (j = 0%Z)) as [->|Hj0].
  { replace (value 0 e) with 0 by (unfold value; lra). apply finite_0. }
  destruct (decide (Z.abs j = 2 ^ 53)%Z) as [Htop|Hlow].
  - assert (Hcases : j = (2 ^ 53)%Z \/ j = (- 2 ^ 53)%Z) by lia.
    assert (Hdouble : forall m, value (2 * m) e = value m (e + 1)).
    { intros m. unfold value. rewrite pow2_split, mult_IZR.
      rewrite <- (IZR_pow2 1) by done. change (IZR (2 ^ 1)) with 2. ring. }
    destruct Hcases as [->| ->].
    + exists (2 ^ 52)%Z, (e + 1)%Z. split; [left; split; [done|lia]|].
      by rewrite <- Hdouble.
    + exists (- 2 ^ 52)%Z, (e + 1)%Z. split; [left; split; [done|lia]|].
      by rewrite <- Hdouble.
  - set (l := Z.log2 (Z.abs j)).
    destruct (Z.log2_spec (Z.abs j) ltac:(lia)) as [Hl1 Hl2]. fold l in Hl1, Hl2.
    assert (Hl : (0 <= l <= 52)%Z).
    { split; [apply Z.log2_nonneg|].
      destruct (decide (l <= 52)%Z) as [|Hn]; [done|]. exfalso.
      assert (2 ^ 53 <= 2 ^ l)%Z by (apply Z.pow_le_mono_r; lia). lia. }
    exists (j * 2 ^ (52 - l))%Z, (e - (52 - l))%Z. split.
    + left. split; [|lia]. rewrite Z.abs_mul.
      rewrite (Z.abs_eq (2 ^ (52 - l))) by (apply Z.pow_nonneg; lia).
      pose proof (pow2_gt0 (52 - l) ltac:(lia)) as Hp.
      assert (E1 : (2 ^ 52 = 2 ^ l * 2 ^ (52 - l))%Z).
      { rewrite <- Z.pow_add_r by lia. f_equal. lia. }
      assert (E2 : (2 ^ 53 = 2 ^ Z.succ l * 2 ^ (52 - l))%Z).
      { rewrite <- Z.pow_add_r by lia. f_equal. lia. }
      rewrite E1, E2. split.
      * apply Z.mul_le_mono_nonneg_r; lia.
      * apply Z.mul_lt_mono_pos_r; lia.
    + unfold value. rewrite mult_IZR, IZR_pow2 by lia. rewrite Rmult_assoc.
      rewrite <- pow2_split. do 2 f_equal. lia.
Qed.

Lemma finite_integer j : (Z.abs j <= 2 ^ 53)%Z -> finite (IZR j).
Proof.
  intros Hj. replace (IZR j) with (value j 0) by (unfold value; cbn [powerRZ]; lra).
  by apply finite_dyadic.
Qed.

(** *** The rounding error of a small sum *)

Lemma nearest_integer r : exists j, Rabs (IZR j - r) <= 1 / 2.
Proof.
  destruct (archimed r) as [Hup Hlow].
  destruct (Rle_dec (IZR (up r) - r) (1 / 2)) as [Hle|Hgt].
  - exists (up r). unfold Rabs. destruct (Rcase_abs _); lra.
  - exists (up r - 1)%Z. rewrite minus_IZR. unfold Rabs.
    destruct (Rcase_abs _); lra.
Qed.

Lemma pow2_30 : powerRZ 2 (-30) = / 1073741824.
Proof.
  assert (E : powerRZ 2 (-30) * powerRZ 2 30 = 1).
  { rewrite <- pow2_split. reflexivity. }
  rewrite <- (IZR_pow2 30) in E by done.
  change (IZR (2 ^ 30)) with 1073741824 in E.
  apply Rmult_eq_reg_r with 1073741824; [|lra]. rewrite E. field.
Qed.

Lemma near_dyadic r :
  Rabs r <= 8388608 -> exists g, finite g /\ Rabs (g - r) <= / 2147483648.
Proof.
  intros Hr. destruct (nearest_integer (r * 1073741824)) as [j Hj].
  exists (value j (-30)). split.
  - apply finite_dyadic; [|lia].
    assert (Hb : Rabs (IZR j) <= 9007199254740992 + 1 / 2).
    { replace (IZR j) with ((IZR j - r * 1073741824) + r * 1073741824) by ring.
      eapply Rle_trans; [apply Rabs_triang|].
      rewrite Rabs_mult, (Rabs_pos_eq 1073741824) by lra. nra. }
    rewrite <- abs_IZR in Hb.
    destruct (decide (Z.abs j <= 2 ^ 53)%Z) as [|Hn]; [done|]. exfalso.
    assert (Hz : (2 ^ 53 + 1 <= Z.abs j)%Z) by lia.
    apply IZR_le in Hz. rewrite plus_IZR in Hz.
    change (IZR (2 ^ 53)) with 9007199254740992 in Hz. lra.
  - unfold value. rewrite pow2_30.
    replace (IZR j * / 1073741824 - r)
      with ((IZR j - r * 1073741824) * / 1073741824) by field.
    rewrite Rabs_mult, (Rabs_pos_eq (/ 1073741824))
      by (apply Rlt_le, Rinv_0_lt_compat; lra).
    replace (/ 2147483648) with (1 / 2 * / 1073741824) by field.
    apply Rmult_le_compat_r; [|done].
    apply Rlt_le, Rinv_0_lt_compat. lra.
Qed.

Lemma nearest_small r z :
  Rabs r <= 8388608 -> nearest r z -> Rabs (z - r) <= / 2147483648.
Proof.
  intros Hr [_ Hmin]. destruct (near_dyadic r Hr) as (g & Hg & Hnear).
  specialize (Hmin g Hg). lra.
Qed.

(** *** The range of the finite numbers *)

Lemma finite_below_overflow x :
  finite x -> Rabs x + 8 <= overflow.
Proof.
  intros Hx. apply finite_grid in Hx as (n & Hn & ->).
  apply grid_range in Hn. unfold overflow.
  rewrite value_scaled by lia. pose proof tiny_pos as Ht.
  rewrite Rabs_mult, (Rabs_pos_eq tiny) by lra. rewrite <- abs_IZR.
  assert (Hs : scaled (2 ^ 54 - 1) 970 = (top + 2 ^ 2044)%Z).
  { unfold scaled, top. replace (970 + 1074)%Z with 2044%Z by lia.
    change (2 ^ 2045)%Z with (2 * 2 ^ 2044)%Z. ring. }
  rewrite Hs, plus_IZR, Rmult_plus_distr_r.
  assert (Ha : IZR (Z.abs n) <= IZR top) by (apply IZR_le; lia).
  assert (H1 : 8 <= IZR (2 ^ 2044) * tiny).
  { unfold tiny. rewrite IZR_pow2 by done. rewrite <- pow2_split.
    replace (2044 + -1074)%Z with 970%Z by lia.
    rewrite <- IZR_pow2 by done. apply IZR_le. done. }
  nra.
Qed.


(** *** Adding and taking away again *)

Lemma add_total x y :
  finite x -> finite y -> Rabs (x + y) < overflow -> exists z, add x y z.
Proof.
  intros Hx Hy Hsum. destruct (rounds_total (x + y)) as [z Hz]. by exists z.
Qed.

Lemma add_finite x y z : add x y z -> finite z.
Proof. by intros (_ & _ & _ & [[? _] _]). Qed.

Lemma add_exact x y z : finite (x + y) -> add x y z -> z = x + y.
Proof. intros Hf (_ & _ & _ & Hr). by apply rounds_exact. Qed.

Lemma add_exact_total x y :
  finite x -> finite y -> finite (x + y) -> add x y (x + y).
Proof.
  intros Hx Hy Hf. split; [done|]. split; [done|]. split.
  - pose proof (finite_below_overflow _ Hf). lra.
  - by apply rounds_self.
Qed.

Lemma add_exact_value x y z :
  finite x -> finite y -> finite z -> x + y = z -> add x y z.
Proof. intros Hx Hy Hz <-. by apply add_exact_total. Qed.

Lemma small_below_overflow r : Rabs r <= 8388608 -> Rabs r + 8 <= overflow.
Proof.
  intros Hr.
  assert (Hf : finite 8388608) by (by apply (finite_integer 8388608)).
  pose proof (finite_below_overflow _ Hf) as Hb.
  rewrite Rabs_pos_eq in Hb by lra. lra.
Qed.

(** There and back within 2^-30, whatever the roundings. *)
Lemma there_and_back_small x dx z1 z2 :
  Rabs (x + dx) <= 8388608 -> add x dx z1 -> add z1 (- dx) z2 ->
  Rabs (z2 - x) <= / 1073741824.
Proof.
  intros Hsmall (Hx & _ & _ & [Hn1 _]) (_ & _ & _ & [Hn2 _]).
  pose proof (nearest_small _ _ Hsmall Hn1) as He1.
  pose proof (proj2 Hn2 x Hx) as He2.
  replace (x - (z1 + - dx)) with (- (z1 - (x + dx))) in He2 by ring.
  rewrite Rabs_Ropp in He2.
  replace (z2 - x) with ((z2 - (z1 + - dx)) + (z1 - (x + dx))) by ring.
  eapply Rle_trans; [apply Rabs_triang|].
  replace (/ 1073741824) with (/ 2147483648 + / 2147483648) by field. lra.
Qed.

(** There and back exactly, when the sum is a finite number. *)
Lemma there_and_back_exact x dx z1 z2 :
  finite (x + dx) -> add x dx z1 -> add z1 (- dx) z2 -> z2 = x.
Proof.
  intros Hf Hadd1 Hadd2. pose proof Hadd1 as (Hx & _).
  apply add_exact in Hadd1 as ->; [|done].
  apply add_exact in Hadd2 as ->; [ring|].
  by replace (x + dx + - dx) with x by ring.
Qed.

(** The two additions give a result, for a small or an exact sum. *)
Lemma there_and_back_total x dx :
  finite x -> finite dx ->
  Rabs (x + dx) <= 8388608 \/ finite (x + dx) ->
  exists z1 z2, add x dx z1 /\ add z1 (- dx) z2.
Proof.
  intros Hx Hdx [Hsmall|Hf].
  - destruct (add_total x dx Hx Hdx) as [z1 Hz1].
    { pose proof (small_below_overflow _ Hsmall). lra. }
    pose proof Hz1 as (_ & _ & _ & [Hn1 _]).
    pose proof (nearest_small _ _ Hsmall Hn1) as He1.
    destruct (add_total z1 (- dx)) as [z2 Hz2].
    + by apply add_finite in Hz1.
    + by apply finite_opp.
    + pose proof (finite_below_overflow _ Hx) as Hb.
      replace (z1 + - dx) with (x + (z1 - (x + dx))) by ring.
      eapply Rle_lt_trans; [apply Rabs_triang|].
      assert (/ 2147483648 < 1).
      { rewrite <- Rinv_1. apply Rinv_lt_contravar; lra. }
      lra.
    + by exists z1, z2.
  - exists (x + dx), x. split; [by apply add_exact_total|].
    replace x with (x + dx + - dx) at 2 by ring.
    apply add_exact_total; [done|by apply finite_opp|].
    by replace (x + dx + - dx) with x by ring.
Qed.

(** *** A sum that is rounded away *)

Lemma pow2_le_1 e : (e <= 0)%Z -> powerRZ 2 e <= 1.
Proof.
  intros He. assert (E : powerRZ 2 e * powerRZ 2 (- e) = 1).
  { rewrite <- pow2_split. replace (e + - e)%Z with 0%Z by lia. reflexivity. }
  rewrite <- (IZR_pow2 (- e)) in E by lia.
  assert (H1 : 1 <= IZR (2 ^ (- e))).
  { apply IZR_le. pose proof (pow2_gt0 (- e) ltac:(lia)). lia. }
  pose proof (pow2_pos e). nra.
Qed.

(** A finite number is an integer multiple of 2 with at most 54 bits, or
    below 2^53 in magnitude. *)
Lemma finite_cases g :
  finite g ->
  Rabs g < 9007199254740992 \/ exists k, g = IZR (2 * k).
Proof.
  intros (m & e & Hc & ->).
  pose proof (canonical_significand m e Hc) as Hm.
  destruct (decide (e <= 0)%Z) as [Hle|Hgt].
  - left. unfold value. rewrite Rabs_mult, <- abs_IZR.
    rewrite (Rabs_pos_eq (powerRZ 2 e)) by (apply Rlt_le, pow2_pos).
    pose proof (pow2_le_1 e Hle). pose proof (pow2_pos e).
    assert (Ha : IZR (Z.abs m) <= 9007199254740991).
    { apply IZR_le. lia. }
    assert (0 <= IZR (Z.abs m)) by (apply IZR_le; lia). nra.
  - right. exists (m * 2 ^ (e - 1))%Z. rewrite value_IZR by lia. f_equal.
    replace e with (Z.succ (e - 1)) at 1 by lia.
    rewrite Z.pow_succ_r by lia. ring.
Qed.

Lemma below_by_1 : Rabs (9007199254740992 - 9007199254740993) = 1.
Proof. unfold Rabs. destruct (Rcase_abs _); lra. Qed.

Lemma nearest_above_2_53 z :
  nearest 9007199254740993 z ->
  z = 9007199254740992 \/ z = 9007199254740994.
Proof.
  intros [Hf Hmin].
  assert (H0 : finite 9007199254740992)
    by (by apply (finite_integer 9007199254740992)).
  specialize (Hmin _ H0). rewrite below_by_1 in Hmin.
  destruct (finite_cases z Hf) as [Hlow|[k ->]].
  - exfalso. revert Hlow Hmin. unfold Rabs.
    repeat match goal with |- context [Rcase_abs ?x] => destruct (Rcase_abs x) end;
      lra.
  - assert (Hk : (9007199254740992 <= 2 * k <= 9007199254740994)%Z).
    { split; apply le_IZR; revert Hmin; unfold Rabs;
        destruct (Rcase_abs _); lra. }
    assert (Hcases : (2 * k = 9007199254740992 \/ 2 * k = 9007199254740994)%Z)
      by lia.
    destruct Hcases as [-> | ->]; [by left|by right].
Qed.

Lemma odd_significand_2_53_2 : ~ evenSignificand 9007199254740994.
Proof.
  intros (m & e & Hc & Hv & Hev).
  pose proof (canonical_significand m e Hc) as Hm.
  destruct (decide (e <= 0)%Z) as [Hle|Hgt].
  - assert (Hf : finite 9007199254740994) by (rewrite Hv; by exists m, e).
    assert (Hlow : Rabs (value m e) < 9007199254740992).
    { unfold value. rewrite Rabs_mult, <- abs_IZR.
      rewrite (Rabs_pos_eq (powerRZ 2 e)) by (apply Rlt_le, pow2_pos).
      pose proof (pow2_le_1 e Hle). pose proof (pow2_pos e).
      assert (Ha : IZR (Z.abs m) <= 9007199254740991) by (apply IZR_le; lia).
      assert (0 <= IZR (Z.abs m)) by (apply IZR_le; lia). nra. }
    rewrite <- Hv in Hlow. rewrite Rabs_pos_eq in Hlow by lra. lra.
  - rewrite value_IZR in Hv by lia. apply eq_IZR in Hv.
    apply Z.even_spec in Hev as [q ->].
    replace e with (Z.succ (e - 1)) in Hv by lia.
    rewrite Z.pow_succ_r in Hv by lia.
    set (p := (2 ^ (e - 1))%Z) in *. clearbody p.
    assert (9007199254740994 = 4 * (q * p))%Z by lia. lia.
Qed.

(** 1 + 2^53 is 2^53, and taking 2^53 away again leaves 0. *)
Lemma add_1_2_53 z : add 1 9007199254740992 z -> z = 9007199254740992.
Proof.
  intros (_ & _ & _ & [Hn Htie]).
  replace (1 + 9007199254740992) with 9007199254740993 in * by lra.
  destruct (nearest_above_2_53 z Hn) as [Hz|Hz]; [done|]. exfalso.
  apply odd_significand_2_53_2. rewrite <- Hz. apply Htie.
  exists 9007199254740992. split; [|lra]. split.
  - by apply (finite_integer 9007199254740992).
  - intros g Hg.
    rewrite below_by_1.
    destruct Hn as [_ Hmin]. specialize (Hmin g Hg). rewrite Hz in Hmin.
    replace (9007199254740994 - 9007199254740993) with 1 in Hmin by lra.
    by rewrite Rabs_R1 in Hmin.
Qed.

End Binary64Facts.

(** ** The arrow moved there and back *)

Module ArrowRoundTrip.
Import Shapes Binary64 Binary64Facts.
Local Open Scope R_scope.

(** A coordinate is reproduced: within 1e-9 if the sum of the coordinate
    and the displacement is at most 2^23 in magnitude, and exactly if the
    sum is a finite number. *)
Definition reproduced (c d back : R) : Prop :=
  (Rabs (c + d) <= 8388608 -> Rabs (back - c) < 1 / 1000000000)
  /\ (finite (c + d) -> back = c).

(** The sum of a coordinate and the displacement is at most 2^23 in
    magnitude, or a finite number. *)
Definition tame (c d : R) : Prop :=
  Rabs (c + d) <= 8388608 \/ finite (c + d).

Lemma reproduced_there_and_back c d z1 z2 :
  add c d z1 -> add z1 (- d) z2 -> reproduced c d z2.
Proof.
  intros H1 H2. split.
  - intros Hsmall.
    pose proof (there_and_back_small c d z1 z2 Hsmall H1 H2) as Hb.
    assert (/ 1073741824 < 1 / 1000000000).
    { unfold Rdiv. rewrite Rmult_1_l. apply Rinv_lt_contravar; lra. }
    lra.
  - intros Hf. by apply (there_and_back_exact c d z1 z2).
Qed.

(** C7 (as amended): for an arrow whose endpoint coordinates are binary64
    numbers and a displacement of binary64 numbers, with every sum of a
    coordinate and its displacement at most 2^23 in magnitude or a
    binary64 number itself, move by (dx, dy) followed by move by (-dx, -dy),
    with the additions rounded as the code rounds them, gives an arrow
    at each step (the type tag is kept, and an arrow datum has no field
    but the tag and the four coordinates), whose every endpoint coordinate is within 1e-9 of the original
    where the sum is at most 2^23 in magnitude, and is the original where
    the sum is a binary64 number (as for whole pixels). *)
Theorem arrow_move_roundtrip x1 y1 x2 y2 dx dy :
  finite x1 -> finite y1 -> finite x2 -> finite y2 ->
  finite dx -> finite dy ->
  let data := ArrowShapeData x1 y1 x2 y2 in
  (tame x1 dx -> tame y1 dy -> tame x2 dx -> tame y2 dy ->
   exists moved back,
     ArrowHandler64.move data dx dy moved
     /\ ArrowHandler64.move moved (- dx) (- dy) back)
  /\ (forall moved back,
        ArrowHandler64.move data dx dy moved ->
        ArrowHandler64.move moved (- dx) (- dy) back ->
        shapeType moved = arrow
        /\ exists a b c d,
             back = ArrowShapeData a b c d
             /\ reproduced x1 dx a /\ reproduced y1 dy b
             /\ reproduced x2 dx c /\ reproduced y2 dy d).
Proof.
  intros Hx1 Hy1 Hx2 Hy2 Hdx Hdy data. split.
  - intros T1 T2 T3 T4.
    destruct (there_and_back_total x1 dx Hx1 Hdx T1) as (a1 & a2 & Ha1 & Ha2).
    destruct (there_and_back_total y1 dy Hy1 Hdy T2) as (b1 & b2 & Hb1 & Hb2).
    destruct (there_and_back_total x2 dx Hx2 Hdx T3) as (c1 & c2 & Hc1 & Hc2).
    destruct (there_and_back_total y2 dy Hy2 Hdy T4) as (d1 & d2 & Hd1 & Hd2).
    exists (ArrowShapeData a1 b1 c1 d1), (ArrowShapeData a2 b2 c2 d2).
    by split.
  - intros moved back Hthere Hback.
    destruct moved as [| |a1 b1 c1 d1| |]; try done.
    destruct back as [| |a2 b2 c2 d2| |]; try done.
    destruct Hthere as (Ha1 & Hb1 & Hc1 & Hd1).
    destruct Hback as (Ha2 & Hb2 & Hc2 & Hd2).
    split; [done|]. exists a2, b2, c2, d2. split; [done|].
    split; [by apply (reproduced_there_and_back _ _ a1)|].
    split; [by apply (reproduced_there_and_back _ _ b1)|].
    split; [by apply (reproduced_there_and_back _ _ c1)|].
    by apply (reproduced_there_and_back _ _ d1).
Qed.

Lemma finite_quarters j : (Z.abs j <= 2 ^ 53)%Z -> finite (IZR j / 4).
Proof.
  intros Hj. replace (IZR j / 4) with (value j (-2)).
  - by apply finite_dyadic.
  - unfold value. simpl. lra.
Qed.

Lemma arrow_move_roundtrip_witness :
  let data := ArrowShapeData (21 / 2) 20 (441 / 4) 70 in
  (exists moved back,
     ArrowHandler64.move data (15 / 4) (-8) moved
     /\ ArrowHandler64.move moved (- (15 / 4)) (- -8) back)
  /\ (forall moved back,
        ArrowHandler64.move data (15 / 4) (-8) moved ->
        ArrowHandler64.move moved (- (15 / 4)) (- -8) back ->
        shapeType moved = arrow
        /\ exists a b c d,
          back = ArrowShapeData a b c d
          /\ reproduced (21 / 2) (15 / 4) a /\ reproduced 20 (-8) b
          /\ reproduced (441 / 4) (15 / 4) c /\ reproduced 70 (-8) d).
Proof.
  intros data.
  assert (H1 : finite (21 / 2)).
  { replace (21 / 2) with (42 / 4) by lra. by apply (finite_quarters 42). }
  assert (H2 : finite 20) by (by apply (finite_integer 20)).
  assert (H3 : finite (441 / 4)) by (by apply (finite_quarters 441)).
  assert (H4 : finite 70) by (by apply (finite_integer 70)).
  assert (H5 : finite (15 / 4)) by (by apply (finite_quarters 15)).
  assert (H6 : finite (-8)) by (by apply (finite_integer (-8))).
  destruct (arrow_move_roundtrip (21 / 2) 20 (441 / 4) 70 (15 / 4) (-8)
              H1 H2 H3 H4 H5 H6) as [Hexists Hall].
  split; [|exact Hall].
  apply Hexists; left; unfold Rabs; destruct (Rcase_abs _); lra.
Defined.

(** C7 (as stated) fails for a large displacement: the arrow from (1, 2)
    to (1, 40) moved by 2^53 = 9007199254740992 to the right and back has
    its endpoints at x = 0, since 1 + 2^53 is rounded to 2^53; the
    coordinate is off by 1. *)
Lemma arrow_move_roundtrip_counterexample :
  let data := ArrowShapeData 1 2 1 40 in
  let dx := 9007199254740992 in
  (finite 1 /\ finite 2 /\ finite 40 /\ finite dx /\ finite 0)
  /\ (exists moved back,
        ArrowHandler64.move data dx 0 moved
        /\ ArrowHandler64.move moved (- dx) (- 0) back)
  /\ (forall moved back,
        ArrowHandler64.move data dx 0 moved ->
        ArrowHandler64.move moved (- dx) (- 0) back ->
        back = ArrowShapeData 0 2 0 40)
  /\ ~ Rabs (0 - 1) < 1 / 1000000000.
Proof.
  intros data dx. subst data dx.
  assert (H1 : finite 1) by (by apply (finite_integer 1)).
  assert (H2 : finite 2) by (by apply (finite_integer 2)).
  assert (H40 : finite 40) by (by apply (finite_integer 40)).
  assert (Hdx : finite 9007199254740992) by (by apply (finite_integer 9007199254740992)).
  assert (H0 : finite 0) by apply finite_0.
  assert (Hopp0 : finite (Ropp 0)) by (by apply finite_opp).
  assert (Hx : forall z1 z2, add 1 9007199254740992 z1 -> add z1 (Ropp 9007199254740992) z2 ->
                             z1 = 9007199254740992 /\ z2 = 0).
  { intros z1 z2 Ha1 Ha2. apply add_1_2_53 in Ha1 as ->. split; [done|].
    apply add_exact in Ha2 as ->; [lra|].
    by replace (9007199254740992 + Ropp 9007199254740992) with 0 by lra. }
  assert (Hy : forall c z1 z2, finite c -> add c 0 z1 -> add z1 (Ropp 0) z2 ->
                               z2 = c).
  { intros c z1 z2 Hc Ha1 Ha2.
    apply add_exact in Ha1 as ->; [|by rewrite Rplus_0_r].
    apply add_exact in Ha2 as ->; [lra|].
    by replace (c + 0 + Ropp 0) with c by lra. }
  assert (Hthere : add 1 9007199254740992 9007199254740992).
  { split; [done|]. split; [done|]. split.
    - pose proof (finite_below_overflow _ Hdx) as Hb.
      rewrite Rabs_pos_eq in Hb by lra.
      rewrite Rabs_pos_eq by lra. lra.
    - destruct (rounds_total (1 + 9007199254740992)) as [z Hz].
      assert (Hadd : add 1 9007199254740992 z).
      { split; [done|]. split; [done|]. split; [|done].
        pose proof (finite_below_overflow _ Hdx) as Hb.
        rewrite Rabs_pos_eq in Hb by lra.
        rewrite Rabs_pos_eq by lra. lra. }
      pose proof (add_1_2_53 z Hadd) as Ez. by subst z. }
  assert (Hback : add 9007199254740992 (Ropp 9007199254740992) 0).
  { apply add_exact_value; [done|by apply finite_opp|done|lra]. }
  assert (Hstay : forall c, finite c -> add c 0 c /\ add c (Ropp 0) c).
  { intros c Hc. split; apply add_exact_value; try done; lra. }
  split; [done|]. split; [|split].
  - exists (ArrowShapeData 9007199254740992 2 9007199254740992 40), (ArrowShapeData 0 2 0 40).
    split.
    + split; [done|]. split; [apply (Hstay 2 H2)|]. split; [done|].
      apply (Hstay 40 H40).
    + split; [done|]. split; [apply (Hstay 2 H2)|]. split; [done|].
      apply (Hstay 40 H40).
  - intros moved back Hm Hb.
    destruct moved as [| |a1 b1 c1 d1| |]; try done.
    destruct back as [| |a2 b2 c2 d2| |]; try done.
    destruct Hm as (Ha1 & Hb1 & Hc1 & Hd1).
    destruct Hb as (Ha2 & Hb2 & Hc2 & Hd2).
    destruct (Hx a1 a2 Ha1 Ha2) as [_ ->].
    destruct (Hx c1 c2 Hc1 Hc2) as [_ ->].
    rewrite (Hy 2 b1 b2 H2 Hb1 Hb2), (Hy 40 d1 d2 H40 Hd1 Hd2). done.
  - unfold Rabs. destruct (Rcase_abs _); lra.
Qed.

End ArrowRoundTrip.

(** ** Shape handlers: moving, reshaping and outlines *)

Module ShapeLaws.
Import Shapes ShapesSpec.
Local Open Scope R_scope.


(** A point moved by (dx, dy). *)
Definition shift (dx dy : R) (p : Point2D) : Point2D :=
  mkPoint2D (x p + dx) (y p + dy).

(** The handle of a handler with a given id, as [defs.find] looks it up. *)
Definition controlPoint (h : ShapeHandler) (name : string)
  : option ControlPointDef :=
  List.find (fun d => bool_decide (id d = name)) (getControlPoints h).

(** The corner a corner handle faces. *)
Definition oppositeCorner (name : string) : string :=
  if decide (name = "tl") then "br"
  else if decide (name = "tr") then "bl"
  else if decide (name = "bl") then "tr"
  else "tl".

Definition onLeft (name : string) : bool :=
  bool_decide (name = "tl") || bool_decide (name = "bl").

Definition onTop (name : string) : bool :=
  bool_decide (name = "tl") || bool_decide (name = "tr").

Lemma point_eq (p q : Point2D) : x p = x q -> y p = y q -> p = q.
Proof. destruct p, q; cbn; intros -> ->; reflexivity. Qed.



Lemma head_movePoints pts dx dy :
  head (movePoints pts dx dy) = shift dx dy <$> head pts.
Proof. by destruct pts. Qed.

Lemma last_movePoints pts dx dy :
  last (movePoints pts dx dy) = shift dx dy <$> last pts.
Proof. unfold movePoints. apply (fmap_last (shift dx dy)). Qed.

Section WithLayout.
Context `{FabricLayout}.




(** X2: when a shape moves, each of its handles moves by the same
    displacement: for every registered handler, every control-point
    definition of it and every datum of its type (a pen stroke with at
    least one point), the position the definition gives on the moved datum
    is its position on the datum plus (dx, dy). *)
Theorem handles_follow_move t h def d dx dy :
  getHandler ShapeRegistry t = Some h -> shapeType d = t ->
  def ∈ getControlPoints h ->
  (forall pts, d = PenShapeData pts -> pts <> []) ->
  getPosition def (move h d dx dy) = shift dx dy (getPosition def d).
Proof.
  intros Hh Ht Hdef Hpen.
  destruct t; injection Hh as <-; destruct d; try discriminate Ht;
    cbn in Hdef;
    repeat (apply elem_of_cons in Hdef as [->|Hdef]);
    try (by apply elem_of_nil in Hdef);
    cbn; unfold shift; cbn;
    try (apply point_eq; cbn; real_cases; lra).
  - rewrite head_movePoints. destruct points as [|p pts]; [by destruct (Hpen [])|].
    reflexivity.
  - rewrite last_movePoints.
    destruct (last points) as [p|] eqn:E; [reflexivity|].
    apply last_None in E. by destruct (Hpen points).
Qed.

(** X3: dragging a corner handle of a rectangle or an ellipse to [p]
    leaves a shape whose bounding box is spanned by [p] and the corner
    opposite the handle: afterwards every handle sits on its corner of that
    box.  So as long as the pointer does not cross the opposite corner the
    dragged handle is under the pointer and the opposite corner stays
    fixed; once it crosses, the handles trade places. *)
Theorem corner_drag_spans t h def opp d p c :
  t = rect \/ t = ellipse ->
  getHandler ShapeRegistry t = Some h -> shapeType d = t ->
  def ∈ getControlPoints h ->
  controlPoint h (oppositeCorner (id def)) = Some opp ->
  c ∈ getControlPoints h ->
  let o := getPosition opp d in
  let d' := onDrag def d p in
  shapeType d' = t
  /\ getPosition c d'
     = mkPoint2D
         (if onLeft (id c) then Rmin (x p) (x o) else Rmax (x p) (x o))
         (if onTop (id c) then Rmin (y p) (y o) else Rmax (y p) (y o)).
Proof.
  intros Ht Hh Hd Hdef Hopp Hc.
  destruct Ht as [-> | ->]; injection Hh as <-; destruct d; try discriminate Hd;
    cbn in Hdef, Hc;
    repeat (apply elem_of_cons in Hdef as [->|Hdef]);
    try (by apply elem_of_nil in Hdef);
    injection Hopp as <-;
    repeat (apply elem_of_cons in Hc as [->|Hc]);
    try (by apply elem_of_nil in Hc);
    cbn;
    repeat match goal with
    | |- context [Num.leb ?a ?b] =>
        let E := fresh "E" in
        destruct (Num.leb a b) eqn:E;
        [apply NumFacts.leb_le in E | apply NumFacts.leb_gt in E]
    end;
    cbn; (split; [reflexivity|]);
    repeat match goal with
    | |- context [onLeft ?n] =>
        let b := eval vm_compute in (onLeft n) in change (onLeft n) with b
    | |- context [onTop ?n] =>
        let b := eval vm_compute in (onTop n) in change (onTop n) with b
    end;
    apply point_eq; cbn; real_cases; lra.
Qed.

(** Dragging one end handle of an arrow to [p] puts that end at [p]
    and leaves the other end where it was. *)
Theorem arrow_handle_drag x1 y1 x2 y2 p def other :
  def ∈ getControlPoints ArrowHandler ->
  other ∈ getControlPoints ArrowHandler -> id other <> id def ->
  let d := ArrowShapeData x1 y1 x2 y2 in
  shapeType (onDrag def d p) = arrow
  /\ getPosition def (onDrag def d p) = p
  /\ getPosition other (onDrag def d p) = getPosition other d.
Proof.
  intros Hdef Hother Hne. cbn in Hdef, Hother.
  repeat (apply elem_of_cons in Hdef as [->|Hdef]);
    try (by apply elem_of_nil in Hdef);
    repeat (apply elem_of_cons in Hother as [->|Hother]);
    try (by apply elem_of_nil in Hother);
    try (by destruct Hne);
    cbn; by destruct p.
Qed.



(** The outline a handler draws for a datum: the path data it passes to
    [new Path]. *)
Definition outline (h : ShapeHandler) (d : ShapeData) (config : DrawingConfig.t)
  : option (list PathCmd) :=
  match kind (createPath h d config) with
  | Path p => Some p
  | _ => None
  end.





(** X7: a pen stroke of two or more points is drawn as a move to its first
    point and a line to each later one, so the path visits exactly the
    points of the stroke, in order; below two points the path is empty.
    Hence the object the pen handler makes for an accepted gesture runs
    through the accumulated points. *)
Theorem pen_path_visits_points pts :
  ((2 <= length pts)%nat ->
   vertices (buildPenPathData pts) = pts
   /\ length (buildPenPathData pts) = length pts
   /\ (forall start current config d,
         createData PenHandler start current (Some pts) = Some d ->
         d = PenShapeData pts
         /\ (vertices <$> outline PenHandler d config) = Some pts))
  /\ ((length pts < 2)%nat ->
      buildPenPathData pts = []
      /\ forall start current,
           createData PenHandler start current (Some pts) = None).
Proof.
  assert (Hv : forall l : list Point2D,
             vertices (map (fun q => PathL (x q) (y q)) l) = l).
  { induction l as [|[qx qy] l IH]; [done|]. unfold vertices in *. cbn.
    by rewrite IH. }
  split; intros Hlen.
  - assert (E : (length pts <? 2)%nat = false) by (apply Nat.ltb_ge; lia).
    assert (Hb : vertices (buildPenPathData pts) = pts).
    { unfold buildPenPathData. rewrite E. destruct pts as [|[px py] pts]; [done|].
      unfold vertices in *. cbn. f_equal. apply Hv. }
    split; [exact Hb|]. split.
    + unfold buildPenPathData. rewrite E. destruct pts as [|p pts]; [done|].
      cbn. by rewrite length_map.
    + intros start current config d.
      change (createData PenHandler start current (Some pts))
        with (if (length pts <? 2)%nat then None else Some (PenShapeData pts)).
      rewrite E. intros [= <-].
      split; [reflexivity|].
      change (outline PenHandler (PenShapeData pts) config)
        with (Some (buildPenPathData pts)).
      cbn [fmap option_fmap option_map]. by rewrite Hb.
  - assert (E : (length pts <? 2)%nat = true) by (apply Nat.ltb_lt; lia).
    split.
    + unfold buildPenPathData. by rewrite E.
    + intros start current.
      change (createData PenHandler start current (Some pts))
        with (if (length pts <? 2)%nat then None else Some (PenShapeData pts)).
      by rewrite E.
Qed.

End WithLayout.

(** *** The arrow points along its segment *)

Lemma sqrt_scaled (a t : R) :
  0 <= a -> sqrt (a ^ 2 + (a * t) ^ 2) = a * sqrt (1 + t²).
Proof.
  intros Ha.
  replace (a ^ 2 + (a * t) ^ 2) with (a² * (1 + t²)) by (unfold Rsqr; ring).
  rewrite sqrt_mult_alt by apply Rle_0_sqr. by rewrite sqrt_Rsqr.
Qed.

Lemma sqrt_one_plus_pos t : 0 < sqrt (1 + t²).
Proof. apply sqrt_lt_R0. pose proof (Rle_0_sqr t). lra. Qed.

(** [Math.atan2(dy, dx)] is the polar angle of (dx, dy). *)
Lemma atan2_polar dx dy :
  sqrt (dx ^ 2 + dy ^ 2) * cos (Num.atan2 dy dx) = dx
  /\ sqrt (dx ^ 2 + dy ^ 2) * sin (Num.atan2 dy dx) = dy.
Proof.
  unfold Num.atan2.
  destruct (Num.ltb 0 dx) eqn:E1; [apply NumFacts.ltb_lt in E1|apply NumFacts.ltb_ge in E1].
  { set (t := dy / dx). pose proof (sqrt_one_plus_pos t) as Hs.
    assert (Hdy : dy = dx * t) by (unfold t; field; lra).
    rewrite Hdy at 1 2 3.
    rewrite sqrt_scaled by lra. rewrite cos_atan, sin_atan.
    split; field; lra. }
  destruct (Num.ltb dx 0) eqn:E2; [apply NumFacts.ltb_lt in E2|apply NumFacts.ltb_ge in E2].
  { set (t := dy / dx). pose proof (sqrt_one_plus_pos t) as Hs.
    assert (Hr : sqrt (dx ^ 2 + dy ^ 2) = - dx * sqrt (1 + t²)).
    { replace (dx ^ 2 + dy ^ 2) with ((- dx) ^ 2 + (- dx * - t) ^ 2)
        by (unfold t; field; lra).
      rewrite sqrt_scaled by lra. f_equal. f_equal. unfold Rsqr. ring. }
    rewrite Hr.
    assert (Hc : forall a, cos (a + PI) = - cos a /\ sin (a + PI) = - sin a
                        /\ cos (a - PI) = - cos a /\ sin (a - PI) = - sin a).
    { intros a. rewrite neg_cos, neg_sin, cos_minus, sin_minus, cos_PI, sin_PI.
      repeat split; ring. }
    destruct (Hc (atan t)) as (C1 & S1 & C2 & S2).
    assert (Hdy : dy = dx * t) by (unfold t; field; lra).
    destruct (Num.leb 0 dy); rewrite ?C1, ?S1, ?C2, ?S2, cos_atan, sin_atan;
      (split; [field; lra|rewrite Hdy; field; lra]). }
  assert (dx = 0) as -> by lra.
  replace (0 ^ 2 + dy ^ 2) with (dy²) by (unfold Rsqr; ring).
  rewrite sqrt_Rsqr_abs.
  destruct (Num.ltb 0 dy) eqn:E3; [apply NumFacts.ltb_lt in E3|apply NumFacts.ltb_ge in E3].
  { rewrite cos_PI2, sin_PI2, Rabs_right by lra. split; ring. }
  destruct (Num.ltb dy 0) eqn:E4; [apply NumFacts.ltb_lt in E4|apply NumFacts.ltb_ge in E4].
  { rewrite cos_neg, sin_neg, cos_PI2, sin_PI2, Rabs_left by lra. split; ring. }
  assert (dy = 0) as -> by lra.
  rewrite Rabs_R0. split; ring.
Qed.

(** X8: the arrow outline is laid out along the segment from tail to tip.
    The neck lies on the segment, [headLength] behind the tip, and the
    head is between 0 and 40% of the segment long, so the neck is never
    behind the tail; the two tail corners, the two neck corners and the two
    head corners lie on lines at right angles to the segment, one of each
    pair on either side at the same distance. *)
Theorem arrow_axis x1 y1 x2 y2 width :
  let g := arrowGeometry x1 y1 x2 y2 width in
  let len := segmentLength g in
  let across p q := (x p - x q) * (x2 - x1) + (y p - y q) * (y2 - y1) in
  let tail := mkPoint2D x1 y1 in
  (0 <= headLength g <= len * (4 / 10))
  /\ (len * (x2 - x (neck g)) = headLength g * (x2 - x1)
      /\ len * (y2 - y (neck g)) = headLength g * (y2 - y1))
  /\ (across (tail1 g) tail = 0 /\ across (neck1 g) (neck g) = 0
      /\ across (head1 g) (neck g) = 0)
  /\ (shift (x (tail2 g) - x1) (y (tail2 g) - y1) (tail1 g) = tail
      /\ shift (x (neck2 g) - x (neck g)) (y (neck2 g) - y (neck g)) (neck1 g)
         = neck g
      /\ shift (x (head2 g) - x (neck g)) (y (head2 g) - y (neck g)) (head1 g)
         = neck g).
Proof.
  intros g len across tail.
  destruct (atan2_polar (x2 - x1) (y2 - y1)) as [Hcos Hsin].
  set (a := Num.atan2 (y2 - y1) (x2 - x1)) in *.
  set (w := default 3 width).
  assert (Hlen : len = sqrt ((x2 - x1) ^ 2 + (y2 - y1) ^ 2)) by reflexivity.
  rewrite <- Hlen in Hcos, Hsin.
  assert (Hpos : 0 <= len) by (rewrite Hlen; apply sqrt_pos).
  assert (Hscale : 1 / 2 <= scale g) by apply arrow_scale_pos.
  assert (Hhead : headLength g = Rmin (30 * scale g) (len * (4 / 10)))
    by reflexivity.
  assert (Hperp : cos (a + PI / 2) = - sin a /\ sin (a + PI / 2) = cos a).
  { rewrite cos_plus, sin_plus, cos_PI2, sin_PI2. split; ring. }
  destruct Hperp as [Hc Hs].
  assert (Hneck : neck g = mkPoint2D (x2 - headLength g * cos a)
                             (y2 - headLength g * sin a)) by reflexivity.
  assert (Hacross : forall r,
    (- (r * sin a)) * (x2 - x1) + (r * cos a) * (y2 - y1) = 0).
  { intros r. rewrite <- Hcos, <- Hsin. ring. }
  split; [|split; [|split]].
  - rewrite Hhead. split.
    + apply Rmin_glb; nra.
    + apply Rmin_r.
  - rewrite Hneck. cbn [x y]. split.
    + replace (headLength g * (x2 - x1)) with (headLength g * (len * cos a))
        by (by rewrite Hcos).
      ring.
    + replace (headLength g * (y2 - y1)) with (headLength g * (len * sin a))
        by (by rewrite Hsin).
      ring.
  - unfold across.
    change (x (tail1 g)) with (x1 + shaftWidth g * cos (a + PI / 2)).
    change (y (tail1 g)) with (y1 + shaftWidth g * sin (a + PI / 2)).
    change (x (neck1 g)) with (x (neck g) + shaftWidth g * cos (a + PI / 2)).
    change (y (neck1 g)) with (y (neck g) + shaftWidth g * sin (a + PI / 2)).
    change (x (head1 g)) with (x (neck g) + headWidth g * cos (a + PI / 2)).
    change (y (head1 g)) with (y (neck g) + headWidth g * sin (a + PI / 2)).
    rewrite Hc, Hs. cbn [x y tail].
    pose proof (Hacross (shaftWidth g)) as E1.
    pose proof (Hacross (headWidth g)) as E2.
    repeat split; lra.
  - repeat split; apply point_eq; cbn; ring.
Qed.

(** The registry as a map: what [set] and [get] do to any table. *)
Section Registry.

(** X9: registering a handler makes it the handler of its type and leaves
    the handler of every other type as it was; registering again under the
    same type replaces the handler without adding a second entry, so the
    list of registered types never holds a type twice. *)
Theorem register_getHandler handler handlers t :
  getHandler (register handler handlers) t
  = (if decide (t = type handler) then Some handler else getHandler handlers t)
  /\ getTypes (register handler handlers)
     = (if decide (type handler ∈ getTypes handlers) then getTypes handlers
        else getTypes handlers ++ [type handler])
  /\ (NoDup (getTypes handlers) -> NoDup (getTypes (register handler handlers))).
Proof.
  assert (Hget : getHandler (register handler handlers) t
                 = if decide (t = type handler) then Some handler
                   else getHandler handlers t).
  { induction handlers as [|[t' h'] handlers IH]; cbn.
    - repeat case_decide; congruence.
    - repeat (case_decide; cbn); try congruence. }
  assert (Htypes : getTypes (register handler handlers)
                   = if decide (type handler ∈ getTypes handlers)
                     then getTypes handlers
                     else getTypes handlers ++ [type handler]).
  { clear Hget. unfold getTypes.
    induction handlers as [|[t' h'] handlers IH]; cbn.
    - case_decide as E; [by apply elem_of_nil in E|done].
    - destruct (decide (t' = type handler)) as [->|Hne]; cbn.
      + rewrite decide_True by apply list_elem_of_here. done.
      + rewrite IH. repeat case_decide; try done.
        * exfalso. match goal with E : ¬ _ ∈ _ :: _ |- _ => apply E end.
          by apply list_elem_of_further.
        * match goal with E : _ ∈ _ :: _ |- _ =>
            apply elem_of_cons in E as [E|E]; [congruence|done] end. }
  split; [exact Hget|]. split; [exact Htypes|].
  intros Hnd. rewrite Htypes. case_decide as E; [done|].
  apply NoDup_app. split; [done|]. split.
  - intros ty Hin Hin'. apply list_elem_of_singleton in Hin'. by subst.
  - apply NoDup_singleton.
Qed.

End Registry.

(** *** The laws at concrete shapes *)

Lemma handles_follow_move_witness :
  getPosition (cornerControl "tr" false true)
    (move (@RectHandler originLayout) (RectShapeData 0 0 10 5) 2 3)
  = shift 2 3 (getPosition (cornerControl "tr" false true)
                 (RectShapeData 0 0 10 5)).
Proof.
  apply (@handles_follow_move originLayout rect (@RectHandler originLayout)
           (cornerControl "tr" false true) (RectShapeData 0 0 10 5) 2 3).
  - reflexivity.
  - reflexivity.
  - apply list_elem_of_further, list_elem_of_here.
  - intros pts Hpts. discriminate Hpts.
Defined.

Lemma corner_drag_spans_witness :
  let d' := onDrag (cornerControl "tl" true true) (EllipseShapeData 0 0 10 5)
              (mkPoint2D 20 1) in
  shapeType d' = ellipse
  /\ getPosition (cornerControl "br" false false) d'
     = mkPoint2D
         (if onLeft "br" then Rmin 20 (x (getPosition (cornerControl "br" false false) (EllipseShapeData 0 0 10 5)))
          else Rmax 20 (x (getPosition (cornerControl "br" false false) (EllipseShapeData 0 0 10 5))))
         (if onTop "br" then Rmin 1 (y (getPosition (cornerControl "br" false false) (EllipseShapeData 0 0 10 5)))
          else Rmax 1 (y (getPosition (cornerControl "br" false false) (EllipseShapeData 0 0 10 5)))).
Proof.
  apply (@corner_drag_spans originLayout ellipse (@EllipseHandler originLayout)
           (cornerControl "tl" true true) (cornerControl "br" false false)
           (EllipseShapeData 0 0 10 5) (mkPoint2D 20 1)
           (cornerControl "br" false false)).
  - by right.
  - reflexivity.
  - reflexivity.
  - apply list_elem_of_here.
  - reflexivity.
  - do 3 apply list_elem_of_further. apply list_elem_of_here.
Defined.

Lemma arrow_handle_drag_witness :
  getPosition (List.hd (cornerControl "" true true)
                 (getControlPoints (@ArrowHandler originLayout)))
    (onDrag (List.hd (cornerControl "" true true)
               (getControlPoints (@ArrowHandler originLayout)))
       (ArrowShapeData 0 0 10 5) (mkPoint2D 7 7))
  = mkPoint2D 7 7.
Proof.
  apply (@arrow_handle_drag originLayout 0 0 10 5 (mkPoint2D 7 7)
           (List.hd (cornerControl "" true true)
              (getControlPoints (@ArrowHandler originLayout)))
           (List.nth 1 (getControlPoints (@ArrowHandler originLayout))
              (cornerControl "" true true))).
  - apply list_elem_of_here.
  - apply list_elem_of_further, list_elem_of_here.
  - cbn. discriminate.
Defined.



End ShapeLaws.

(** ** The drawing surface: what the handlers leave alone *)

Module FabricCanvasFrame.
Import Shapes FabricCanvas.

(** [s'] has the history log, the cursor and the loading flag of [s], and
    a canvas exactly if [s] has one. *)
Definition sameLog (s s' : State) : Prop :=
  history s' = history s
  /\ historyIndex s' = historyIndex s
  /\ isLoadingHistory s' = isLoadingHistory s
  /\ (is_Some (fabricCanvas s') <-> is_Some (fabricCanvas s)).

Create HintDb frame discriminated.

Lemma sameLog_refl s : sameLog s s.
Proof. by repeat split. Qed.

Lemma sameLog_trans s1 s2 s3 : sameLog s1 s2 -> sameLog s2 s3 -> sameLog s1 s3.
Proof.
  intros (? & ? & ? & ?) (? & ? & ? & ?). repeat split; try congruence; tauto.
Qed.

(** A step that keeps the four components keeps [sameLog] with any
    earlier state. *)
Lemma sameLog_step s0 s s' :
  history s' = history s -> historyIndex s' = historyIndex s ->
  isLoadingHistory s' = isLoadingHistory s ->
  (is_Some (fabricCanvas s') <-> is_Some (fabricCanvas s)) ->
  sameLog s0 s -> sameLog s0 s'.
Proof.
  intros. apply (sameLog_trans s0 s s'); [done|]. unfold sameLog. tauto.
Qed.

Lemma is_Some_fmap_canvas (f : Canvas -> Canvas) (c : option Canvas) :
  is_Some (f <$> c) <-> is_Some c.
Proof. destruct c; cbn; split; intros [? ?]; eauto || done. Qed.

Ltac frame_step :=
  intros; eapply sameLog_step; [..|eassumption];
  cbn; try reflexivity; try apply is_Some_fmap_canvas.

Lemma sameLog_modify s0 s obj f : sameLog s0 s -> sameLog s0 (modify obj f s).
Proof. frame_step. Qed.
Lemma sameLog_canvasAdd s0 s obj : sameLog s0 s -> sameLog s0 (canvasAdd obj s).
Proof. frame_step. Qed.
Lemma sameLog_canvasRemove s0 s obj :
  sameLog s0 s -> sameLog s0 (canvasRemove obj s).
Proof. frame_step. Qed.
Lemma sameLog_set_activeObject s0 s a :
  sameLog s0 s -> sameLog s0 (set_activeObject a s).
Proof. frame_step. Qed.
Lemma sameLog_withCanvas s0 s f : sameLog s0 s -> sameLog s0 (withCanvas f s).
Proof. frame_step. Qed.
Lemma sameLog_set_heap s0 s h : sameLog s0 s -> sameLog s0 (set_heap h s).
Proof. frame_step. Qed.
Lemma sameLog_set_activeTool s0 s t :
  sameLog s0 s -> sameLog s0 (set_activeTool t s).
Proof. frame_step. Qed.
Lemma sameLog_set_isDrawing s0 s b :
  sameLog s0 s -> sameLog s0 (set_isDrawing b s).
Proof. frame_step. Qed.
Lemma sameLog_set_drawStartPoint s0 s p :
  sameLog s0 s -> sameLog s0 (set_drawStartPoint p s).
Proof. frame_step. Qed.
Lemma sameLog_set_currentObject s0 s o :
  sameLog s0 s -> sameLog s0 (set_currentObject o s).
Proof. frame_step. Qed.
Lemma sameLog_set_penPoints s0 s l :
  sameLog s0 s -> sameLog s0 (set_penPoints l s).
Proof. frame_step. Qed.
Lemma sameLog_set_lastObjectPosition s0 s p :
  sameLog s0 s -> sameLog s0 (set_lastObjectPosition p s).
Proof. frame_step. Qed.
Lemma sameLog_set_controlPoints s0 s c :
  sameLog s0 s -> sameLog s0 (set_controlPoints c s).
Proof. frame_step. Qed.
Lemma sameLog_set_drawingConfig s0 s c :
  sameLog s0 s -> sameLog s0 (set_drawingConfig c s).
Proof. frame_step. Qed.

Lemma sameLog_alloc s0 s o : sameLog s0 s -> sameLog s0 (alloc o s).2.
Proof. frame_step. Qed.

#[export] Hint Resolve sameLog_refl sameLog_modify sameLog_canvasAdd
  sameLog_canvasRemove sameLog_set_activeObject sameLog_withCanvas
  sameLog_set_heap sameLog_set_activeTool sameLog_set_isDrawing
  sameLog_set_drawStartPoint sameLog_set_currentObject sameLog_set_penPoints
  sameLog_set_lastObjectPosition sameLog_set_controlPoints
  sameLog_set_drawingConfig sameLog_alloc : frame.

(** A loop keeps [sameLog] if its body does. *)
Lemma sameLog_foldl {A} (f : State -> A -> State) l s0 s :
  (forall s x, sameLog s0 s -> sameLog s0 (f s x)) ->
  sameLog s0 s -> sameLog s0 (foldl f s l).
Proof.
  intros Hf. revert s. induction l as [|a l IH]; cbn; intros s Hs; [done|].
  apply IH, Hf, Hs.
Qed.

(** Split every [match] and [if] of the goal, then chain the lemmas. *)
Ltac frame :=
  repeat case_match; subst; cbn [fst snd] in *; eauto 20 with frame.

Section WithLayout.
Context `{FabricLayout}.

Lemma sameLog_removeControlPoints s0 s :
  sameLog s0 s -> sameLog s0 (removeControlPoints s).
Proof.
  intros Hs. unfold removeControlPoints. destruct (fabricCanvas s); [|done].
  apply sameLog_set_controlPoints.
  assert (Hloop : sameLog s0
            (foldl (fun s pt => canvasRemove pt s) s (points (controlPoints s)))).
  { apply sameLog_foldl; auto with frame. }
  frame.
Qed.
#[local] Hint Resolve sameLog_removeControlPoints : frame.

Lemma sameLog_createControlPoints s0 s shapeId :
  sameLog s0 s -> sameLog s0 (createControlPoints shapeId s).
Proof.
  intros Hs. unfold createControlPoints.
  destruct (fabricCanvas s); [|done]. destruct (shapeDataOf s shapeId); [|done].
  destruct (getHandler _ _) as [handler|]; [|frame].
  set (body := fun '(acc, s) def =>
         let '(control, s) := alloc (controlCircle def s1) s in
         (acc ++ [control], canvasAdd control s)).
  assert (Hloop : forall defs acc s',
            sameLog s0 s' -> sameLog s0 (foldl body (acc, s') defs).2).
  { induction defs as [|d defs IH]; intros acc s' Hs'; cbn; [done|].
    apply IH. frame. }
  specialize (Hloop (getControlPoints handler) [] (removeControlPoints s)).
  destruct (foldl body _ _) as [newPoints s']. cbn in Hloop. frame.
Qed.
#[local] Hint Resolve sameLog_createControlPoints : frame.

Lemma sameLog_updateAllControlPoints s0 s shapeId :
  sameLog s0 s -> sameLog s0 (updateAllControlPoints shapeId s).
Proof.
  intros Hs. unfold updateAllControlPoints.
  repeat case_match; try done.
  apply sameLog_foldl; [|done]. intros. frame.
Qed.
#[local] Hint Resolve sameLog_updateAllControlPoints : frame.

Lemma sameLog_handleSelected s0 s objs :
  sameLog s0 s -> sameLog s0 (handleSelected objs s).
Proof.
  intros Hs. unfold handleSelected. apply sameLog_foldl; [|done].
  intros. frame.
Qed.

Lemma sameLog_handleDeselected s0 s objs :
  sameLog s0 s -> sameLog s0 (handleDeselected objs s).
Proof.
  intros Hs. unfold handleDeselected. apply sameLog_removeControlPoints.
  apply sameLog_foldl; [|done]. intros. frame.
Qed.
#[local] Hint Resolve sameLog_handleSelected sameLog_handleDeselected : frame.

Lemma sameLog_discardActiveObject s0 s :
  sameLog s0 s -> sameLog s0 (discardActiveObject s).
Proof.
  intros Hs. unfold discardActiveObject, onSelectionCleared. frame.
Qed.

Lemma sameLog_setActiveObject s0 s obj :
  sameLog s0 s -> sameLog s0 (setActiveObject obj s).
Proof.
  intros Hs.
  unfold setActiveObject, onSelectionCreated, onSelectionUpdated. frame.
Qed.
#[local] Hint Resolve sameLog_discardActiveObject sameLog_setActiveObject : frame.

Lemma sameLog_loadFromJSON s0 s entry :
  sameLog s0 s -> sameLog s0 (loadFromJSON entry s).
Proof.
  intros Hs. unfold loadFromJSON. apply sameLog_foldl; [|frame].
  intros. unfold revive, alloc. frame.
Qed.

#[local] Hint Resolve sameLog_loadFromJSON : frame.

Lemma sameLog_handleMouseDown s0 s pointer target :
  sameLog s0 s -> sameLog s0 (handleMouseDown pointer target s).
Proof. intros Hs. unfold handleMouseDown. frame. Qed.

Lemma sameLog_onMouseDown s0 s target :
  sameLog s0 s -> sameLog s0 (onMouseDown target s).
Proof. intros Hs. unfold onMouseDown. frame. Qed.
#[local] Hint Resolve sameLog_handleMouseDown sameLog_onMouseDown : frame.

Lemma sameLog_fabricMouseDown s0 s pointer target :
  sameLog s0 s -> sameLog s0 (fabricMouseDown pointer target s).
Proof. intros Hs. unfold fabricMouseDown. frame. Qed.

Lemma sameLog_handleMouseMove s0 s pointer :
  sameLog s0 s -> sameLog s0 (handleMouseMove pointer s).
Proof. intros Hs. unfold handleMouseMove, alloc. frame. Qed.

Lemma sameLog_onObjectMoving s0 s obj :
  sameLog s0 s -> sameLog s0 (onObjectMoving obj s).
Proof. intros Hs. unfold onObjectMoving. frame. Qed.

Lemma sameLog_updateShapeFromControl s0 s shapeId control def :
  sameLog s0 s -> sameLog s0 (updateShapeFromControl shapeId control def s).
Proof. intros Hs. unfold updateShapeFromControl. frame. Qed.
#[local] Hint Resolve sameLog_updateShapeFromControl : frame.

Lemma sameLog_onControlMoving s0 s control :
  sameLog s0 s -> sameLog s0 (onControlMoving control s).
Proof. intros Hs. unfold onControlMoving. frame. Qed.
#[local] Hint Resolve sameLog_onObjectMoving sameLog_onControlMoving : frame.

Lemma sameLog_fabricDrag s0 s obj position :
  sameLog s0 s -> sameLog s0 (fabricDrag s obj position).
Proof. intros Hs. unfold fabricDrag. frame. Qed.

Lemma sameLog_setActiveTool s0 s tool :
  sameLog s0 s -> sameLog s0 (setActiveTool tool s).
Proof. intros Hs. unfold setActiveTool. frame. Qed.

End WithLayout.

#[export] Hint Resolve sameLog_removeControlPoints sameLog_createControlPoints
  sameLog_updateAllControlPoints sameLog_handleSelected
  sameLog_handleDeselected sameLog_discardActiveObject sameLog_setActiveObject
  sameLog_loadFromJSON sameLog_handleMouseDown sameLog_onMouseDown
  sameLog_fabricMouseDown sameLog_handleMouseMove sameLog_onObjectMoving
  sameLog_updateShapeFromControl sameLog_onControlMoving sameLog_fabricDrag
  sameLog_setActiveTool : frame.

End FabricCanvasFrame.

(** ** The drawing surface: history *)

Module HistorySpec.
Import Shapes FabricCanvas FabricCanvasFrame.

(** The cursor points at an entry of the log. *)
Definition cursorInRange (s : State) : Prop :=
  (0 <= historyIndex s <= historyLength s - 1)%Z.

(** The entry under the cursor is the persistent object list of the
    canvas. *)
Definition synced (s : State) : Prop :=
  is_Some (fabricCanvas s)
  /\ at_index (history s) (historyIndex s)
     = Some (mkHistoryEntry (persistentObjects s)).

Lemma at_index_Some {A} (l : list A) i a :
  at_index l i = Some a -> (0 <= i < Z.of_nat (length l))%Z.
Proof.
  unfold at_index. destruct (i <? 0)%Z eqn:E; [done|].
  apply Z.ltb_ge in E. intros Hl. apply lookup_lt_Some in Hl. lia.
Qed.

Lemma at_index_is_Some {A} (l : list A) i :
  (0 <= i < Z.of_nat (length l))%Z -> is_Some (at_index l i).
Proof.
  intros Hi. unfold at_index. destruct (i <? 0)%Z eqn:E; [lia|].
  apply lookup_lt_is_Some. lia.
Qed.


Lemma synced_cursorInRange s : synced s -> cursorInRange s.
Proof.
  intros [_ Hat]. apply at_index_Some in Hat.
  unfold cursorInRange, historyLength. lia.
Qed.

(** *** Serialization *)

Lemma toObject_idemp o : toObject (toObject o) = toObject o.
Proof. reflexivity. Qed.


(** *** Loading an entry *)

Lemma lookup_fresh (h e : list FabricObject) :
  omap (fun obj => (h ++ e) !! obj) (seq (length h) (length e)) = e.
Proof.
  revert h. induction e as [|o e IH]; intros h; [done|].
  cbn [length seq]. change (omap ?f (?a :: ?l)) with
    (match f a with Some y => y :: omap f l | None => omap f l end).
  cbv beta. rewrite lookup_app_r, Nat.sub_diag by lia. cbn [lookup list_lookup].
  f_equal. specialize (IH (h ++ [o])).
  rewrite length_app, <- app_assoc in IH. cbn [length app] in IH.
  by rewrite Nat.add_1_r in IH.
Qed.

Lemma load_loop entry : forall s c,
  fabricCanvas s = Some c ->
  exists c',
    fabricCanvas (foldl revive s entry) = Some c'
    /\ objects c' = objects c ++ seq (length (heap s)) (length entry)
    /\ heap (foldl revive s entry) = heap s ++ entry.
Proof.
  induction entry as [|o entry IH]; intros s c Hc.
  - exists c. cbn. by rewrite !app_nil_r.
  - cbn [foldl].
    edestruct (IH (revive s o)) as (c' & Hc' & Hobj & Hheap).
    { cbn. rewrite Hc. reflexivity. }
    exists c'. split; [exact Hc'|]. split.
    + rewrite Hobj. cbn. rewrite length_app. cbn.
      rewrite <- app_assoc, Nat.add_1_r. reflexivity.
    + rewrite Hheap. cbn. by rewrite <- app_assoc.
Qed.

(** After loadFromJSON the canvas holds exactly the objects of the entry. *)
Lemma loadFromJSON_objects s entry :
  is_Some (fabricCanvas s) -> canvasObjects (loadFromJSON entry s) = entry.
Proof.
  intros Hc. unfold loadFromJSON.
  set (s1 := discardActiveObject s).
  assert (Hc1 : is_Some (fabricCanvas s1)).
  { apply (sameLog_discardActiveObject s s (sameLog_refl s)), Hc. }
  destruct Hc1 as [c1 Hc1].
  set (s2 := withCanvas _ s1).
  assert (Hc2 : fabricCanvas s2 = Some (mkCanvas [] None (width c1) (height c1))).
  { subst s2. unfold withCanvas. cbn. by rewrite Hc1. }
  destruct (load_loop entry s2 _ Hc2) as (c' & Hc' & Hobj & Hheap).
  unfold canvasObjects. rewrite Hc', Hobj, Hheap. cbn [objects app].
  apply lookup_fresh.
Qed.

(** *** saveHistory *)

(** The entries saveHistory keeps before it pushes. *)
Definition kept (s : State) : list HistoryEntry :=
  if (historyIndex s <? Z.of_nat (length (history s)) - 1)%Z
  then slice0 (history s) (historyIndex s + 1)
  else history s.

Lemma saveHistory_spec s :
  is_Some (fabricCanvas s) ->
  history (saveHistory s) = kept s ++ [mkHistoryEntry (persistentObjects s)]
  /\ historyIndex (saveHistory s)
     = (Z.of_nat (length (kept s ++ [mkHistoryEntry (persistentObjects s)])) - 1)%Z
  /\ heap (saveHistory s) = heap s
  /\ fabricCanvas (saveHistory s) = fabricCanvas s
  /\ controlPoints (saveHistory s) = controlPoints s
  /\ isLoadingHistory (saveHistory s) = isLoadingHistory s.
Proof.
  intros [c Hc]. unfold saveHistory, kept. rewrite Hc.
  destruct (historyIndex s <? _)%Z; cbn; repeat split; done.
Qed.

Lemma kept_take s :
  (-1 <= historyIndex s)%Z ->
  kept s = take (Z.to_nat (historyIndex s + 1)) (history s).
Proof.
  intros Hi. unfold kept, slice0.
  destruct (historyIndex s <? _)%Z eqn:E.
  - apply Z.ltb_lt in E.
    destruct (historyIndex s + 1 <? 0)%Z eqn:E'; [lia|].
    f_equal. lia.
  - apply Z.ltb_ge in E. symmetry. apply take_ge. lia.
Qed.

Lemma persistentObjects_ext s s' :
  heap s' = heap s -> fabricCanvas s' = fabricCanvas s ->
  persistentObjects s' = persistentObjects s.
Proof.
  intros Hh Hc. unfold persistentObjects, canvasObjects. by rewrite Hh, Hc.
Qed.



(** *** undo and redo *)

Lemma reload_spec s entry :
  is_Some (fabricCanvas s) ->
  history (set_isLoadingHistory false (loadFromJSON entry s)) = history s
  /\ historyIndex (set_isLoadingHistory false (loadFromJSON entry s))
     = historyIndex s
  /\ isLoadingHistory (set_isLoadingHistory false (loadFromJSON entry s)) = false
  /\ is_Some (fabricCanvas (set_isLoadingHistory false (loadFromJSON entry s)))
  /\ canvasObjects (set_isLoadingHistory false (loadFromJSON entry s)) = entry.
Proof.
  intros Hc.
  destruct (sameLog_loadFromJSON s s entry (sameLog_refl s)) as (Hl & Hi & _ & Hcv).
  repeat split; cbn; try done.
  - by apply Hcv.
  - by apply (loadFromJSON_objects s entry).
Qed.

Lemma undo_step s entry :
  is_Some (fabricCanvas s) -> (0 < historyIndex s)%Z ->
  at_index (history s) (historyIndex s - 1) = Some entry ->
  history (undo s) = history s
  /\ historyIndex (undo s) = (historyIndex s - 1)%Z
  /\ isLoadingHistory (undo s) = false
  /\ is_Some (fabricCanvas (undo s))
  /\ canvasObjects (undo s) = json entry.
Proof.
  intros Hc Hi Hentry. unfold undo. destruct Hc as [c Hc]. rewrite Hc.
  destruct (historyIndex s <=? 0)%Z eqn:E; [lia|].
  cbn [history historyIndex set_historyIndex set_isLoadingHistory].
  rewrite Hentry.
  apply (reload_spec
           (set_historyIndex (historyIndex s - 1) (set_isLoadingHistory true s))).
  cbn. by rewrite Hc.
Qed.

Lemma redo_step s entry :
  is_Some (fabricCanvas s) ->
  (historyIndex s < Z.of_nat (length (history s)) - 1)%Z ->
  at_index (history s) (historyIndex s + 1) = Some entry ->
  history (redo s) = history s
  /\ historyIndex (redo s) = (historyIndex s + 1)%Z
  /\ isLoadingHistory (redo s) = false
  /\ is_Some (fabricCanvas (redo s))
  /\ canvasObjects (redo s) = json entry.
Proof.
  intros Hc Hi Hentry. unfold redo. destruct Hc as [c Hc]. rewrite Hc.
  destruct (_ <=? historyIndex s)%Z eqn:E; [lia|].
  cbn [history historyIndex set_historyIndex set_isLoadingHistory].
  rewrite Hentry.
  apply (reload_spec
           (set_historyIndex (historyIndex s + 1) (set_isLoadingHistory true s))).
  cbn. by rewrite Hc.
Qed.


(** The log and the cursor after saveHistory, on a surface with a canvas
    and a cursor at -1 or above. *)
Lemma saveHistory_log s :
  is_Some (fabricCanvas s) -> (-1 <= historyIndex s)%Z ->
  history (saveHistory s)
  = take (Z.to_nat (historyIndex s + 1)) (history s)
    ++ [mkHistoryEntry (persistentObjects s)]
  /\ historyIndex (saveHistory s)
     = (Z.min (historyIndex s + 1) (historyLength s))%Z.
Proof.
  intros Hc Hi.
  destruct (saveHistory_spec s Hc) as (Hl & Hidx & _).
  rewrite kept_take in Hl, Hidx by done. split; [exact Hl|].
  rewrite Hidx, length_app, length_take. unfold historyLength. cbn [length]. lia.
Qed.

(** C3: every call of saveHistory on an initialized surface (as after a
    completed shape or any other mutation that pushes history) appends
    exactly one entry, the serialized canvas, after discarding the entries
    behind the cursor, so that the log is the entries up to and including
    the cursor followed by the new one; afterwards historyIndex is
    historyLength - 1. *)
Theorem saveHistory_appends s c :
  fabricCanvas s = Some c -> (-1 <= historyIndex s)%Z ->
  history (saveHistory s)
  = take (Z.to_nat (historyIndex s + 1)) (history s)
    ++ [mkHistoryEntry (persistentObjects s)]
  /\ historyLength (saveHistory s)
     = (Z.min (historyIndex s + 1) (historyLength s) + 1)%Z
  /\ historyIndex (saveHistory s) = (historyLength (saveHistory s) - 1)%Z.
Proof.
  intros Hc Hi.
  destruct (saveHistory_log s) as [Hl Hidx]; [by rewrite Hc|done|].
  assert (Hlen : historyLength (saveHistory s)
                 = (Z.min (historyIndex s + 1) (historyLength s) + 1)%Z).
  { unfold historyLength. rewrite Hl, length_app, length_take. cbn [length]. lia. }
  split; [exact Hl|]. split; [exact Hlen|]. rewrite Hidx, Hlen. lia.
Qed.

(** C10: once the cursor points into the log of an initialized surface (as
    it does after the first saveHistory), undo, redo and saveHistory keep
    0 <= historyIndex <= historyLength - 1; undo does nothing when
    historyIndex <= 0 and redo nothing when historyIndex >= historyLength -
    1; saveHistory leaves the cursor on the last entry; and the baseline
    entry stays the first of the log: undo and redo do not touch the log,
    and saveHistory keeps its head. *)
Theorem cursor_invariant s c :
  fabricCanvas s = Some c -> cursorInRange s ->
  (cursorInRange (undo s) /\ cursorInRange (redo s)
   /\ cursorInRange (saveHistory s))
  /\ ((historyIndex s <= 0)%Z -> undo s = s)
  /\ ((historyLength s - 1 <= historyIndex s)%Z -> redo s = s)
  /\ historyIndex (saveHistory s) = (historyLength (saveHistory s) - 1)%Z
  /\ (history (undo s) = history s /\ history (redo s) = history s
      /\ head (history (saveHistory s)) = head (history s)).
Proof.
  intros Hc [Hlo Hhi]. unfold historyLength in Hhi.
  assert (Hcanvas : is_Some (fabricCanvas s)) by (by rewrite Hc).
  assert (Hundo : (historyIndex s <= 0)%Z -> undo s = s).
  { intros Hz. unfold undo. rewrite Hc.
    destruct (historyIndex s <=? 0)%Z eqn:E; [done|lia]. }
  assert (Hredo : (historyLength s - 1 <= historyIndex s)%Z -> redo s = s).
  { unfold historyLength. intros Hz. unfold redo. rewrite Hc.
    destruct (_ <=? historyIndex s)%Z eqn:E; [done|lia]. }
  assert (Hu : cursorInRange (undo s) /\ history (undo s) = history s).
  { destruct (decide (historyIndex s <= 0)%Z) as [Hz|Hz].
    - rewrite Hundo by done. by split.
    - destruct (at_index_is_Some (history s) (historyIndex s - 1)) as [e He]; [lia|].
      destruct (undo_step s e) as (Hl & Hi & _); [done|lia|done|].
      split; [|done]. unfold cursorInRange, historyLength. rewrite Hl, Hi. lia. }
  assert (Hr : cursorInRange (redo s) /\ history (redo s) = history s).
  { destruct (decide (historyLength s - 1 <= historyIndex s)%Z) as [Hz|Hz].
    - rewrite Hredo by done. by split.
    - unfold historyLength in Hz.
      destruct (at_index_is_Some (history s) (historyIndex s + 1)) as [e He]; [lia|].
      destruct (redo_step s e) as (Hl & Hi & _); [done|lia|done|].
      split; [|done]. unfold cursorInRange, historyLength. rewrite Hl, Hi. lia. }
  destruct (saveHistory_log s Hcanvas) as [Hl Hidx]; [lia|].
  assert (Hlen : historyLength (saveHistory s)
                 = (Z.min (historyIndex s + 1) (historyLength s) + 1)%Z).
  { unfold historyLength. rewrite Hl, length_app, length_take. cbn [length]. lia. }
  repeat split; try tauto; try apply Hu; try apply Hr.
  - rewrite Hidx. unfold historyLength. lia.
  - rewrite Hidx, Hlen. lia.
  - rewrite Hidx, Hlen. lia.
  - rewrite Hl. destruct (history s) as [|e0 l] eqn:El; [cbn in Hhi; lia|].
    replace (Z.to_nat (historyIndex s + 1)) with (S (Z.to_nat (historyIndex s))) by lia.
    reflexivity.
Qed.

(** *** Operations end on a pushed entry *)

Section WithLayout.
Context `{FabricLayout}.


Lemma sameLog_createClickedText s0 s :
  sameLog s0 s -> sameLog s0 (createClickedText s).
Proof. intros Hs. unfold createClickedText, alloc. frame. Qed.

(** With the text tool, createClickedText always leaves an object to
    commit. *)
Lemma createClickedText_current s :
  is_Some (currentObject s) \/ activeTool s = Some text ->
  is_Some (currentObject (createClickedText s)).
Proof.
  unfold createClickedText.
  destruct (currentObject s) as [current|] eqn:Hcur.
  - intros _. rewrite Hcur. eauto.
  - intros [[? ?]|Htool]; [done|]. rewrite Htool.
    rewrite ShapesSpec.getHandler_text. cbn. eauto.
Qed.

Lemma createClickedText_idle s :
  currentObject (createClickedText s) = None -> createClickedText s = s.
Proof.
  unfold createClickedText.
  destruct (currentObject s) as [current|] eqn:Hcur; [done|].
  destruct (activeTool s) as [[]|]; try done.
  all: rewrite ShapesSpec.getHandler_text; cbn; done.
Qed.








End WithLayout.



(** The surface of 300 x 200 pixels right after it was opened: an empty
    canvas and its baseline entry. *)
Definition opened : State :=
  openSurface 300 200 (initialState defaultDrawingConfig).

Lemma saveHistory_appends_witness :
  history (saveHistory opened)
  = take (Z.to_nat (historyIndex opened + 1)) (history opened)
    ++ [mkHistoryEntry (persistentObjects opened)]
  /\ historyLength (saveHistory opened)
     = (Z.min (historyIndex opened + 1) (historyLength opened) + 1)%Z
  /\ historyIndex (saveHistory opened)
     = (historyLength (saveHistory opened) - 1)%Z.
Proof.
  apply (saveHistory_appends opened (mkCanvas [] None 300 200)).
  - reflexivity.
  - cbv -[IZR]. discriminate.
Defined.

Lemma cursor_invariant_witness :
  (cursorInRange (undo opened) /\ cursorInRange (redo opened)
   /\ cursorInRange (saveHistory opened))
  /\ ((historyIndex opened <= 0)%Z -> undo opened = opened)
  /\ ((historyLength opened - 1 <= historyIndex opened)%Z
      -> redo opened = opened)
  /\ historyIndex (saveHistory opened)
     = (historyLength (saveHistory opened) - 1)%Z
  /\ (history (undo opened) = history opened
      /\ history (redo opened) = history opened
      /\ head (history (saveHistory opened)) = head (history opened)).
Proof.
  apply (cursor_invariant opened (mkCanvas [] None 300 200)).
  - reflexivity.
  - unfold cursorInRange, historyLength. cbv -[IZR]. split; discriminate.
Defined.

End HistorySpec.

(** ** The drawing surface: export *)

Module ExportSpec.
Import Shapes FabricCanvas.
Local Open Scope R_scope.

(** [controls.forEach((c) => (c.visible = v))], on the store. *)
Definition setVisibleAll (v : bool) (controls : list ObjId)
    (h : list FabricObject) : list FabricObject :=
  foldl (fun h c => alter (set_visible v) c h) h controls.

Lemma modify_loop v controls : forall s,
  foldl (fun s c => modify c (set_visible v) s) s controls
  = set_heap (setVisibleAll v controls (heap s)) s.
Proof.
  induction controls as [|c controls IH]; intros s; cbn.
  - by destruct s.
  - rewrite IH. reflexivity.
Qed.

Lemma setVisibleAll_lookup v controls : forall h obj,
  setVisibleAll v controls h !! obj
  = if decide (obj ∈ controls) then set_visible v <$> h !! obj else h !! obj.
Proof.
  induction controls as [|c controls IH]; intros h obj; cbn.
  - rewrite decide_False; [done|]. apply not_elem_of_nil.
  - unfold setVisibleAll in IH. rewrite IH.
    destruct (decide (obj = c)) as [->|Hne].
    + rewrite list_lookup_alter_eq.
      rewrite (decide_True (P := c ∈ c :: controls)) by (apply elem_of_cons; by left).
      case_decide; [|done].
      by destruct (h !! c).
    + rewrite list_lookup_alter_ne by done.
      repeat case_decide; try done.
      * exfalso. rewrite elem_of_cons in *. tauto.
      * exfalso. rewrite elem_of_cons in *. tauto.
Qed.

Lemma set_heap_same s : set_heap (heap s) s = s.
Proof. by destruct s. Qed.

(** The store after the two loops of toDataURL. *)
Lemma shown_lookup (controls : list ObjId) (h : list FabricObject) obj :
  setVisibleAll true controls (setVisibleAll false controls h) !! obj
  = if decide (obj ∈ controls) then set_visible true <$> h !! obj else h !! obj.
Proof.
  rewrite !setVisibleAll_lookup. case_decide; [|done]. by destruct (h !! obj).
Qed.

(** toDataURL changes nothing if the control points were visible. *)
Lemma toDataURL_unchanged s fmt q :
  (forall obj o, obj ∈ points (controlPoints s) ->
     heap s !! obj = Some o -> visible o = true) ->
  (toDataURL fmt q s).2 = s.
Proof.
  intros Hvis. unfold toDataURL. destruct (fabricCanvas s); [|done].
  rewrite !modify_loop. cbn [snd heap set_heap controlPoints].
  assert (Hsame : setVisibleAll true (points (controlPoints s))
                    (setVisibleAll false (points (controlPoints s)) (heap s))
                  = heap s).
  { apply list_eq. intros obj. rewrite shown_lookup.
    case_decide as Hctl; [|done].
    destruct (heap s !! obj) as [o|] eqn:E; [|done]. cbn. f_equal.
    specialize (Hvis obj o Hctl E). destruct o; cbn in *. by subst. }
  rewrite Hsame. by destruct s.
Qed.

(** C8: on every surface with a canvas, toDataURL rasterizes with
    multiplier 1 and the format and quality it was given; the objects
    that go into the image are the visible objects of the canvas other
    than the control points, each as it was before the call, so no control
    point appears in it; afterwards every control point is visible again,
    no other object and no other property has changed, and the canvas, the
    control-point set and the history are as before.  When the control
    points were visible before the call, as createControlPoints makes
    them, the whole state is unchanged. *)
Theorem toDataURL_hides_control_points s c fmt q :
  fabricCanvas s = Some c ->
  exists url s',
    toDataURL fmt q s = (Some url, s')
    /\ (multiplier url = 1 /\ format url = fmt /\ quality url = q)
    /\ (forall obj o,
          (obj, o) ∈ painted url
          <-> obj ∈ objects c /\ heap s !! obj = Some o /\ visible o = true
              /\ obj ∉ points (controlPoints s))
    /\ (forall obj,
          heap s' !! obj
          = if decide (obj ∈ points (controlPoints s))
            then set_visible true <$> heap s !! obj
            else heap s !! obj)
    /\ (fabricCanvas s' = fabricCanvas s /\ controlPoints s' = controlPoints s
        /\ history s' = history s /\ historyIndex s' = historyIndex s)
    /\ ((forall obj o, obj ∈ points (controlPoints s) ->
           heap s !! obj = Some o -> visible o = true)
        -> s' = s).
Proof.
  intros Hc. unfold toDataURL. rewrite Hc.
  set (controls := points (controlPoints s)).
  rewrite !modify_loop. cbn [heap set_heap].
  set (hidden := setVisibleAll false controls (heap s)).
  set (shown := setVisibleAll true controls hidden).
  assert (Hshown : forall obj,
            shown !! obj
            = if decide (obj ∈ controls) then set_visible true <$> heap s !! obj
              else heap s !! obj).
  { intros obj. subst shown hidden. apply shown_lookup. }
  eexists _, _. split; [reflexivity|].
  split; [done|]. split; [|split; [|split]].
  - intros obj o. unfold renderAll. cbn [fabricCanvas set_heap heap painted].
    rewrite Hc. rewrite list_elem_of_filter, list_elem_of_omap. cbn [snd].
    subst hidden. split.
    + intros (Hvis & obj' & Hin & Hlook).
      rewrite setVisibleAll_lookup in Hlook.
      case_decide as Hctl.
      * destruct (heap s !! obj'); [|done]. cbn in Hlook.
        injection Hlook as <- <-. done.
      * destruct (heap s !! obj') eqn:E; [|done]. cbn in Hlook.
        injection Hlook as <- <-. done.
    + intros (Hin & Hlook & Hvis & Hctl). split; [done|].
      exists obj. split; [done|].
      rewrite setVisibleAll_lookup, decide_False by done. by rewrite Hlook.
  - exact Hshown.
  - done.
  - intros Hvis. pose proof (toDataURL_unchanged s fmt q Hvis) as Hsame.
    unfold toDataURL in Hsame. rewrite Hc, !modify_loop in Hsame.
    exact Hsame.
Qed.

(** A surface of 300 x 200 pixels with one rectangle from (10, 10) to
    (60, 50), selected, so that its four corner handles are on display. *)
Definition withHandles : State :=
  let rectangle :=
    set_shapeData (Some (RectShapeData 10 10 60 50))
      (createPath (@RectHandler ShapesSpec.originLayout)
         (RectShapeData 10 10 60 50) defaultDrawingConfig) in
  let '(obj, s) :=
    alloc rectangle (initCanvas 300 200 (initialState defaultDrawingConfig)) in
  @setActiveObject ShapesSpec.originLayout obj (canvasAdd obj s).

(** Evaluate the state machine, the real numbers left as they are. *)
Ltac eval_state :=
  cbv -[IZR Rmin Rmax Rabs Rplus Rminus Rmult Rdiv Rinv Ropp Rlt_dec Rle_dec
        Req_dec_T sqrt cos sin atan PI].
Ltac eval_state_in H :=
  cbv -[IZR Rmin Rmax Rabs Rplus Rminus Rmult Rdiv Rinv Ropp Rlt_dec Rle_dec
        Req_dec_T sqrt cos sin atan PI] in H.

Lemma toDataURL_hides_control_points_witness :
  points (controlPoints withHandles) = [1; 2; 3; 4]%nat
  /\ exists url,
       toDataURL "png" 1 withHandles = (Some url, withHandles)
       /\ multiplier url = 1
       /\ fst <$> painted url = [0%nat].
Proof.
  split; [reflexivity|].
  destruct (toDataURL_hides_control_points withHandles
              (mkCanvas [0; 1; 2; 3; 4]%nat (Some 0%nat) 300 200) "png" 1)
    as (url & s' & Hcall & (Hmult & _) & Hpainted & _ & _ & Hsame).
  { reflexivity. }
  rewrite Hsame in Hcall.
  - exists url. split; [exact Hcall|]. split; [exact Hmult|].
    injection Hcall as <-. eval_state. reflexivity.
  - intros obj o Hin. eval_state_in Hin.
    repeat (apply elem_of_cons in Hin as [->|Hin]);
      [| | | |by apply elem_of_nil in Hin];
      eval_state; intros [= <-]; reflexivity.
Defined.

End ExportSpec.

(** ** The drawing surface: invariants of the reachable states *)

Module SurfaceInvariants.
Import Shapes FabricCanvas FabricCanvasFrame HistorySpec ExportSpec.
Local Open Scope R_scope.

(** An update of an object that leaves its [visible] flag and its
    [isControlPoint] mark alone. *)
Definition paintOnly (f : FabricObject -> FabricObject) : Prop :=
  forall o, visible (f o) = visible o /\ isControlPoint (f o) = isControlPoint o.

Ltac solve_paint :=
  let o := fresh "o" in
  intros o; destruct o as [[] ? ? ? ? ? ? ? ? ? ?];
  cbn; repeat case_match; cbn; done.

Create HintDb pres discriminated.
#[export] Hint Constants Opaque : pres.
#[export] Hint Variables Opaque : pres.
#[export] Hint Extern 1 (paintOnly _) => solve_paint : pres.

(** A predicate that only looks at the store, the canvas, the log, the
    cursor and the control points. *)
Definition extensional (P : State -> Prop) : Prop :=
  forall s s',
    heap s' = heap s -> fabricCanvas s' = fabricCanvas s ->
    history s' = history s -> historyIndex s' = historyIndex s ->
    controlPoints s' = controlPoints s -> P s -> P s'.

(** A predicate that survives the creation of an object. *)
Definition allocStable (P : State -> Prop) : Prop :=
  forall s o, P s -> P (alloc o s).2.

(** *** Handlers preserve what their building blocks preserve *)

Section Preservation.
Context `{FabricLayout}.
Variable P : State -> Prop.

Hypothesis P_store : extensional P /\ allocStable P.
Hypothesis P_modify : forall s obj f, paintOnly f -> P s -> P (modify obj f s).
Hypothesis P_withCanvas : forall s f, P s -> P (withCanvas f s).
Hypothesis P_removeControlPoints : forall s, P s -> P (removeControlPoints s).
Hypothesis P_createControlPoints : forall s obj,
  P s -> P (createControlPoints obj s).
Hypothesis P_saveHistory : forall s, P s -> P (saveHistory s).

Lemma P_ext s s' :
  heap s' = heap s -> fabricCanvas s' = fabricCanvas s ->
  history s' = history s -> historyIndex s' = historyIndex s ->
  controlPoints s' = controlPoints s -> P s -> P s'.
Proof. apply P_store. Qed.

Lemma P_set_activeTool s t : P s -> P (set_activeTool t s).
Proof. by apply P_ext. Qed.
Lemma P_set_isDrawing s b : P s -> P (set_isDrawing b s).
Proof. by apply P_ext. Qed.
Lemma P_set_drawStartPoint s p : P s -> P (set_drawStartPoint p s).
Proof. by apply P_ext. Qed.
Lemma P_set_currentObject s o : P s -> P (set_currentObject o s).
Proof. by apply P_ext. Qed.
Lemma P_set_penPoints s l : P s -> P (set_penPoints l s).
Proof. by apply P_ext. Qed.
Lemma P_set_lastObjectPosition s p : P s -> P (set_lastObjectPosition p s).
Proof. by apply P_ext. Qed.
Lemma P_set_drawingConfig s c : P s -> P (set_drawingConfig c s).
Proof. by apply P_ext. Qed.
Lemma P_set_isLoadingHistory s b : P s -> P (set_isLoadingHistory b s).
Proof. by apply P_ext. Qed.
Lemma P_grow s o : P s -> P (set_heap (heap s ++ [o]) s).
Proof. apply (proj2 P_store s o). Qed.
Lemma P_canvasAdd s obj : P s -> P (canvasAdd obj s).
Proof. apply P_withCanvas. Qed.
Lemma P_canvasRemove s obj : P s -> P (canvasRemove obj s).
Proof. apply P_withCanvas. Qed.
Lemma P_set_activeObject s a : P s -> P (set_activeObject a s).
Proof. apply P_withCanvas. Qed.

#[local] Hint Resolve P_modify P_grow P_withCanvas P_removeControlPoints
  P_createControlPoints P_saveHistory P_set_activeTool P_set_isDrawing
  P_set_drawStartPoint P_set_currentObject P_set_penPoints
  P_set_lastObjectPosition P_set_drawingConfig P_set_isLoadingHistory
  P_canvasAdd P_canvasRemove P_set_activeObject : pres.

Ltac pres :=
  repeat case_match; subst; cbn [fst snd] in *; eauto 20 with pres.

Lemma P_foldl {A} (f : State -> A -> State) l s :
  (forall s x, P s -> P (f s x)) -> P s -> P (foldl f s l).
Proof.
  intros Hf. revert s. induction l as [|a l IH]; cbn; intros s Hs; [done|].
  apply IH, Hf, Hs.
Qed.

Lemma P_updateAllControlPoints s obj : P s -> P (updateAllControlPoints obj s).
Proof.
  intros Hs. unfold updateAllControlPoints. repeat case_match; try done.
  apply P_foldl; [|done]. intros. pres.
Qed.
#[local] Hint Resolve P_updateAllControlPoints : pres.

Lemma P_handleSelected s objs : P s -> P (handleSelected objs s).
Proof. intros Hs. unfold handleSelected. apply P_foldl; [|done]. intros. pres. Qed.

Lemma P_handleDeselected s objs : P s -> P (handleDeselected objs s).
Proof.
  intros Hs. unfold handleDeselected. apply P_removeControlPoints.
  apply P_foldl; [|done]. intros. pres.
Qed.
#[local] Hint Resolve P_handleSelected P_handleDeselected : pres.

Lemma P_discardActiveObject s : P s -> P (discardActiveObject s).
Proof. intros Hs. unfold discardActiveObject, onSelectionCleared. pres. Qed.

Lemma P_setActiveObject s obj : P s -> P (setActiveObject obj s).
Proof.
  intros Hs. unfold setActiveObject, onSelectionCreated, onSelectionUpdated.
  pres.
Qed.
#[local] Hint Resolve P_discardActiveObject P_setActiveObject : pres.

Lemma P_loadFromJSON s entry : P s -> P (loadFromJSON entry s).
Proof.
  intros Hs. unfold loadFromJSON. apply P_foldl; [|pres].
  intros. unfold revive, alloc. pres.
Qed.

Lemma P_handleMouseDown s pointer target :
  P s -> P (handleMouseDown pointer target s).
Proof. intros Hs. unfold handleMouseDown. pres. Qed.

Lemma P_onMouseDown s target : P s -> P (onMouseDown target s).
Proof. intros Hs. unfold onMouseDown. pres. Qed.
#[local] Hint Resolve P_loadFromJSON P_handleMouseDown P_onMouseDown : pres.

Lemma P_fabricMouseDown s pointer target :
  P s -> P (fabricMouseDown pointer target s).
Proof. intros Hs. unfold fabricMouseDown. pres. Qed.

Lemma P_handleMouseMove s pointer : P s -> P (handleMouseMove pointer s).
Proof. intros Hs. unfold handleMouseMove, alloc. pres. Qed.

Lemma P_onObjectMoving s obj : P s -> P (onObjectMoving obj s).
Proof. intros Hs. unfold onObjectMoving. pres. Qed.

Lemma P_updateShapeFromControl s shapeId control def :
  P s -> P (updateShapeFromControl shapeId control def s).
Proof. intros Hs. unfold updateShapeFromControl. pres. Qed.
#[local] Hint Resolve P_updateShapeFromControl : pres.

Lemma P_onControlMoving s control : P s -> P (onControlMoving control s).
Proof. intros Hs. unfold onControlMoving. pres. Qed.
#[local] Hint Resolve P_onObjectMoving P_onControlMoving : pres.

Lemma P_fabricDrag s obj position : P s -> P (fabricDrag s obj position).
Proof. intros Hs. unfold fabricDrag. pres. Qed.

Lemma P_setActiveTool s tool : P s -> P (setActiveTool tool s).
Proof. intros Hs. unfold setActiveTool. pres. Qed.

Lemma P_createClickedText s : P s -> P (createClickedText s).
Proof. intros Hs. unfold createClickedText, alloc. pres. Qed.

Lemma P_commitCurrentObject s : P s -> P (commitCurrentObject s).
Proof. intros Hs. unfold commitCurrentObject. pres. Qed.
#[local] Hint Resolve P_createClickedText P_commitCurrentObject : pres.

Lemma P_handleMouseUp s : P s -> P (handleMouseUp s).
Proof. intros Hs. unfold handleMouseUp. pres. Qed.

Lemma P_onObjectModified s target : P s -> P (onObjectModified target s).
Proof. intros Hs. unfold onObjectModified. pres. Qed.
#[local] Hint Resolve P_handleMouseUp P_onObjectModified : pres.

Lemma P_fabricMouseUp s dragged : P s -> P (fabricMouseUp dragged s).
Proof. intros Hs. unfold fabricMouseUp. pres. Qed.

Lemma P_fabricRemove s obj : P s -> P (fabricRemove s obj).
Proof. intros Hs. unfold fabricRemove, onSelectionCleared. pres. Qed.
#[local] Hint Resolve P_fabricRemove : pres.

Lemma P_addObject s o : P s -> P (addObject o s).
Proof. intros Hs. unfold addObject, alloc. pres. Qed.

Lemma P_clearObjects s : P s -> P (clearObjects s).
Proof.
  intros Hs. unfold clearObjects. case_match; [|done].
  apply P_foldl; [|done]. intros. pres.
Qed.

Lemma P_setStrokeColor s color : P s -> P (setStrokeColor color s).
Proof. intros Hs. unfold setStrokeColor. pres. Qed.

Lemma P_setStrokeWidth s w : P s -> P (setStrokeWidth w s).
Proof. intros Hs. unfold setStrokeWidth. pres. Qed.

(** What is left to show for each invariant on its own: the functions that
    replace the canvas, move the cursor or toggle visibility. *)
Hypothesis P_initCanvas : forall s w h, P s -> P (initCanvas w h s).
Hypothesis P_dispose : forall s, P s -> P (dispose s).
Hypothesis P_undo : forall s, P s -> P (undo s).
Hypothesis P_redo : forall s, P s -> P (redo s).
Hypothesis P_resetHistory : forall s, P s -> P (resetHistory s).
Hypothesis P_toDataURL : forall s fmt q, P s -> P (toDataURL fmt q s).2.
Hypothesis P_initial : forall config, P (initialState config).

Lemma P_step e s : P s -> P (step e s).
Proof.
  destruct e; cbn [step];
    eauto using P_fabricMouseDown, P_handleMouseMove, P_fabricDrag,
      P_fabricMouseUp, P_addObject, P_fabricRemove, P_clearObjects,
      P_setActiveTool, P_setStrokeColor, P_setStrokeWidth with pres.
Qed.

Lemma P_reachable s : reachable s -> P s.
Proof. induction 1; [apply P_initial|by apply P_step]. Qed.

End Preservation.

(** *** The cursor stays in the log *)

(** The cursor is -1 (empty log) or points at an entry, and there is no
    log without a canvas. *)
Definition logInv (s : State) : Prop :=
  (-1 <= historyIndex s <= historyLength s - 1)%Z
  /\ (fabricCanvas s = None -> history s = []).

Lemma logInv_ext s s' :
  history s' = history s -> historyIndex s' = historyIndex s ->
  (fabricCanvas s' = None -> fabricCanvas s = None) ->
  logInv s -> logInv s'.
Proof.
  intros Hl Hi Hc [Hrange Hnone]. unfold logInv, historyLength in *.
  rewrite Hl, Hi. split; [done|]. intros Hn. apply Hnone, Hc, Hn.
Qed.

Lemma logInv_sameLog s s' : sameLog s s' -> logInv s -> logInv s'.
Proof.
  intros (Hl & Hi & _ & Hc). apply logInv_ext; [done..|].
  intros Hn. destruct (fabricCanvas s) eqn:E; [|done].
  destruct (proj2 Hc) as [c' Hc']; [eauto|congruence].
Qed.

Lemma logInv_saveHistory s : logInv s -> logInv (saveHistory s).
Proof.
  intros [Hrange Hnone].
  destruct (fabricCanvas s) as [c|] eqn:Hc.
  - destruct (saveHistory_spec s) as (Hl & Hi & _ & Hcv & _); [by rewrite Hc|].
    split.
    + unfold historyLength. rewrite Hi, Hl. rewrite !length_app. cbn [length]. lia.
    + rewrite Hcv, Hc. done.
  - unfold saveHistory. rewrite Hc. split; [done|]. intros _. by apply Hnone.
Qed.

Lemma logInv_reload s entry :
  logInv s -> logInv (set_isLoadingHistory false (loadFromJSON entry s)).
Proof.
  intros Hs.
  destruct (sameLog_loadFromJSON s s entry (sameLog_refl s)) as (Hl & Hi & _ & Hc).
  apply (logInv_ext s); cbn; try done.
  intros Hn. destruct (fabricCanvas s) eqn:E; [|done].
  destruct (proj2 Hc) as [c' Hc']; [eauto|congruence].
Qed.

Lemma logInv_undo s : logInv s -> logInv (undo s).
Proof.
  intros Hs. unfold undo. destruct (fabricCanvas s) as [c|] eqn:Hc; [|done].
  destruct (historyIndex s <=? 0)%Z eqn:E; [done|]. apply Z.leb_gt in E.
  assert (Hs' : logInv (set_historyIndex (historyIndex s - 1)
                          (set_isLoadingHistory true s))).
  { destruct Hs as [Hrange Hnone]. split; cbn; [|done].
    unfold historyLength in *. cbn. lia. }
  case_match; [by apply logInv_reload|done].
Qed.

Lemma logInv_redo s : logInv s -> logInv (redo s).
Proof.
  intros Hs. unfold redo. destruct (fabricCanvas s) as [c|] eqn:Hc; [|done].
  destruct (_ <=? historyIndex s)%Z eqn:E; [done|]. apply Z.leb_gt in E.
  assert (Hs' : logInv (set_historyIndex (historyIndex s + 1)
                          (set_isLoadingHistory true s))).
  { destruct Hs as [Hrange Hnone]. split; cbn; [|done].
    unfold historyLength in *. cbn. lia. }
  case_match; [by apply logInv_reload|done].
Qed.

(** *** Control points are visible circles *)

(** Every handle on display is an object of the store, marked as a
    control point and visible. *)
Definition visibleControl (s : State) (obj : ObjId) : Prop :=
  exists o, heap s !! obj = Some o /\ visible o = true /\ isControlPoint o = true.

Definition controlsInv (s : State) : Prop :=
  forall obj, obj ∈ points (controlPoints s) -> visibleControl s obj.

Lemma visibleControl_ext s s' obj :
  heap s' = heap s -> visibleControl s obj -> visibleControl s' obj.
Proof. intros Hh (o & Ho & Hv). exists o. by rewrite Hh. Qed.

Lemma visibleControl_grow s o obj :
  visibleControl s obj -> visibleControl (set_heap (heap s ++ [o]) s) obj.
Proof.
  intros (o' & Ho & Hv). exists o'. split; [|done]. cbn.
  by apply lookup_app_l_Some.
Qed.

Lemma visibleControl_modify s target f obj :
  paintOnly f -> visibleControl s obj -> visibleControl (modify target f s) obj.
Proof.
  intros Hf (o & Ho & Hv & Hc). unfold visibleControl. cbn.
  destruct (decide (target = obj)) as [->|Hne].
  - exists (f o). rewrite list_lookup_alter_eq, Ho. destruct (Hf o) as [-> ->]. done.
  - exists o. by rewrite list_lookup_alter_ne.
Qed.

Lemma controlsInv_ext s s' :
  heap s' = heap s -> controlPoints s' = controlPoints s ->
  controlsInv s -> controlsInv s'.
Proof.
  intros Hh Hc Hs obj Hobj. rewrite Hc in Hobj.
  by apply (visibleControl_ext s), Hs.
Qed.

Lemma controlsInv_none s sh : controlsInv (set_controlPoints (mkControlPoints sh []) s).
Proof. intros obj Hobj. cbn in Hobj. by apply elem_of_nil in Hobj. Qed.

Lemma controlsInv_store : extensional controlsInv /\ allocStable controlsInv.
Proof.
  split.
  - intros s1 s2 Hh _ _ _ Hcp. by apply controlsInv_ext.
  - intros s1 o Hs obj Hobj. apply visibleControl_grow, Hs, Hobj.
Qed.

Lemma controlsInv_modify s target f :
  paintOnly f -> controlsInv s -> controlsInv (modify target f s).
Proof. intros Hf Hs obj Hobj. apply visibleControl_modify, Hs, Hobj. exact Hf. Qed.

Section WithLayout.
Context `{FabricLayout}.

Lemma controlsInv_removeControlPoints s :
  controlsInv s -> controlsInv (removeControlPoints s).
Proof.
  intros Hs. unfold removeControlPoints. destruct (fabricCanvas s); [|done].
  apply controlsInv_none.
Qed.

(** The loop of createControlPoints only adds visible control circles. *)
Lemma createControlPoints_loop data defs : forall acc s,
  (forall obj, obj ∈ acc -> visibleControl s obj) ->
  forall obj,
    obj ∈ (foldl (fun '(acc, s) def =>
                    let '(control, s) := alloc (controlCircle def data) s in
                    (acc ++ [control], canvasAdd control s))
             (acc, s) defs).1 ->
    visibleControl
      (foldl (fun '(acc, s) def =>
                let '(control, s) := alloc (controlCircle def data) s in
                (acc ++ [control], canvasAdd control s))
         (acc, s) defs).2 obj.
Proof.
  induction defs as [|def defs IH]; intros acc s Hacc; [exact Hacc|].
  cbn [foldl]. unfold alloc at 1 3. cbn [fst snd]. apply IH.
  intros obj Hobj. apply elem_of_app in Hobj as [Hobj|Hobj].
  - apply (visibleControl_ext (set_heap (heap s ++ [controlCircle def data]) s));
      [done|]. by apply visibleControl_grow, Hacc.
  - apply list_elem_of_singleton in Hobj as ->.
    exists (controlCircle def data). split; [|done]. cbn.
    by rewrite lookup_app_r, Nat.sub_diag by lia.
Qed.

Lemma controlsInv_createControlPoints s shapeId :
  controlsInv s -> controlsInv (createControlPoints shapeId s).
Proof.
  intros Hs. unfold createControlPoints.
  destruct (fabricCanvas s) eqn:Hc; [|done].
  destruct (shapeDataOf s shapeId) as [data|]; [|done].
  destruct (getHandler _ _) as [handler|];
    [|by apply controlsInv_removeControlPoints].
  pose proof (createControlPoints_loop data (getControlPoints handler) []
                (removeControlPoints s)) as Hloop.
  destruct (foldl _ _ _) as [newPoints s'] eqn:E. cbn [fst snd] in Hloop.
  intros obj Hobj. cbn in Hobj.
  apply (visibleControl_ext s'); [done|]. apply Hloop; [|done].
  intros obj' Hobj'. by apply elem_of_nil in Hobj'.
Qed.

Lemma controlsInv_toDataURL s fmt q :
  controlsInv s -> (toDataURL fmt q s).2 = s.
Proof.
  intros Hs. apply toDataURL_unchanged. intros obj o Hobj Ho.
  destruct (Hs obj Hobj) as (o' & Ho' & Hv & _). congruence.
Qed.

(** Every reachable state shows only visible control circles as handles. *)
Lemma reachable_controlsInv s : reachable s -> controlsInv s.
Proof.
  apply (P_reachable controlsInv).
  - apply controlsInv_store.
  - apply controlsInv_modify.
  - intros s1 f. by apply controlsInv_ext.
  - apply controlsInv_removeControlPoints.
  - apply controlsInv_createControlPoints.
  - intros s1. unfold saveHistory. repeat case_match; by apply controlsInv_ext.
  - intros s1 w h. by apply controlsInv_ext.
  - intros s1 _. apply (controlsInv_ext (set_controlPoints (mkControlPoints None []) s1));
      [done..|]. apply controlsInv_none.
  - intros s1 Hs. unfold undo. repeat case_match; try done.
    apply (controlsInv_ext (loadFromJSON (json h) (set_historyIndex
             (historyIndex s1 - 1) (set_isLoadingHistory true s1)))); [done..|].
    apply (P_loadFromJSON controlsInv); auto using controlsInv_store,
      controlsInv_modify, controlsInv_removeControlPoints.
  - intros s1 Hs. unfold redo. repeat case_match; try done.
    apply (controlsInv_ext (loadFromJSON (json h) (set_historyIndex
             (historyIndex s1 + 1) (set_isLoadingHistory true s1)))); [done..|].
    apply (P_loadFromJSON controlsInv); auto using controlsInv_store,
      controlsInv_modify, controlsInv_removeControlPoints.
  - intros s1. by apply controlsInv_ext.
  - intros s1 fmt q Hs. by rewrite controlsInv_toDataURL.
  - intros config obj Hobj. by apply elem_of_nil in Hobj.
Qed.

(** Every reachable state has its cursor in the log. *)
Lemma reachable_logInv s : reachable s -> logInv s.
Proof.
  apply (P_reachable logInv).
  - split.
    + intros s1 s2 Hh Hc Hl Hi Hcp. apply logInv_ext; congruence.
    + intros s1 o. by apply logInv_ext.
  - intros s1 obj f _. by apply logInv_ext.
  - intros s1 f. apply logInv_sameLog. auto with frame.
  - intros s1. apply logInv_sameLog. auto with frame.
  - intros s1 obj. apply logInv_sameLog. auto with frame.
  - apply logInv_saveHistory.
  - intros s1 w h. by apply logInv_ext.
  - intros s1 _. split; [unfold historyLength; simpl; lia|done].
  - apply logInv_undo.
  - apply logInv_redo.
  - intros s1 _. split; [unfold historyLength; simpl; lia|done].
  - intros s1 fmt q. unfold toDataURL.
    destruct (fabricCanvas s1) eqn:Hc; [|done].
    rewrite !modify_loop. apply logInv_ext; cbn; congruence.
  - intros config. split; [unfold historyLength; simpl; lia|done].
Qed.

(** saveHistory is never called with a cursor below -1. *)
Corollary reachable_cursor s : reachable s -> (-1 <= historyIndex s)%Z.
Proof. intros Hs. by destruct (reachable_logInv s Hs) as [[? _] _]. Qed.

(** A state without a canvas has an empty log. *)
Corollary reachable_no_canvas s :
  reachable s -> fabricCanvas s = None -> history s = [].
Proof. intros Hs. by destruct (reachable_logInv s Hs) as [_ ?]. Qed.

(** Exporting the canvas of a reachable state leaves the state as it was. *)
Corollary reachable_toDataURL s fmt q :
  reachable s -> (toDataURL fmt q s).2 = s.
Proof. intros Hs. by apply controlsInv_toDataURL, reachable_controlsInv. Qed.

End WithLayout.

End SurfaceInvariants.

(** ** The drawing surface: laws of the history and of the export *)

Module SurfaceLaws.
Import Shapes FabricCanvas FabricCanvasFrame HistorySpec ExportSpec
  SurfaceInvariants.
Local Open Scope R_scope.

(** A snapshot as saveHistory makes it: no control point in it, and no
    object that carries a [pointId]. *)
Definition snapshot (l : list FabricObject) : Prop :=
  forall o, o ∈ l -> isControlPoint o = false /\ pointId o = None.

(** The log holds snapshots only. *)
Definition snapshotsInv (s : State) : Prop :=
  forall e, e ∈ history s -> snapshot (json e).

(** The log is empty with the cursor at -1, or the cursor points at one of
    its entries; and there is no log without a canvas. *)
Definition cursorInv (s : State) : Prop :=
  ((history s = [] /\ historyIndex s = (-1)%Z) \/ cursorInRange s)
  /\ (fabricCanvas s = None -> history s = []).

(** A predicate on the log, the cursor and the presence of a canvas. *)
Definition logOnly (P : State -> Prop) : Prop :=
  forall s s',
    history s' = history s -> historyIndex s' = historyIndex s ->
    (fabricCanvas s' = None -> fabricCanvas s = None) -> P s -> P s'.

Lemma snapshot_persistent l :
  snapshot (filter (fun o => isControlPoint o = false) (toObject <$> l)).
Proof.
  intros o Ho. apply list_elem_of_filter in Ho as [Hc Ho].
  split; [exact Hc|]. apply list_elem_of_fmap in Ho as (o' & -> & _).
  reflexivity.
Qed.

Lemma snapshot_fixed l :
  snapshot l ->
  filter (fun o => isControlPoint o = false) (toObject <$> l) = l.
Proof.
  induction l as [|o l IH]; intros Hl; [done|].
  destruct (Hl o) as [Hc Hp]; [apply list_elem_of_here|].
  cbn [fmap list_fmap]. rewrite filter_cons. cbn [toObject isControlPoint].
  rewrite decide_True by done. f_equal.
  - destruct o. cbn in Hp. by subst.
  - apply IH. intros o' Ho'. apply Hl. by apply list_elem_of_further.
Qed.

Section WithLayout.
Context `{FabricLayout}.

(** What undo and redo do to the log: nothing to its entries, and one
    step of the cursor unless they return at once. *)
Lemma undo_cases s :
  undo s = s
  \/ ((0 < historyIndex s)%Z /\ is_Some (fabricCanvas s)
      /\ history (undo s) = history s
      /\ historyIndex (undo s) = (historyIndex s - 1)%Z
      /\ is_Some (fabricCanvas (undo s))).
Proof.
  unfold undo. destruct (fabricCanvas s) as [c|] eqn:Hc; [|by left].
  destruct (historyIndex s <=? 0)%Z eqn:E; [by left|]. apply Z.leb_gt in E.
  right. split; [done|]. split; [eauto|].
  cbn [history historyIndex set_historyIndex set_isLoadingHistory].
  case_match.
  - destruct (reload_spec
                (set_historyIndex (historyIndex s - 1)
                   (set_isLoadingHistory true s)) (json h))
      as (Hl & Hi & _ & Hcv & _); [cbn; rewrite Hc; eauto|].
    by rewrite Hl, Hi.
  - cbn. rewrite Hc. eauto.
Qed.

Lemma redo_cases s :
  redo s = s
  \/ ((historyIndex s < historyLength s - 1)%Z /\ is_Some (fabricCanvas s)
      /\ history (redo s) = history s
      /\ historyIndex (redo s) = (historyIndex s + 1)%Z
      /\ is_Some (fabricCanvas (redo s))).
Proof.
  unfold redo, historyLength.
  destruct (fabricCanvas s) as [c|] eqn:Hc; [|by left].
  destruct (_ <=? historyIndex s)%Z eqn:E; [by left|]. apply Z.leb_gt in E.
  right. split; [done|]. split; [eauto|].
  cbn [history historyIndex set_historyIndex set_isLoadingHistory].
  case_match.
  - destruct (reload_spec
                (set_historyIndex (historyIndex s + 1)
                   (set_isLoadingHistory true s)) (json h))
      as (Hl & Hi & _ & Hcv & _); [cbn; rewrite Hc; eauto|].
    by rewrite Hl, Hi.
  - cbn. rewrite Hc. eauto.
Qed.

(** A predicate on the log holds in every reachable state if the
    functions that write the log or drop the canvas keep it. *)
Lemma logOnly_reachable (P : State -> Prop) :
  logOnly P ->
  (forall s, P s -> P (saveHistory s)) ->
  (forall s, P s -> P (undo s)) -> (forall s, P s -> P (redo s)) ->
  (forall s, P s -> P (resetHistory s)) -> (forall s, P s -> P (dispose s)) ->
  (forall config, P (initialState config)) ->
  forall s, reachable s -> P s.
Proof.
  intros Hlog Hsave Hundo Hredo Hreset Hdispose Hinit.
  assert (Hframe : forall s s', sameLog s s' -> P s -> P s').
  { intros s s' (Hl & Hi & _ & Hc). apply Hlog; [done..|].
    intros Hn. destruct (fabricCanvas s) eqn:E; [|done].
    destruct (proj2 Hc) as [c' Hc']; [eauto|congruence]. }
  apply (P_reachable P); try done.
  - split.
    + intros s s' _ Hc Hl Hi _. apply Hlog; [done..|]. by rewrite Hc.
    + intros s o. by apply Hlog.
  - intros s obj f _. by apply Hlog.
  - intros s f. apply Hframe. auto with frame.
  - intros s. apply Hframe. auto with frame.
  - intros s obj. apply Hframe. auto with frame.
  - intros s w h. by apply Hlog.
  - intros s fmt q. unfold toDataURL.
    destruct (fabricCanvas s) eqn:Hc; [|done].
    rewrite !modify_loop. apply Hlog; cbn; congruence.
Qed.

Lemma cursorInv_reachable s : reachable s -> cursorInv s.
Proof.
  apply logOnly_reachable.
  - intros s1 s2 Hl Hi Hc [Hcur Hnone]. unfold cursorInv, cursorInRange,
      historyLength in *. rewrite Hl, Hi. split; [done|].
    intros Hn. apply Hnone, Hc, Hn.
  - intros s1 [Hcur Hnone].
    destruct (fabricCanvas s1) as [c|] eqn:Hc.
    + destruct (saveHistory_spec s1) as (Hl & Hi & _ & Hcv & _);
        [by rewrite Hc|].
      split; [|by rewrite Hcv, Hc]. right.
      unfold cursorInRange, historyLength. rewrite Hi, Hl.
      rewrite !length_app. cbn [length]. lia.
    + unfold saveHistory. rewrite Hc. split; [done|]. intros _. by apply Hnone.
  - intros s1 [Hcur Hnone].
    destruct (undo_cases s1) as [->|(Hpos & Hc & Hl & Hi & Hc')]; [done|].
    split.
    + right. unfold cursorInRange, historyLength in *. rewrite Hl, Hi.
      destruct Hcur as [[_ Hm]|Hr]; lia.
    + intros Hn. rewrite Hn in Hc'. by destruct Hc'.
  - intros s1 [Hcur Hnone].
    destruct (redo_cases s1) as [->|(Hpos & Hc & Hl & Hi & Hc')]; [done|].
    split.
    + right. unfold cursorInRange, historyLength in *. rewrite Hl, Hi.
      destruct Hcur as [[Hm Hm']|Hr]; [rewrite Hm in Hpos; cbn in Hpos|]; lia.
    + intros Hn. rewrite Hn in Hc'. by destruct Hc'.
  - intros s1 _. split; [by left|done].
  - intros s1 _. split; [by left|done].
  - intros config. split; [by left|done].
Qed.

Lemma snapshotsInv_reachable s : reachable s -> snapshotsInv s.
Proof.
  apply logOnly_reachable.
  - intros s1 s2 Hl _ _ Hs e He. rewrite Hl in He. by apply Hs.
  - intros s1 Hs.
    destruct (fabricCanvas s1) as [c|] eqn:Hc.
    + destruct (saveHistory_spec s1) as (Hl & _); [by rewrite Hc|].
      intros e He. rewrite Hl in He. apply elem_of_app in He as [He|He].
      * apply Hs. unfold kept, slice0 in He. case_match; [|done].
        apply elem_of_take in He as (i & Hi & _).
        eapply list_elem_of_lookup_2, Hi.
      * apply list_elem_of_singleton in He as ->. apply snapshot_persistent.
    + unfold saveHistory. by rewrite Hc.
  - intros s1 Hs.
    destruct (undo_cases s1) as [->|(_ & _ & Hl & _)]; [done|].
    intros e He. rewrite Hl in He. by apply Hs.
  - intros s1 Hs.
    destruct (redo_cases s1) as [->|(_ & _ & Hl & _)]; [done|].
    intros e He. rewrite Hl in He. by apply Hs.
  - intros s1 _ e He. by apply elem_of_nil in He.
  - intros s1 _ e He. by apply elem_of_nil in He.
  - intros config e He. by apply elem_of_nil in He.
Qed.

(** X10: whatever the capture window and fabric do with an instance
    (every exported function and every pointer event, in any order), the
    cursor stays in step with the log: either the log is empty and the
    cursor is -1, or the cursor points at an entry; a surface without a
    canvas has an empty log; canUndo is false exactly on an empty log or at
    the first entry, and canRedo is false exactly on an empty log or at
    the last entry. *)
Theorem cursor_stays_in_log s :
  reachable s ->
  ((history s = [] /\ historyIndex s = (-1)%Z)
   \/ (0 <= historyIndex s <= historyLength s - 1)%Z)
  /\ (fabricCanvas s = None -> history s = [] /\ historyIndex s = (-1)%Z)
  /\ (canUndo s = false <-> history s = [] \/ historyIndex s = 0%Z)
  /\ (canRedo s = false
      <-> history s = [] \/ historyIndex s = (historyLength s - 1)%Z).
Proof.
  intros Hs. destruct (cursorInv_reachable s Hs) as [Hcur Hnone].
  unfold cursorInRange, historyLength, canUndo, canRedo in *.
  split; [exact Hcur|]. split; [|split].
  - intros Hn. specialize (Hnone Hn). split; [done|].
    destruct Hcur as [[_ ?]|Hr]; [done|]. rewrite Hnone in Hr. cbn in Hr. lia.
  - rewrite Z.ltb_ge. destruct Hcur as [[Hl Hi]|Hr].
    + split; [by left|lia].
    + split; [lia|]. intros [Hl| ->]; [|lia]. rewrite Hl in Hr. cbn in Hr. lia.
  - rewrite Z.ltb_ge. destruct Hcur as [[Hl Hi]|Hr].
    + split; [by left|]. rewrite Hl, Hi. cbn. lia.
    + split; [lia|]. intros [Hl| ->]; [|lia]. rewrite Hl in Hr. cbn in Hr. lia.
Qed.

(** X11: every entry of the log of a reachable state is a snapshot without
    control points, so the handles of a selected shape are never saved,
    whichever way the entry was pushed; and no saved object carries a
    [pointId]. *)
Theorem log_holds_no_control_points s e o :
  reachable s -> e ∈ history s -> o ∈ json e ->
  isControlPoint o = false /\ pointId o = None.
Proof. intros Hs He Ho. by apply (snapshotsInv_reachable s Hs e He). Qed.

(** X12: in a reachable state, undo with canUndo moves the cursor one
    entry back and leaves on the canvas exactly the objects of the entry
    there, with nothing selected; redo with canRedo moves it one entry
    forward and leaves exactly the objects of that entry.  Neither changes
    the log. *)
Theorem undo_redo_show_snapshot s :
  reachable s ->
  (canUndo s = true ->
   exists entry,
     at_index (history s) (historyIndex s - 1) = Some entry
     /\ historyIndex (undo s) = (historyIndex s - 1)%Z
     /\ history (undo s) = history s
     /\ canvasObjects (undo s) = json entry
     /\ persistentObjects (undo s) = json entry)
  /\ (canRedo s = true ->
      exists entry,
        at_index (history s) (historyIndex s + 1) = Some entry
        /\ historyIndex (redo s) = (historyIndex s + 1)%Z
        /\ history (redo s) = history s
        /\ canvasObjects (redo s) = json entry
        /\ persistentObjects (redo s) = json entry).
Proof.
  intros Hs. destruct (cursorInv_reachable s Hs) as [Hcur Hnone].
  pose proof (snapshotsInv_reachable s Hs) as Hsnap.
  assert (Hentry : forall i entry,
            at_index (history s) i = Some entry -> snapshot (json entry)).
  { intros i entry Hat. apply Hsnap. unfold at_index in Hat.
    case_match; [done|]. eapply list_elem_of_lookup_2, Hat. }
  unfold canUndo, canRedo, cursorInRange, historyLength in *.
  split; intros Hcan; apply Z.ltb_lt in Hcan.
  - assert (Hrange : (0 <= historyIndex s <= Z.of_nat (length (history s)) - 1)%Z).
    { destruct Hcur as [[_ ?]|?]; lia. }
    assert (Hc : is_Some (fabricCanvas s)).
    { destruct (fabricCanvas s) eqn:E; [eauto|].
      rewrite (Hnone eq_refl) in Hrange. cbn in Hrange. lia. }
    destruct (at_index_is_Some (history s) (historyIndex s - 1)) as [entry He];
      [lia|].
    destruct (undo_step s entry Hc Hcan He) as (Hl & Hi & _ & _ & Hobj).
    exists entry. repeat split; try done.
    unfold persistentObjects. rewrite Hobj. apply snapshot_fixed.
    by apply (Hentry _ _ He).
  - assert (Hrange : (0 <= historyIndex s + 1 < Z.of_nat (length (history s)))%Z).
    { destruct Hcur as [[Hl Hi]|?]; [rewrite Hl in Hcan; cbn in Hcan|]; lia. }
    assert (Hc : is_Some (fabricCanvas s)).
    { destruct (fabricCanvas s) eqn:E; [eauto|].
      rewrite (Hnone eq_refl) in Hrange. cbn in Hrange. lia. }
    destruct (at_index_is_Some (history s) (historyIndex s + 1)) as [entry He];
      [lia|].
    destruct (redo_step s entry Hc Hcan He) as (Hl & Hi & _ & _ & Hobj).
    exists entry. repeat split; try done.
    unfold persistentObjects. rewrite Hobj. apply snapshot_fixed.
    by apply (Hentry _ _ He).
Qed.

(** X13: in every reachable state the handles on display are visible
    control circles, so exporting the canvas leaves the whole state of the
    instance exactly as it was: hiding the handles for the image and
    showing them again changes nothing. *)
Theorem export_leaves_state s fmt q :
  reachable s ->
  (toDataURL fmt q s).2 = s
  /\ (forall obj, obj ∈ points (controlPoints s) ->
      exists o, heap s !! obj = Some o /\ visible o = true
                /\ isControlPoint o = true).
Proof.
  intros Hs. pose proof (reachable_controlsInv s Hs) as Hinv.
  split; [by apply controlsInv_toDataURL|]. intros obj Hobj.
  apply (Hinv obj Hobj).
Qed.

Lemma reachable_steps s events :
  reachable s -> reachable (foldl (fun s e => step e s) s events).
Proof.
  revert s. induction events as [|e events IH]; intros s Hs; [done|].
  cbn. apply IH. by apply reachable_step.
Qed.

End WithLayout.

(** A rectangle as the capture window adds it. *)
Definition rectangle : FabricObject :=
  set_shapeData (Some (RectShapeData 10 10 60 50))
    (createPath (@RectHandler ShapesSpec.originLayout)
       (RectShapeData 10 10 60 50) defaultDrawingConfig).

(** A surface of 300 x 200 pixels with its baseline entry, then a
    rectangle and a second entry. *)
Definition twoEntries : State :=
  foldl (fun s e => @step ShapesSpec.originLayout e s)
    (initialState defaultDrawingConfig)
    [InitCanvas 300 200; ResetHistory; SaveHistory; AddObject rectangle;
     SaveHistory].

(** The same surface after a press on the rectangle selected it. *)
Definition selected : State :=
  @step ShapesSpec.originLayout (MouseDown (mkPoint2D 20 20) (Some 0%nat))
    twoEntries.

Lemma twoEntries_reachable : @reachable ShapesSpec.originLayout twoEntries.
Proof. apply reachable_steps, reachable_initial. Qed.

Lemma selected_reachable : @reachable ShapesSpec.originLayout selected.
Proof. apply reachable_step, twoEntries_reachable. Qed.

Lemma cursor_stays_in_log_witness :
  ((history twoEntries = [] /\ historyIndex twoEntries = (-1)%Z)
   \/ (0 <= historyIndex twoEntries <= historyLength twoEntries - 1)%Z)
  /\ (fabricCanvas twoEntries = None ->
      history twoEntries = [] /\ historyIndex twoEntries = (-1)%Z)
  /\ (canUndo twoEntries = false
      <-> history twoEntries = [] \/ historyIndex twoEntries = 0%Z)
  /\ (canRedo twoEntries = false
      <-> history twoEntries = []
          \/ historyIndex twoEntries = (historyLength twoEntries - 1)%Z).
Proof.
  apply (@cursor_stays_in_log ShapesSpec.originLayout twoEntries).
  apply twoEntries_reachable.
Defined.

Lemma log_holds_no_control_points_witness :
  exists e,
    e ∈ history selected /\ toObject rectangle ∈ json e
    /\ isControlPoint (toObject rectangle) = false
    /\ pointId (toObject rectangle) = None.
Proof.
  exists (mkHistoryEntry [toObject rectangle]).
  assert (He : mkHistoryEntry [toObject rectangle] ∈ history selected).
  { cbv -[IZR]. apply list_elem_of_further, list_elem_of_here. }
  assert (Ho : toObject rectangle ∈ json (mkHistoryEntry [toObject rectangle])).
  { apply list_elem_of_here. }
  split; [exact He|]. split; [exact Ho|].
  exact (@log_holds_no_control_points ShapesSpec.originLayout selected _ _
           selected_reachable He Ho).
Defined.

Lemma undo_redo_show_snapshot_witness :
  canUndo twoEntries = true
  /\ exists entry,
       at_index (history twoEntries) (historyIndex twoEntries - 1) = Some entry
       /\ historyIndex (undo twoEntries)
          = (historyIndex twoEntries - 1)%Z
       /\ history (undo twoEntries)
          = history twoEntries
       /\ canvasObjects (undo twoEntries) = json entry
       /\ persistentObjects (undo twoEntries)
          = json entry.
Proof.
  assert (Hcan : canUndo twoEntries = true) by (cbv -[IZR]; reflexivity).
  split; [exact Hcan|].
  exact (proj1 (@undo_redo_show_snapshot ShapesSpec.originLayout twoEntries
                  twoEntries_reachable) Hcan).
Defined.

Lemma export_leaves_state_witness :
  points (controlPoints selected) = [1; 2; 3; 4]%nat
  /\ (toDataURL "png" 1 selected).2 = selected
  /\ (forall obj, obj ∈ points (controlPoints selected) ->
      exists o, heap selected !! obj = Some o /\ visible o = true
                /\ isControlPoint o = true).
Proof.
  split; [cbv -[IZR]; reflexivity|].
  apply (@export_leaves_state ShapesSpec.originLayout selected "png" 1).
  apply selected_reachable.
Defined.

End SurfaceLaws.

(** ** The drawing surface: gestures, selection and style *)

Module GestureLaws.
Import Shapes FabricCanvas FabricCanvasFrame HistorySpec ShapesSpec.
Local Open Scope R_scope.

(** [s'] is in the drawing session of [s]: the tool, the stroke in
    progress, the loading flag, the remembered position and the
    configuration are those of [s].  Only the store, the canvas, the
    control points and the log may differ. *)
Definition sameSession (s s' : State) : Prop :=
  activeTool s' = activeTool s /\ isDrawing s' = isDrawing s
  /\ drawStartPoint s' = drawStartPoint s /\ currentObject s' = currentObject s
  /\ penPoints s' = penPoints s /\ isLoadingHistory s' = isLoadingHistory s
  /\ lastObjectPosition s' = lastObjectPosition s
  /\ drawingConfig s' = drawingConfig s.

Create HintDb session discriminated.

Lemma sameSession_refl s : sameSession s s.
Proof. by repeat split. Qed.

Lemma sameSession_step s0 s s' :
  sameSession s s' -> sameSession s0 s -> sameSession s0 s'.
Proof.
  unfold sameSession. intros (-> & -> & -> & -> & -> & -> & -> & ->). done.
Qed.

Ltac session_step :=
  intros; eapply sameSession_step; [|eassumption]; by repeat split.

Lemma sameSession_set_heap s0 s h :
  sameSession s0 s -> sameSession s0 (set_heap h s).
Proof. session_step. Qed.
Lemma sameSession_set_controlPoints s0 s c :
  sameSession s0 s -> sameSession s0 (set_controlPoints c s).
Proof. session_step. Qed.
Lemma sameSession_set_history s0 s l :
  sameSession s0 s -> sameSession s0 (set_history l s).
Proof. session_step. Qed.
Lemma sameSession_set_historyIndex s0 s i :
  sameSession s0 s -> sameSession s0 (set_historyIndex i s).
Proof. session_step. Qed.
Lemma sameSession_alloc s0 s o :
  sameSession s0 s -> sameSession s0 (alloc o s).2.
Proof. session_step. Qed.
Lemma sameSession_modify s0 s obj f :
  sameSession s0 s -> sameSession s0 (modify obj f s).
Proof. session_step. Qed.
Lemma sameSession_withCanvas s0 s f :
  sameSession s0 s -> sameSession s0 (withCanvas f s).
Proof. session_step. Qed.
Lemma sameSession_canvasAdd s0 s obj :
  sameSession s0 s -> sameSession s0 (canvasAdd obj s).
Proof. session_step. Qed.
Lemma sameSession_canvasRemove s0 s obj :
  sameSession s0 s -> sameSession s0 (canvasRemove obj s).
Proof. session_step. Qed.
Lemma sameSession_set_activeObject s0 s a :
  sameSession s0 s -> sameSession s0 (set_activeObject a s).
Proof. session_step. Qed.

#[export] Hint Resolve sameSession_refl sameSession_set_heap
  sameSession_set_controlPoints sameSession_set_history
  sameSession_set_historyIndex sameSession_alloc sameSession_modify
  sameSession_withCanvas sameSession_canvasAdd sameSession_canvasRemove
  sameSession_set_activeObject : session.

Lemma sameSession_foldl {A} (f : State -> A -> State) l s0 s :
  (forall s x, sameSession s0 s -> sameSession s0 (f s x)) ->
  sameSession s0 s -> sameSession s0 (foldl f s l).
Proof.
  intros Hf. revert s. induction l as [|a l IH]; cbn; intros s Hs; [done|].
  apply IH, Hf, Hs.
Qed.

Ltac session :=
  repeat case_match; subst; cbn [fst snd] in *; eauto 20 with session.

Section WithLayout.
Context `{FabricLayout}.

Lemma sameSession_removeControlPoints s0 s :
  sameSession s0 s -> sameSession s0 (removeControlPoints s).
Proof.
  intros Hs. unfold removeControlPoints. destruct (fabricCanvas s); [|done].
  apply sameSession_set_controlPoints.
  assert (Hloop : sameSession s0
            (foldl (fun s pt => canvasRemove pt s) s (points (controlPoints s)))).
  { apply sameSession_foldl; auto with session. }
  session.
Qed.
#[local] Hint Resolve sameSession_removeControlPoints : session.

Lemma sameSession_createControlPoints s0 s shapeId :
  sameSession s0 s -> sameSession s0 (createControlPoints shapeId s).
Proof.
  intros Hs. unfold createControlPoints.
  destruct (fabricCanvas s); [|done]. destruct (shapeDataOf s shapeId); [|done].
  destruct (getHandler _ _) as [handler|]; [|session].
  set (body := fun '(acc, s) def =>
         let '(control, s) := alloc (controlCircle def s1) s in
         (acc ++ [control], canvasAdd control s)).
  assert (Hloop : forall defs acc s',
            sameSession s0 s' -> sameSession s0 (foldl body (acc, s') defs).2).
  { induction defs as [|d defs IH]; intros acc s' Hs'; cbn; [done|].
    apply IH. session. }
  specialize (Hloop (getControlPoints handler) [] (removeControlPoints s)).
  destruct (foldl body _ _) as [newPoints s']. cbn in Hloop. session.
Qed.
#[local] Hint Resolve sameSession_createControlPoints : session.

Lemma sameSession_handleSelected s0 s objs :
  sameSession s0 s -> sameSession s0 (handleSelected objs s).
Proof.
  intros Hs. unfold handleSelected. apply sameSession_foldl; [|done].
  intros. session.
Qed.

Lemma sameSession_handleDeselected s0 s objs :
  sameSession s0 s -> sameSession s0 (handleDeselected objs s).
Proof.
  intros Hs. unfold handleDeselected. apply sameSession_removeControlPoints.
  apply sameSession_foldl; [|done]. intros. session.
Qed.
#[local] Hint Resolve sameSession_handleSelected sameSession_handleDeselected
  : session.

Lemma sameSession_discardActiveObject s0 s :
  sameSession s0 s -> sameSession s0 (discardActiveObject s).
Proof. intros Hs. unfold discardActiveObject, onSelectionCleared. session. Qed.

Lemma sameSession_setActiveObject s0 s obj :
  sameSession s0 s -> sameSession s0 (setActiveObject obj s).
Proof.
  intros Hs.
  unfold setActiveObject, onSelectionCreated, onSelectionUpdated. session.
Qed.

Lemma sameSession_saveHistory s0 s :
  sameSession s0 s -> sameSession s0 (saveHistory s).
Proof. intros Hs. unfold saveHistory. session. Qed.

#[local] Hint Resolve sameSession_discardActiveObject
  sameSession_setActiveObject sameSession_saveHistory : session.

Lemma sameSession_fabricRemove s0 s obj :
  sameSession s0 s -> sameSession s0 (fabricRemove s obj).
Proof. intros Hs. unfold fabricRemove, onSelectionCleared. session. Qed.

(** *** Releasing the pointer *)

(** X14: releasing the pointer after a press that started a stroke ends
    the stroke: isDrawing is false, no object is current and the pen
    points are cleared.  If the stroke left an object, or the tool is the
    text tool (a click then makes an empty text), exactly one entry is
    pushed: the log is the entries up to the cursor followed by the
    snapshot of the canvas as the release leaves it, and the cursor is on
    it.  Otherwise nothing but the two flags changes; and without a stroke
    in progress a release does nothing. *)
Theorem mouse_up_pushes_once s c :
  fabricCanvas s = Some c -> (-1 <= historyIndex s)%Z ->
  let s' := handleMouseUp s in
  (isDrawing s = false -> s' = s)
  /\ (isDrawing s = true ->
      isDrawing s' = false /\ currentObject s' = None /\ penPoints s' = []
      /\ (is_Some (currentObject s) \/ activeTool s = Some text ->
          history s'
          = take (Z.to_nat (historyIndex s + 1)) (history s)
            ++ [mkHistoryEntry (persistentObjects s')]
          /\ historyIndex s' = (historyLength s' - 1)%Z)
      /\ (currentObject s = None -> activeTool s <> Some text ->
          s' = set_penPoints [] (set_isDrawing false s))).
Proof.
  intros Hc Hi s'. subst s'. unfold handleMouseUp. rewrite Hc.
  split; [by intros ->|]. intros Hd. rewrite Hd.
  set (s1 := set_isDrawing false s).
  set (s2 := createClickedText s1).
  assert (Hlog2 : sameLog s s2).
  { subst s2. apply sameLog_createClickedText. subst s1. auto with frame. }
  assert (Hd2 : isDrawing s2 = false).
  { subst s2. unfold createClickedText, alloc. repeat case_match; done. }
  unfold commitCurrentObject.
  destruct (currentObject s2) as [current|] eqn:Hcur.
  - set (s3 := setActiveObject current (modify current _ s2)).
    assert (Hlog3 : sameLog s s3).
    { subst s3. auto with frame. }
    assert (Hses3 : sameSession s2 s3).
    { subst s3. auto using sameSession_setActiveObject with session. }
    destruct Hlog3 as (Hl3 & Hi3 & _ & Hc3).
    destruct (saveHistory_log s3) as [Hl Hidx].
    { apply Hc3. rewrite Hc. eauto. }
    { by rewrite Hi3. }
    destruct (sameSession_saveHistory s2 s3 Hses3) as (_ & Hdraw & _).
    assert (Hobj : persistentObjects
                     (set_penPoints [] (set_currentObject None (saveHistory s3)))
                   = persistentObjects s3).
    { apply persistentObjects_ext; cbn.
      - by destruct (saveHistory_spec s3) as (_ & _ & -> & _);
          [apply Hc3; rewrite Hc; eauto|].
      - by destruct (saveHistory_spec s3) as (_ & _ & _ & -> & _);
          [apply Hc3; rewrite Hc; eauto|]. }
    split; [cbn; congruence|]. split; [done|]. split; [done|]. split.
    + intros _. rewrite Hobj. cbn [history historyIndex set_penPoints
        set_currentObject]. rewrite Hl, Hl3, Hi3. split; [done|].
      unfold historyLength. cbn [history set_penPoints set_currentObject].
      rewrite Hidx, Hl, Hl3, Hi3. unfold historyLength. rewrite Hl3.
      rewrite length_app, length_take. cbn [length]. lia.
    + intros Hnone Htool. exfalso.
      subst s2 s1. unfold createClickedText in Hcur.
      cbn [activeTool currentObject set_isDrawing] in Hcur.
      rewrite Hnone in Hcur.
      destruct (activeTool s) as [[]|]; cbn in Hcur; congruence.
  - split; [done|]. split; [done|]. split; [done|]. split.
    + intros Hsome. apply (createClickedText_current s1) in Hsome.
      fold s2 in Hsome. rewrite Hcur in Hsome. by destruct Hsome.
    + intros _ _. subst s2. by rewrite (createClickedText_idle s1 Hcur).
Qed.

(** *** Dragging out a shape *)

(** The pointer, held inside the canvas. *)
Definition clampToCanvas (c : Canvas) (p : Point2D) : Point2D :=
  mkPoint2D (Rmax 0 (Rmin (x p) (width c))) (Rmax 0 (Rmin (y p) (height c))).

Lemma or_num_zero w : or_num (Some w) 0 = w.
Proof. unfold or_num. by destruct (Req_dec_T w 0). Qed.

Lemma filter_not_in (l : list nat) cur :
  cur ∉ l -> filter (fun i => i <> cur) l = l.
Proof.
  induction l as [|a l IH]; intros Hn; [done|].
  apply not_elem_of_cons in Hn as [Hne Hn].
  rewrite filter_cons, decide_True by done. f_equal. by apply IH.
Qed.

(** What a stroke in progress keeps true from one pointer event to the
    next. *)
Definition stroking (s0 : State) (c0 : Canvas) (tool : ShapeType) (s : State)
  : Prop :=
  exists c,
    fabricCanvas s = Some c
    /\ width c = width c0 /\ height c = height c0
    /\ isDrawing s = true /\ activeTool s = Some tool
    /\ drawStartPoint s = drawStartPoint s0
    /\ drawingConfig s = drawingConfig s0
    /\ (length (heap s0) <= length (heap s))%nat
    /\ (forall cur, currentObject s = Some cur -> (length (heap s0) <= cur)%nat)
    /\ (objects c = objects c0
        \/ exists obj, objects c = objects c0 ++ [obj]
                        /\ currentObject s = Some obj)
    /\ history s = history s0 /\ historyIndex s = historyIndex s0.

(** The preview of the pointer position [p]: on top of the canvas as it
    was before the stroke, the object the handler makes for the datum of
    the gesture, if it accepts the gesture; nothing if it rejects it. *)
Definition previewOf (s0 : State) (c0 : Canvas) (tool : ShapeType)
    (p : Point2D) (s : State) : Prop :=
  exists c h,
    fabricCanvas s = Some c /\ getHandler ShapeRegistry tool = Some h
    /\ match
         createData h (drawStartPoint s0) (clampToCanvas c0 p)
           (Some (penPoints s))
       with
       | None => objects c = objects c0
       | Some d =>
           exists obj,
             objects c = objects c0 ++ [obj] /\ currentObject s = Some obj
             /\ heap s !! obj
                = Some (set_shapeData (Some d)
                          (createPath h d (drawingConfig s0)))
       end.

Lemma handleMouseMove_stroking s0 c0 tool s p :
  (forall obj, obj ∈ objects c0 -> (obj < length (heap s0))%nat) ->
  stroking s0 c0 tool s ->
  stroking s0 c0 tool (handleMouseMove p s)
  /\ penPoints (handleMouseMove p s)
     = penPoints s ++ (if decide (tool = pen) then [clampToCanvas c0 p] else [])
  /\ previewOf s0 c0 tool p (handleMouseMove p s).
Proof.
  intros Hwf (c & Hc & Hw & Hh & Hd & Ht & Hstart & Hcfg & Hlen & Hcur & Hobjs
              & Hl & Hi).
  unfold handleMouseMove. rewrite Hc, Hd, Ht.
  rewrite !or_num_zero, Hw, Hh. fold (clampToCanvas c0 p).
  set (s1 := match currentObject s with
             | Some current => canvasRemove current s
             | None => s
             end).
  assert (Hc1 : exists a, fabricCanvas s1
                          = Some (mkCanvas (objects c0) a (width c0) (height c0))).
  { subst s1. destruct (currentObject s) as [cur|] eqn:Ecur.
    - eexists. cbn. rewrite Hc. cbn. rewrite Hw, Hh. do 2 f_equal.
      assert (Hnot : cur ∉ objects c0).
      { intros Hin. apply Hwf in Hin. specialize (Hcur cur eq_refl). lia. }
      destruct Hobjs as [->|(obj & -> & [= ->])].
      + by apply filter_not_in.
      + rewrite filter_app, filter_not_in by done.
        rewrite filter_cons, decide_False by (intros Hne; by apply Hne).
        by rewrite filter_nil, app_nil_r.
    - exists (activeObject c). rewrite Hc.
      destruct Hobjs as [Ho|(obj & _ & [=])].
      destruct c; cbn in *. by subst. }
  destruct Hc1 as [a1 Hc1].
  assert (Hsame1 : heap s1 = heap s /\ currentObject s1 = currentObject s
                   /\ penPoints s1 = penPoints s /\ history s1 = history s
                   /\ historyIndex s1 = historyIndex s
                   /\ drawStartPoint s1 = drawStartPoint s
                   /\ drawingConfig s1 = drawingConfig s
                   /\ isDrawing s1 = isDrawing s /\ activeTool s1 = activeTool s).
  { subst s1. destruct (currentObject s) eqn:E; cbn; rewrite ?E; done. }
  destruct Hsame1 as (Hheap1 & Hcur1 & Hpen1 & Hl1 & Hi1 & Hstart1 & Hcfg1
                      & Hd1 & Ht1).
  set (s2 := if decide (tool = pen)
             then set_penPoints (penPoints s1 ++ [clampToCanvas c0 p]) s1
             else s1).
  assert (Hpen2 : penPoints s2
                  = penPoints s
                    ++ (if decide (tool = pen) then [clampToCanvas c0 p] else [])).
  { subst s2. case_decide; cbn; rewrite Hpen1; [done|by rewrite app_nil_r]. }
  assert (Hsame2 : heap s2 = heap s /\ currentObject s2 = currentObject s
                   /\ fabricCanvas s2 = fabricCanvas s1
                   /\ history s2 = history s /\ historyIndex s2 = historyIndex s
                   /\ drawStartPoint s2 = drawStartPoint s
                   /\ drawingConfig s2 = drawingConfig s
                   /\ isDrawing s2 = isDrawing s /\ activeTool s2 = activeTool s).
  { subst s2. case_decide; cbn; repeat split; done. }
  destruct Hsame2 as (Hheap2 & Hcur2 & Hc2 & Hl2 & Hi2 & Hstart2 & Hcfg2
                      & Hd2 & Ht2).
  assert (Hhandler : exists h, getHandler ShapeRegistry tool = Some h).
  { destruct tool; eauto. }
  destruct Hhandler as [h Hhandler]. rewrite Hhandler.
  rewrite Hstart.
  destruct (createData h (drawStartPoint s0) (clampToCanvas c0 p)
              (Some (penPoints s2))) as [d|] eqn:Hdata.
  - cbn [alloc]. split; [|split].
    + eexists. split; [cbn; rewrite Hc2, Hc1; reflexivity|]. cbn.
      repeat split; try congruence;
        try (rewrite ?length_app, Hheap2; lia);
        try (intros cur [= <-]; rewrite Hheap2; lia).
      right. eauto.
    + cbn. exact Hpen2.
    + eexists _, h. split; [cbn; rewrite Hc2, Hc1; reflexivity|].
      split; [exact Hhandler|]. cbn [penPoints set_currentObject canvasAdd
        withCanvas set_fabricCanvas set_heap].
      rewrite Hdata. eexists. split; [reflexivity|]. split; [reflexivity|].
      cbn. rewrite lookup_app_r, Nat.sub_diag by lia. cbn. by rewrite Hcfg2, Hcfg.
  - split; [|split].
    + eexists. split; [rewrite Hc2, Hc1; reflexivity|]. cbn.
      repeat split; try congruence;
        try (rewrite Hheap2; lia);
        try (intros cur Hcur'; apply Hcur; congruence).
      by left.
    + exact Hpen2.
    + eexists _, h. split; [rewrite Hc2, Hc1; reflexivity|].
      split; [exact Hhandler|]. by rewrite Hdata.
Qed.

(** X15: while a shape is dragged out, the canvas shows at most one
    preview on top of what it held when the stroke began: every pointer
    event first removes the preview of the one before.  After any number
    of pointer events the objects of the canvas are those from before the
    stroke, followed by the object the handler makes for the last pointer
    position (held inside the canvas) if it accepts the gesture there,
    and by nothing if it rejects it; the pen has collected the clamped
    position of every event; and no event pushes history. *)
Theorem drag_keeps_one_preview s0 c0 tool moves :
  fabricCanvas s0 = Some c0 -> isDrawing s0 = true ->
  activeTool s0 = Some tool -> currentObject s0 = None ->
  (forall obj, obj ∈ objects c0 -> (obj < length (heap s0))%nat) ->
  let s := foldl (fun s p => handleMouseMove p s) s0 moves in
  (exists c,
     fabricCanvas s = Some c
     /\ (objects c = objects c0
         \/ exists obj, objects c = objects c0 ++ [obj]
                         /\ currentObject s = Some obj))
  /\ (history s = history s0 /\ historyIndex s = historyIndex s0)
  /\ penPoints s
     = penPoints s0
       ++ (if decide (tool = pen) then clampToCanvas c0 <$> moves else [])
  /\ (forall p, last moves = Some p -> previewOf s0 c0 tool p s).
Proof.
  intros Hc Hd Ht Hcur Hwf.
  assert (Hstart : stroking s0 c0 tool s0).
  { exists c0. repeat split; try done; [congruence|by left]. }
  assert (Hloop : forall moves s1,
    stroking s0 c0 tool s1 ->
    let s := foldl (fun s p => handleMouseMove p s) s1 moves in
    stroking s0 c0 tool s
    /\ penPoints s
       = penPoints s1
         ++ (if decide (tool = pen) then clampToCanvas c0 <$> moves else [])
    /\ (forall p, last moves = Some p -> previewOf s0 c0 tool p s)).
  { clear moves. induction moves as [|p moves IH]; intros s1 Hs1; cbn.
    - split; [done|]. split; [case_decide; by rewrite app_nil_r|]. done.
    - destruct (handleMouseMove_stroking s0 c0 tool s1 p Hwf Hs1)
        as (Hs2 & Hpen & Hprev).
      destruct (IH _ Hs2) as (Hs & Hpens & Hlast). cbn in Hs, Hpens, Hlast.
      split; [exact Hs|]. split.
      + rewrite Hpens, Hpen. case_decide; [|by rewrite !app_nil_r].
        by rewrite <- app_assoc.
      + intros q Hq. destruct moves as [|p' moves]; [|by apply Hlast].
        cbn in Hq. injection Hq as <-. exact Hprev. }
  destruct (Hloop moves s0 Hstart) as (Hs & Hpens & Hlast).
  destruct Hs as (c & Hcs & _ & _ & _ & _ & _ & _ & _ & _ & Hobjs & Hl & Hi).
  split; [eauto|]. split; [done|]. split; [exact Hpens|exact Hlast].
Qed.

(** *** Style *)

(** What setStrokeColor and setStrokeWidth do to the active object. *)
Definition recolour (color : string) (o : FabricObject) : FabricObject :=
  if isTextObject o then set_fill color o else set_stroke color o.

Definition rewidth (w : R) (o : FabricObject) : FabricObject :=
  if isTextObject o then set_fontSize (16 + (w - 1) * 4) o
  else set_strokeWidth w o.

(** A style change of the active object, followed by saveHistory. *)
Lemma restyle_pushes s a f :
  getActiveObject s = Some a -> (-1 <= historyIndex s)%Z ->
  let s' := saveHistory (modify a f s) in
  heap s' = alter f a (heap s)
  /\ fabricCanvas s' = fabricCanvas s
  /\ history s'
     = take (Z.to_nat (historyIndex s + 1)) (history s)
       ++ [mkHistoryEntry (persistentObjects s')]
  /\ historyIndex s' = (historyLength s' - 1)%Z.
Proof.
  intros Ha Hi s'. subst s'.
  assert (Hc : is_Some (fabricCanvas (modify a f s))).
  { unfold getActiveObject in Ha. cbn. destruct (fabricCanvas s); [eauto|done]. }
  destruct (saveHistory_spec _ Hc) as (_ & _ & Hh & Hcv & _).
  destruct (saveHistory_log _ Hc) as [Hl Hidx]; [done|].
  split; [by rewrite Hh|]. split; [by rewrite Hcv|].
  rewrite (persistentObjects_ext (modify a f s) (saveHistory (modify a f s)))
    by done.
  split; [exact Hl|].
  rewrite Hidx. unfold historyLength. rewrite Hl, length_app, length_take.
  cbn [length history historyIndex modify set_heap]. lia.
Qed.

(** X16: setStrokeColor and setStrokeWidth always record the new value in
    the drawing configuration.  With nothing selected that is all they do.
    With an object selected they restyle that object and no other (a text
    takes the colour as its fill and steps its font size to 16 + (w - 1) * 4,
    a shape takes the colour as its stroke and the width as its stroke
    width), and then push exactly one history entry, the snapshot of the
    restyled canvas, so that the change can be undone. *)
Theorem style_change s color w :
  (DrawingConfig.strokeColor (drawingConfig (setStrokeColor color s)) = color
   /\ DrawingConfig.strokeWidth (drawingConfig (setStrokeWidth w s)) = w)
  /\ (getActiveObject s = None ->
      setStrokeColor color s
      = set_drawingConfig
          (DrawingConfig.mk color (DrawingConfig.strokeWidth (drawingConfig s))
             (DrawingConfig.fillColor (drawingConfig s))) s
      /\ setStrokeWidth w s
         = set_drawingConfig
             (DrawingConfig.mk (DrawingConfig.strokeColor (drawingConfig s)) w
                (DrawingConfig.fillColor (drawingConfig s))) s)
  /\ (forall a, getActiveObject s = Some a -> (-1 <= historyIndex s)%Z ->
      (let s' := setStrokeColor color s in
       heap s' = alter (recolour color) a (heap s)
       /\ fabricCanvas s' = fabricCanvas s
       /\ history s'
          = take (Z.to_nat (historyIndex s + 1)) (history s)
            ++ [mkHistoryEntry (persistentObjects s')]
       /\ historyIndex s' = (historyLength s' - 1)%Z)
      /\ (let s' := setStrokeWidth w s in
          heap s' = alter (rewidth w) a (heap s)
          /\ fabricCanvas s' = fabricCanvas s
          /\ history s'
             = take (Z.to_nat (historyIndex s + 1)) (history s)
               ++ [mkHistoryEntry (persistentObjects s')]
          /\ historyIndex s' = (historyLength s' - 1)%Z)).
Proof.
  split; [|split].
  - unfold setStrokeColor, setStrokeWidth, saveHistory.
    split; repeat case_match; reflexivity.
  - unfold getActiveObject, setStrokeColor, setStrokeWidth.
    cbn [fabricCanvas set_drawingConfig]. by intros ->.
  - intros a Ha Hi.
    unfold setStrokeColor, setStrokeWidth.
    cbn [fabricCanvas set_drawingConfig]. fold (getActiveObject s). rewrite Ha.
    split.
    + apply (restyle_pushes (set_drawingConfig _ s) a (recolour color)); done.
    + apply (restyle_pushes (set_drawingConfig _ s) a (rewidth w)); done.
Qed.

(** *** Handles *)

Lemma createControlPoints_fold data defs : forall acc s c,
  fabricCanvas s = Some c ->
  let r :=
    foldl (fun '(acc, s) def =>
             let '(control, s) := alloc (controlCircle def data) s in
             (acc ++ [control], canvasAdd control s))
      (acc, s) defs in
  r.1 = acc ++ seq (length (heap s)) (length defs)
  /\ heap r.2 = heap s ++ ((fun def => controlCircle def data) <$> defs)
  /\ fabricCanvas r.2
     = Some (mkCanvas (objects c ++ seq (length (heap s)) (length defs))
               (activeObject c) (width c) (height c))
  /\ sameSession s r.2 /\ sameLog s r.2
  /\ controlPoints r.2 = controlPoints s.
Proof.
  induction defs as [|def defs IH]; intros acc s c Hc.
  - cbn. rewrite !app_nil_r. repeat split; try done. by destruct c.
  - set (s1 := canvasAdd (length (heap s))
                 (set_heap (heap s ++ [controlCircle def data]) s)).
    set (body := fun '(acc, s) def =>
           let '(control, s) := alloc (controlCircle def data) s in
           (acc ++ [control], canvasAdd control s)).
    change (foldl body (acc, s) (def :: defs))
      with (foldl body (acc ++ [length (heap s)], s1) defs).
    subst body.
    assert (Hc1 : fabricCanvas s1
                  = Some (mkCanvas (objects c ++ [length (heap s)])
                            (activeObject c) (width c) (height c))).
    { subst s1. cbn. by rewrite Hc. }
    destruct (IH (acc ++ [length (heap s)]) s1 _ Hc1)
      as (Hacc & Hheap & Hcanvas & Hses & Hlog & Hcp).
    assert (Hlen : length (heap s1) = S (length (heap s))).
    { subst s1. cbn. rewrite length_app. cbn. lia. }
    rewrite Hlen in Hacc, Hcanvas. cbn [objects activeObject width height] in Hcanvas.
    split; [|split; [|split; [|split; [|split]]]].
    + rewrite Hacc. cbn [length seq]. by rewrite <- app_assoc.
    + rewrite Hheap. subst s1. cbn. by rewrite <- app_assoc.
    + rewrite Hcanvas. cbn [length seq]. by rewrite <- app_assoc.
    + eapply sameSession_step; [exact Hses|]. subst s1. auto with session.
    + eapply sameLog_trans; [|exact Hlog]. subst s1. auto with frame.
    + rewrite Hcp. reflexivity.
Qed.

(** X17: createControlPoints gives the shape it is called for exactly one
    handle per control-point definition of the shape's handler, in the
    order of the definitions: each a new, visible circle, marked as a
    control point, carrying the id of its definition and centred on the
    position the definition gives on the shape's datum.  The handles go on
    top of the canvas, after the handles that were on display have been
    taken off; the selection and the log are left alone. *)
Theorem createControlPoints_handles s c sh o d h :
  fabricCanvas s = Some c -> heap s !! sh = Some o -> shapeData o = Some d ->
  getHandler ShapeRegistry (shapeType d) = Some h ->
  let s' := createControlPoints sh s in
  let s1 := removeControlPoints s in
  let defs := getControlPoints h in
  let handles := seq (length (heap s1)) (length defs) in
  controlPoints s' = mkControlPoints (Some sh) handles
  /\ heap s' = heap s1 ++ ((fun def => controlCircle def d) <$> defs)
  /\ (exists c1,
        fabricCanvas s1 = Some c1
        /\ fabricCanvas s'
           = Some (mkCanvas (objects c1 ++ handles) (activeObject c1)
                     (width c1) (height c1)))
  /\ (forall i def,
        defs !! i = Some def ->
        exists ctl,
          heap s' !! (length (heap s1) + i)%nat = Some ctl
          /\ kind ctl = Circle (or_num (style def ≫= ControlStyle.radius) 6)
          /\ isControlPoint ctl = true /\ pointId ctl = Some (id def)
          /\ visible ctl = true
          /\ left ctl = x (getPosition def d) /\ top ctl = y (getPosition def d))
  /\ (history s' = history s /\ historyIndex s' = historyIndex s).
Proof.
  intros Hc Ho Hd Hh s' s1 defs handles.
  assert (Hc1 : exists c1, fabricCanvas s1 = Some c1).
  { destruct (sameLog_removeControlPoints s s (sameLog_refl s)) as (_ & _ & _ & Hcv).
    destruct (proj2 Hcv) as [c1 Hc1]; [rewrite Hc; eauto|]. by exists c1. }
  destruct Hc1 as [c1 Hc1].
  destruct (createControlPoints_fold d defs [] s1 c1 Hc1)
    as (Hacc & Hheap & Hcanvas & Hses & Hlog & Hcp).
  assert (Hs' : s' = set_controlPoints
                       (mkControlPoints (Some sh)
                          (foldl (fun '(acc, s) def =>
                                    let '(control, s) :=
                                      alloc (controlCircle def d) s in
                                    (acc ++ [control], canvasAdd control s))
                             ([], s1) defs).1)
                       (foldl (fun '(acc, s) def =>
                                 let '(control, s) :=
                                   alloc (controlCircle def d) s in
                                 (acc ++ [control], canvasAdd control s))
                          ([], s1) defs).2).
  { subst s'. unfold createControlPoints, shapeDataOf. rewrite Hc, Ho.
    cbn [mbind option_bind]. rewrite Hd, Hh. fold s1. fold defs.
    by destruct (foldl _ _ _). }
  cbn [fst snd] in Hacc, Hheap, Hcanvas, Hses, Hlog, Hcp.
  rewrite Hs'. cbn [controlPoints heap fabricCanvas history historyIndex
    set_controlPoints].
  split; [by rewrite Hacc|]. split; [exact Hheap|]. split; [eauto|]. split.
  - intros i def Hdef. exists (controlCircle def d).
    rewrite Hheap. rewrite lookup_app_r by lia.
    replace (length (heap s1) + i - length (heap s1))%nat with i by lia.
    rewrite list_lookup_fmap, Hdef. cbn. repeat split.
  - destruct Hlog as (Hl & Hi & _).
    destruct (sameLog_removeControlPoints s s (sameLog_refl s)) as (Hl1 & Hi1 & _).
    fold s1 in Hl1, Hi1. split; congruence.
Qed.

(** *** Deselecting *)

Lemma canvasRemove_loop pts : forall s c,
  fabricCanvas s = Some c ->
  exists c',
    fabricCanvas (foldl (fun s pt => canvasRemove pt s) s pts) = Some c'
    /\ (forall i, i ∈ objects c' <-> i ∈ objects c /\ i ∉ pts)
    /\ heap (foldl (fun s pt => canvasRemove pt s) s pts) = heap s
    /\ controlPoints (foldl (fun s pt => canvasRemove pt s) s pts)
       = controlPoints s.
Proof.
  induction pts as [|pt pts IH]; intros s c Hc; cbn [foldl].
  - exists c. split; [done|]. split; [|done]. intros i.
    split; [intros Hi; split; [done|apply not_elem_of_nil]|by intros [? _]].
  - edestruct (IH (canvasRemove pt s)) as (c' & Hc' & Hobjs & Hheap & Hcp).
    { cbn. rewrite Hc. reflexivity. }
    exists c'. split; [exact Hc'|]. split; [|done]. intros i.
    rewrite Hobjs. cbn [objects]. rewrite list_elem_of_filter, not_elem_of_cons.
    tauto.
Qed.

(** A text object that holds nothing but white space. *)
Definition blankText (o : FabricObject) : Prop :=
  match kind o with
  | IText content _ => isBlank content = true
  | _ => False
  end.

(** X18: when an object other than a handle is deselected, the handles on
    display are taken off the canvas and forgotten, the object loses its
    dashes, and the object itself is removed from the canvas exactly if it
    is a text that is empty or holds only white space.  Every other object
    stays on the canvas. *)
Theorem deselect_drops_blank_text s c obj o :
  fabricCanvas s = Some c -> heap s !! obj = Some o ->
  isControlPoint o = false ->
  let s' := handleDeselected [obj] s in
  (exists c',
     fabricCanvas s' = Some c'
     /\ forall i, i ∈ objects c'
                  <-> i ∈ objects c /\ (i ∉ points (controlPoints s))
                      /\ ~ (i = obj /\ blankText o))
  /\ controlPoints s' = mkControlPoints None []
  /\ (exists o', heap s' !! obj = Some o' /\ strokeDashArray o' = None
                 /\ kind o' = kind o /\ shapeData o' = shapeData o)
  /\ (history s' = history s /\ historyIndex s' = historyIndex s).
Proof.
  intros Hc Ho Hctl s'. subst s'. unfold handleDeselected. cbn [foldl].
  rewrite Ho, Hctl.
  set (s1 := modify obj (set_strokeDashArray None) s).
  set (s2 := match kind o with
             | IText content _ => if isBlank content then canvasRemove obj s1 else s1
             | _ => s1
             end).
  assert (Hs2 : exists c2,
            fabricCanvas s2 = Some c2
            /\ (forall i, i ∈ objects c2
                          <-> i ∈ objects c /\ ~ (i = obj /\ blankText o))
            /\ heap s2 = heap s1 /\ controlPoints s2 = controlPoints s
            /\ history s2 = history s /\ historyIndex s2 = historyIndex s).
  { subst s2. unfold blankText.
    destruct (kind o) as [path|content size|radius].
    - exists c. split; [subst s1; cbn; by rewrite Hc|]. split; [|done].
      intros i. tauto.
    - destruct (isBlank content) eqn:Hb.
      + eexists. split; [subst s1; cbn; rewrite Hc; reflexivity|].
        split; [|done]. intros i. cbn [objects].
        rewrite list_elem_of_filter. tauto.
      + exists c. split; [subst s1; cbn; by rewrite Hc|]. split; [|done].
        intros i. split; [|tauto]. intros Hi. split; [done|]. by intros [_ ?].
    - exists c. split; [subst s1; cbn; by rewrite Hc|]. split; [|done].
      intros i. tauto. }
  destruct Hs2 as (c2 & Hc2 & Hobjs2 & Hheap2 & Hcp2 & Hl2 & Hi2).
  unfold removeControlPoints. rewrite Hc2.
  destruct (canvasRemove_loop (points (controlPoints s2)) s2 c2 Hc2)
    as (c3 & Hc3 & Hobjs3 & Hheap3 & Hcp3).
  set (s3 := foldl _ s2 _) in *.
  assert (Hl3 : sameLog s2 s3).
  { subst s3. apply sameLog_foldl; auto with frame. }
  destruct Hl3 as (Hl3 & Hi3 & _).
  assert (Hobj1 : heap s1 !! obj = Some (set_strokeDashArray None o)).
  { subst s1. cbn. by rewrite list_lookup_alter_eq, Ho. }
  split; [|split; [|split]].
  - exists c3. split; [by destruct (shape (controlPoints s3))|].
    intros i. rewrite Hobjs3, Hobjs2, Hcp2. tauto.
  - by destruct (shape (controlPoints s3)).
  - destruct (shape (controlPoints s3)) as [sh|]; cbn.
    + destruct (decide (sh = obj)) as [->|Hne].
      * rewrite list_lookup_alter_eq, Hheap3, Hheap2, Hobj1. cbn. eauto.
      * rewrite list_lookup_alter_ne, Hheap3, Hheap2, Hobj1 by done. eauto.
    + rewrite Hheap3, Hheap2, Hobj1. eauto.
  - destruct (shape (controlPoints s3)); cbn; split; congruence.
Qed.

(** *** Dragging a shape *)



(** *** Removing objects *)

(** [s'] has a canvas if [s] has one, and no object on it that [s] does
    not have on its canvas. *)
Definition shrinks (s s' : State) : Prop :=
  forall c, fabricCanvas s = Some c ->
    exists c', fabricCanvas s' = Some c' /\ objects c' ⊆ objects c.

Lemma shrinks_refl s : shrinks s s.
Proof. intros c Hc. by exists c. Qed.

Lemma shrinks_trans s1 s2 s3 : shrinks s1 s2 -> shrinks s2 s3 -> shrinks s1 s3.
Proof.
  intros H12 H23 c Hc. destruct (H12 c Hc) as (c2 & Hc2 & Hsub2).
  destruct (H23 c2 Hc2) as (c3 & Hc3 & Hsub3). exists c3. split; [done|].
  by etrans.
Qed.

Lemma shrinks_same s s' :
  fabricCanvas s' = fabricCanvas s -> shrinks s s'.
Proof. intros E c Hc. exists c. by rewrite E. Qed.

Lemma shrinks_canvasRemove s obj : shrinks s (canvasRemove obj s).
Proof.
  intros c Hc. eexists. split; [cbn; rewrite Hc; reflexivity|]. cbn.
  intros x Hx. by apply list_elem_of_filter in Hx as [_ Hx].
Qed.

Lemma shrinks_foldl {A} (f : State -> A -> State) l :
  (forall s x, shrinks s (f s x)) -> forall s, shrinks s (foldl f s l).
Proof.
  intros Hf. induction l as [|a l IH]; intros s; cbn; [apply shrinks_refl|].
  eapply shrinks_trans; [apply Hf|apply IH].
Qed.

Lemma shrinks_removeControlPoints s : shrinks s (removeControlPoints s).
Proof.
  unfold removeControlPoints.
  destruct (fabricCanvas s) eqn:Hc; [|apply shrinks_refl].
  eapply shrinks_trans.
  { apply (shrinks_foldl (fun s pt => canvasRemove pt s)).
    intros. apply shrinks_canvasRemove. }
  apply shrinks_same. by case_match.
Qed.

Lemma shrinks_handleDeselected s objs : shrinks s (handleDeselected objs s).
Proof.
  unfold handleDeselected. eapply shrinks_trans; [|apply shrinks_removeControlPoints].
  apply shrinks_foldl. intros s1 obj.
  destruct (heap s1 !! obj) as [o|]; [|apply shrinks_refl].
  destruct (isControlPoint o); [apply shrinks_refl|].
  assert (Hm : shrinks s1 (modify obj (set_strokeDashArray None) s1))
    by (by apply shrinks_same).
  repeat case_match; try exact Hm.
  eapply shrinks_trans; [exact Hm|apply shrinks_canvasRemove].
Qed.

Lemma fabricRemove_removes s c obj :
  fabricCanvas s = Some c ->
  exists c',
    fabricCanvas (fabricRemove s obj) = Some c'
    /\ objects c' ⊆ filter (fun i => i <> obj) (objects c).
Proof.
  intros Hc. unfold fabricRemove. rewrite Hc.
  assert (Hrm : fabricCanvas (canvasRemove obj s)
                = Some (mkCanvas (filter (fun i => i <> obj) (objects c))
                          (if decide (activeObject c = Some obj) then None
                           else activeObject c) (width c) (height c))).
  { cbn. by rewrite Hc. }
  case_decide.
  - destruct (shrinks_handleDeselected (canvasRemove obj s) [obj] _ Hrm)
      as (c' & Hc' & Hsub).
    exists c'. split; [exact Hc'|exact Hsub].
  - eexists. split; [exact Hrm|done].
Qed.

Lemma sameLog_fabricRemove s0 s obj :
  sameLog s0 s -> sameLog s0 (fabricRemove s obj).
Proof. intros Hs. unfold fabricRemove, onSelectionCleared. frame. Qed.

(** X20: clearObjects leaves the canvas without objects, whatever was
    selected (removing the selected object also removes its handles), and
    pushes no history entry: the log and the cursor are as before, so the
    objects it removed can only come back through an undo to an earlier
    entry.  removeObject takes the object it is given off the canvas and
    adds none. *)
Theorem clearObjects_empties s c :
  fabricCanvas s = Some c ->
  (exists c',
     fabricCanvas (clearObjects s) = Some c' /\ objects c' = []
     /\ persistentObjects (clearObjects s) = [])
  /\ (history (clearObjects s) = history s
      /\ historyIndex (clearObjects s) = historyIndex s)
  /\ (forall obj,
      exists c',
        fabricCanvas (removeObject obj s) = Some c'
        /\ (obj ∉ objects c') /\ (objects c' ⊆ objects c)
        /\ history (removeObject obj s) = history s).
Proof.
  intros Hc. split; [|split].
  - assert (Hloop : forall l s1 c1,
              fabricCanvas s1 = Some c1 -> objects c1 ⊆ l ->
              exists c', fabricCanvas (foldl fabricRemove s1 l) = Some c'
                         /\ objects c' = []).
    { induction l as [|a l IH]; intros s1 c1 Hc1 Hsub; cbn.
      - exists c1. split; [done|]. destruct (objects c1) as [|x xs]; [done|].
        specialize (Hsub x (list_elem_of_here _ _)). by apply elem_of_nil in Hsub.
      - destruct (fabricRemove_removes s1 c1 a Hc1) as (c2 & Hc2 & Hsub2).
        apply (IH _ c2 Hc2). intros x Hx. apply Hsub2 in Hx.
        apply list_elem_of_filter in Hx as [Hne Hx]. apply Hsub in Hx.
        apply elem_of_cons in Hx as [->|Hx]; done. }
    unfold clearObjects. rewrite Hc.
    destruct (Hloop (objects c) s c Hc) as (c' & Hc' & Hobjs); [done|].
    exists c'. split; [done|]. split; [done|].
    unfold persistentObjects, canvasObjects. unfold clearObjects in Hc'.
    by rewrite Hc', Hobjs.
  - assert (Hlog : sameLog s (clearObjects s)).
    { unfold clearObjects. rewrite Hc. apply sameLog_foldl; [|apply sameLog_refl].
      intros. by apply sameLog_fabricRemove. }
    destruct Hlog as (Hl & Hi & _). done.
  - intros obj. unfold removeObject.
    destruct (fabricRemove_removes s c obj Hc) as (c' & Hc' & Hsub).
    exists c'. split; [done|]. split; [|split].
    + intros Hin. apply Hsub in Hin. by apply list_elem_of_filter in Hin as [Hne _].
    + intros x Hx. apply Hsub in Hx. by apply list_elem_of_filter in Hx as [_ Hx].
    + by destruct (sameLog_fabricRemove s s obj (sameLog_refl s)) as (-> & _).
Qed.

(** *** Hit testing and the surface without a canvas *)

Lemma find_rev_topmost {A} (P : A -> bool) (l : list A) :
  match List.find P (rev l) with
  | Some a =>
      exists below above,
        l = below ++ a :: above /\ P a = true
        /\ forall b, b ∈ above -> P b = false
  | None => forall b, b ∈ l -> P b = false
  end.
Proof.
  induction l as [|a l IH] using rev_ind.
  - cbn. intros b Hb. by apply elem_of_nil in Hb.
  - rewrite rev_app_distr. cbn. destruct (P a) eqn:Ha.
    + exists l, []. split; [done|]. split; [done|].
      intros b Hb. by apply elem_of_nil in Hb.
    + destruct (List.find P (rev l)) as [a'|].
      * destruct IH as (below & above & -> & Hp & Habove).
        exists below, (above ++ [a]). split; [by rewrite <- app_assoc|].
        split; [done|]. intros b Hb. apply elem_of_app in Hb as [Hb|Hb].
        -- by apply Habove.
        -- apply list_elem_of_singleton in Hb. by subst.
      * intros b Hb. apply elem_of_app in Hb as [Hb|Hb]; [by apply IH|].
        apply list_elem_of_singleton in Hb. by subst.
Qed.

(** X21: getObjectAtPoint returns the topmost object under the point: an
    object of the canvas that contains the point such that no object above
    it in the stack contains the point; and it returns null exactly when
    no object of the canvas contains the point. *)
Theorem getObjectAtPoint_topmost (containsPoint : FabricObject -> Point2D -> bool)
    px py s c :
  fabricCanvas s = Some c ->
  let hit obj :=
    match heap s !! obj with
    | Some o => containsPoint o (mkPoint2D px py)
    | None => false
    end in
  match getObjectAtPoint containsPoint px py s with
  | Some obj =>
      exists below above,
        objects c = below ++ obj :: above /\ hit obj = true
        /\ forall i, i ∈ above -> hit i = false
  | None => forall i, i ∈ objects c -> hit i = false
  end.
Proof.
  intros Hc hit. unfold getObjectAtPoint. rewrite Hc.
  apply (find_rev_topmost hit (objects c)).
Qed.

(** Before initCanvas and after dispose the instance has no canvas,
    and every operation that needs one returns without doing anything:
    the pointer handlers, the control-point functions, addObject,
    removeObject, clearObjects, saveHistory, undo, redo and
    discardActiveObject leave the state as it is, toDataURL returns the
    empty string, the queries return null, and setActiveTool only records
    the tool. *)
Theorem without_canvas s :
  fabricCanvas s = None ->
  ((forall p t, handleMouseDown p t s = s)
   /\ (forall p, handleMouseMove p s = s) /\ handleMouseUp s = s)
  /\ ((forall sh, createControlPoints sh s = s) /\ removeControlPoints s = s
      /\ (forall sh ctl def, updateShapeFromControl sh ctl def s = s))
  /\ ((forall o, addObject o s = s) /\ (forall obj, removeObject obj s = s)
      /\ clearObjects s = s /\ discardActiveObject s = s)
  /\ (saveHistory s = s /\ undo s = s /\ redo s = s
      /\ forall fmt q, toDataURL fmt q s = (None, s))
  /\ (getActiveObject s = None
      /\ forall hit px py, getObjectAtPoint hit px py s = None)
  /\ (forall tool, setActiveTool tool s = set_activeTool tool s)
  /\ fabricCanvas (dispose s) = None.
Proof.
  intros Hc.
  unfold handleMouseDown, handleMouseMove, handleMouseUp, createControlPoints,
    removeControlPoints, updateShapeFromControl, addObject, removeObject,
    fabricRemove, clearObjects, discardActiveObject, saveHistory, undo, redo,
    toDataURL, getActiveObject, getObjectAtPoint, setActiveTool.
  cbn [fabricCanvas set_activeTool]. rewrite Hc. cbn. repeat split.
Qed.

End WithLayout.

(** *** The laws at work on a small session *)

#[local] Existing Instance ShapesSpec.originLayout.

Definition steps : State -> list Event -> State :=
  foldl (fun s e => step e s).

(** The surface of [SurfaceLaws.twoEntries] after a press on the empty
    canvas with the text tool, and with the rectangle tool. *)
Definition pressedText : State :=
  steps SurfaceLaws.twoEntries
    [SetActiveTool (Some text); MouseDown (mkPoint2D 10 10) None].

Definition pressedRect : State :=
  steps SurfaceLaws.twoEntries
    [SetActiveTool (Some rect); MouseDown (mkPoint2D 0 0) None].

Lemma mouse_up_pushes_once_witness :
  let s' := handleMouseUp pressedText in
  isDrawing pressedText = true /\ activeTool pressedText = Some text
  /\ isDrawing s' = false /\ currentObject s' = None /\ penPoints s' = []
  /\ history s'
     = take (Z.to_nat (historyIndex pressedText + 1)) (history pressedText)
       ++ [mkHistoryEntry (persistentObjects s')]
  /\ historyIndex s' = (historyLength s' - 1)%Z.
Proof.
  intros s'.
  assert (Hc : fabricCanvas pressedText = Some (mkCanvas [0%nat] None 300 200))
    by (cbv -[IZR]; reflexivity).
  assert (Hi : (-1 <= historyIndex pressedText)%Z) by (cbv -[IZR]; discriminate).
  assert (Hd : isDrawing pressedText = true) by (cbv -[IZR]; reflexivity).
  assert (Ht : activeTool pressedText = Some text) by (cbv -[IZR]; reflexivity).
  destruct (mouse_up_pushes_once pressedText _ Hc Hi)
    as [_ Hup].
  destruct (Hup Hd) as (H1 & H2 & H3 & Hpush & _).
  destruct (Hpush (or_intror Ht)) as [H4 H5].
  exact (conj Hd (conj Ht (conj H1 (conj H2 (conj H3 (conj H4 H5)))))).
Defined.

Lemma drag_keeps_one_preview_witness :
  let c0 := mkCanvas [0%nat] None 300 200 in
  let moves := [mkPoint2D 50 40; mkPoint2D 80 60] in
  let s := foldl (fun s p => handleMouseMove p s)
             pressedRect moves in
  (exists c,
     fabricCanvas s = Some c
     /\ (objects c = objects c0
         \/ exists obj, objects c = objects c0 ++ [obj]
                         /\ currentObject s = Some obj))
  /\ (history s = history pressedRect
      /\ historyIndex s = historyIndex pressedRect)
  /\ penPoints s
     = penPoints pressedRect
       ++ (if decide (rect = pen) then clampToCanvas c0 <$> moves else [])
  /\ (forall p, last moves = Some p ->
      previewOf pressedRect c0 rect p s).
Proof.
  apply (drag_keeps_one_preview pressedRect
           (mkCanvas [0%nat] None 300 200) rect
           [mkPoint2D 50 40; mkPoint2D 80 60]);
    try (cbv -[IZR]; reflexivity).
  intros obj Hobj. apply list_elem_of_singleton in Hobj as ->.
  cbv -[IZR]. constructor.
Defined.

Lemma clearObjects_empties_witness :
  let s := SurfaceLaws.selected in
  let c := mkCanvas [0; 1; 2; 3; 4]%nat (Some 0%nat) 300 200 in
  (exists c',
     fabricCanvas (clearObjects s) = Some c'
     /\ objects c' = []
     /\ persistentObjects (clearObjects s) = [])
  /\ (history (clearObjects s) = history s
      /\ historyIndex (clearObjects s)
         = historyIndex s)
  /\ (forall obj,
      exists c',
        fabricCanvas (removeObject obj s) = Some c'
        /\ (obj ∉ objects c') /\ (objects c' ⊆ objects c)
        /\ history (removeObject obj s) = history s).
Proof.
  apply (clearObjects_empties SurfaceLaws.selected).
  cbv -[IZR]. reflexivity.
Defined.

Lemma createControlPoints_handles_witness :
  let s := SurfaceLaws.twoEntries in
  let d := RectShapeData 10 10 60 50 in
  let h := RectHandler in
  let s' := createControlPoints 0%nat s in
  let s1 := removeControlPoints s in
  let defs := getControlPoints h in
  let handles := seq (length (heap s1)) (length defs) in
  controlPoints s' = mkControlPoints (Some 0%nat) handles
  /\ heap s' = heap s1 ++ ((fun def => controlCircle def d) <$> defs)
  /\ (exists c1,
        fabricCanvas s1 = Some c1
        /\ fabricCanvas s'
           = Some (mkCanvas (objects c1 ++ handles) (activeObject c1)
                     (width c1) (height c1)))
  /\ (forall i def,
        defs !! i = Some def ->
        exists ctl,
          heap s' !! (length (heap s1) + i)%nat = Some ctl
          /\ kind ctl = Circle (or_num (style def ≫= ControlStyle.radius) 6)
          /\ isControlPoint ctl = true /\ pointId ctl = Some (id def)
          /\ visible ctl = true
          /\ left ctl = x (getPosition def d) /\ top ctl = y (getPosition def d))
  /\ (history s' = history s /\ historyIndex s' = historyIndex s).
Proof.
  apply (createControlPoints_handles SurfaceLaws.twoEntries (mkCanvas [0%nat] None 300 200) 0%nat
           SurfaceLaws.rectangle (RectShapeData 10 10 60 50)
           RectHandler);
    cbv -[IZR]; reflexivity.
Defined.

(** A text that holds one ideographic space, U+3000, added to the surface
    of [SurfaceLaws.twoEntries] on top of the rectangle. *)
Definition ideographicSpace : string :=
  String (ascii_of_nat 227)
    (String (ascii_of_nat 128) (String (ascii_of_nat 128) EmptyString)).

Definition blankNote : FabricObject :=
  let data := TextShapeData 10 10 ideographicSpace 20 None None in
  set_shapeData (Some data) (createPath TextHandler data defaultDrawingConfig).

Definition noted : State := addObject blankNote SurfaceLaws.twoEntries.

Lemma deselect_drops_blank_text_witness :
  let s' := handleDeselected [1%nat] noted in
  blankText blankNote
  /\ exists c',
       fabricCanvas s' = Some c'
       /\ (1%nat ∉ objects c') /\ (0%nat ∈ objects c')
       /\ history s' = history noted.
Proof.
  intros s'.
  assert (Hc : fabricCanvas noted = Some (mkCanvas [0; 1]%nat None 300 200))
    by (cbv -[IZR]; reflexivity).
  assert (Ho : heap noted !! 1%nat = Some blankNote)
    by (cbv -[IZR]; reflexivity).
  assert (Hblank : blankText blankNote) by (cbv -[IZR]; reflexivity).
  destruct (deselect_drops_blank_text noted _ 1%nat blankNote Hc Ho eq_refl)
    as ((c' & Hc' & Hiff) & _ & _ & Hlog & _).
  split; [exact Hblank|]. exists c'. split; [exact Hc'|]. split; [|split].
  - intros Hin. apply Hiff in Hin as (_ & _ & Hkeep). by apply Hkeep.
  - apply Hiff. split; [apply list_elem_of_here|]. split.
    + intros Hin. cbv -[IZR elem_of] in Hin. by apply elem_of_nil in Hin.
    + intros [Heq _]. discriminate Heq.
  - exact Hlog.
Defined.


Lemma getObjectAtPoint_topmost_witness :
  let containsPoint (o : FabricObject) (p : Point2D) := visible o in
  let s := SurfaceLaws.selected in
  let c := mkCanvas [0; 1; 2; 3; 4]%nat (Some 0%nat) 300 200 in
  let hit obj :=
    match heap s !! obj with
    | Some o => containsPoint o (mkPoint2D 20 20)
    | None => false
    end in
  match getObjectAtPoint containsPoint 20 20 s with
  | Some obj =>
      exists below above,
        objects c = below ++ obj :: above /\ hit obj = true
        /\ forall i, i ∈ above -> hit i = false
  | None => forall i, i ∈ objects c -> hit i = false
  end.
Proof.
  apply (getObjectAtPoint_topmost (fun o _ => visible o) 20 20
           SurfaceLaws.selected
           (mkCanvas [0; 1; 2; 3; 4]%nat (Some 0%nat) 300 200)).
  cbv -[IZR]. reflexivity.
Defined.

End GestureLaws.

(** ** Region selection *)

Module SelectionSpec.
Import Selection.
Local Open Scope R_scope.



















(** C5: when a selection drag ends with a box below 10 pixels in width or
    in height, the release handler clears the selection in the plain-canvas
    variant, where no border or handle stays drawn, and replaces it by the
    full capture bounds in the fabric variant, where a border is drawn, if
    at all, around the full bounds; selecting is over in both. *)
Theorem small_selection_release st sel :
  isSelecting st = true -> selection st = Some sel ->
  Box.w sel < 10 \/ Box.h sel < 10 ->
  (selection (handleMouseUp_canvas st) = None
   /\ mask (handleMouseUp_canvas st) = None
   /\ isSelecting (handleMouseUp_canvas st) = false)
  /\ (selection (handleMouseUp_fabric st)
      = Some (Box.mk 0 0 (Box.w (bounds st)) (Box.h (bounds st)))
      /\ (mask (handleMouseUp_fabric st) = None
          \/ mask (handleMouseUp_fabric st)
             = Some (Box.mk 0 0 (Box.w (bounds st)) (Box.h (bounds st))))
      /\ isSelecting (handleMouseUp_fabric st) = false).
Proof.
  intros Hsel Hbox Hsmall.
  assert (Hs : tooSmall sel = true).
  { unfold tooSmall. apply orb_true_iff.
    destruct Hsmall; [left | right]; by apply NumFacts.ltb_lt. }
  unfold handleMouseUp_canvas, handleMouseUp_fabric.
  rewrite Hsel. cbn [selection set_isSelecting]. rewrite Hbox, Hs.
  cbn. repeat split.
  destruct (Num.ltb 0 (Box.w (bounds st)) && Num.ltb 0 (Box.h (bounds st)));
    [by right | by left].
Qed.

(** A click: the drag ended where it began, at (40, 40). *)
Definition clicked : State :=
  mkState true false false None (Some (Box.mk 40 40 0 0))
    (mkPoint2D 40 40) (mkPoint2D 0 0) None
    (mkPoint2D 1 1) (Box.mk 0 0 1000 800) false None.

Lemma small_selection_release_witness :
  (selection (handleMouseUp_canvas clicked) = None
   /\ mask (handleMouseUp_canvas clicked) = None
   /\ isSelecting (handleMouseUp_canvas clicked) = false)
  /\ (selection (handleMouseUp_fabric clicked)
      = Some (Box.mk 0 0 (Box.w (bounds clicked)) (Box.h (bounds clicked)))
      /\ (mask (handleMouseUp_fabric clicked) = None
          \/ mask (handleMouseUp_fabric clicked)
             = Some (Box.mk 0 0 (Box.w (bounds clicked)) (Box.h (bounds clicked))))
      /\ isSelecting (handleMouseUp_fabric clicked) = false).
Proof.
  apply (small_selection_release clicked (Box.mk 40 40 0 0) eq_refl eq_refl).
  left. cbn. lra.
Defined.

End SelectionSpec.

(** ** Region selection: moving, rubber-banding and freezing *)

Module SelectionLaws.
Import Selection.
Local Open Scope R_scope.

(** The box spanned by two corners. *)
Definition spanned (p q : Point2D) : Box.t :=
  Box.mk (Rmin (x p) (x q)) (Rmin (y p) (y q))
    (Rabs (x q - x p)) (Rabs (y q - y p)).

(** The whole capture. *)
Definition fullBounds (st : State) : Box.t :=
  Box.mk 0 0 (Box.w (bounds st)) (Box.h (bounds st)).

(** What no pointer event changes. *)
Lemma step_fabric_fixed e st :
  scaleFactor (step_fabric e st) = scaleFactor st
  /\ bounds (step_fabric e st) = bounds st
  /\ hasObjects (step_fabric e st) = hasObjects st.
Proof.
  destruct e as [onToolbar onUpper cx cy|cx cy|]; cbn [step_fabric].
  - unfold handleMouseDown_fabric. by repeat case_match.
  - unfold handleMouseMove. by repeat case_match.
  - unfold handleMouseUp_fabric. by repeat case_match.
Qed.

(** X22: moving the selection keeps its size and keeps it inside the
    capture.  In one move step of handleMouseMove, a box that is no larger
    than the bounds comes out with the width and height it had when the
    drag began and within the bounds; and it is the box of the start moved
    by the displacement of the pointer whenever that box is within the
    bounds. *)
Theorem move_step_in_bounds st clientX clientY start :
  isSelecting st = false -> isDragging st = true ->
  dragStartSelection st = Some start -> hasObjects st = false ->
  0 <= Box.w start <= Box.w (bounds st) ->
  0 <= Box.h start <= Box.h (bounds st) ->
  let pos := toCanvasCoords st clientX clientY in
  let moved :=
    Box.mk (Box.x start + (x pos - x (dragStartPos st)))
      (Box.y start + (y pos - y (dragStartPos st)))
      (Box.w start) (Box.h start) in
  exists b,
    selection (handleMouseMove clientX clientY st) = Some b
    /\ Box.w b = Box.w start /\ Box.h b = Box.h start
    /\ inBounds (bounds st) b
    /\ (inBounds (bounds st) moved -> b = moved).
Proof.
  intros Hsel Hdrag Hstart Hobj Hw Hh pos moved.
  unfold handleMouseMove. rewrite Hsel, Hdrag, Hstart, Hobj.
  eexists. split; [reflexivity|]. subst moved. fold pos.
  unfold moveSelection, inBounds. cbn [Box.x Box.y Box.w Box.h].
  split; [done|]. split; [done|]. split.
  - real_cases; repeat split; lra.
  - intros (Hx & Hy & _ & _ & Hr & Hb). f_equal; real_cases; lra.
Qed.

(** The rubber band while selecting: every move spans the box from the
    start position to the pointer. *)
Lemma rubber_band_moves moves st :
  isSelecting st = true ->
  let st' := foldl (fun st m => handleMouseMove m.1 m.2 st) st moves in
  isSelecting st' = true /\ startPos st' = startPos st
  /\ scaleFactor st' = scaleFactor st /\ bounds st' = bounds st
  /\ selection st'
     = match last moves with
       | Some m => Some (spanned (startPos st) (toCanvasCoords st m.1 m.2))
       | None => selection st
       end.
Proof.
  revert st. induction moves as [|m moves IH]; intros st Hsel; [done|].
  cbn [foldl].
  set (st1 := handleMouseMove m.1 m.2 st).
  assert (H1 : isSelecting st1 = true /\ startPos st1 = startPos st
               /\ scaleFactor st1 = scaleFactor st /\ bounds st1 = bounds st
               /\ selection st1
                  = Some (spanned (startPos st) (toCanvasCoords st m.1 m.2))).
  { subst st1. unfold handleMouseMove. rewrite Hsel. done. }
  destruct H1 as (Hsel1 & Hstart1 & Hscale1 & Hbounds1 & Hbox1).
  destruct (IH st1 Hsel1) as (Hsel' & Hstart' & Hscale' & Hbounds' & Hbox').
  cbn zeta in *. split; [done|]. split; [congruence|]. split; [congruence|].
  split; [congruence|]. rewrite Hbox'.
  destruct moves as [|m' moves]; [done|].
  change (last (m :: m' :: moves)) with (last (m' :: moves)).
  destruct (last (m' :: moves)) as [l|] eqn:El.
  - rewrite Hstart1. unfold toCanvasCoords. by rewrite Hscale1.
  - by apply last_None in El.
Qed.

(** X23: selecting a region, fabric variant.  A press outside the toolbar
    and the drawing canvas while nothing is selected, any number of moves
    and the release leave as the selection the box spanned by the position
    of the press and the last position of the pointer, if it measures at
    least 10 pixels both ways, and the whole capture otherwise (so a plain
    click selects everything); every drag mode is over. *)
Theorem select_by_dragging st clientX clientY moves :
  selection st = None ->
  let p := toCanvasCoords st clientX clientY in
  let q :=
    match last moves with
    | Some m => toCanvasCoords st m.1 m.2
    | None => p
    end in
  let st' :=
    handleMouseUp_fabric
      (foldl (fun st m => handleMouseMove m.1 m.2 st)
         (handleMouseDown_fabric false false clientX clientY st) moves) in
  selection st'
  = Some (if tooSmall (spanned p q) then fullBounds st else spanned p q)
  /\ isSelecting st' = false /\ isDragging st' = false
  /\ isResizing st' = false.
Proof.
  intros Hnone p q st'. subst st'.
  set (st1 := handleMouseDown_fabric false false clientX clientY st).
  assert (H1 : isSelecting st1 = true /\ startPos st1 = p
               /\ scaleFactor st1 = scaleFactor st /\ bounds st1 = bounds st
               /\ selection st1 = Some (Box.mk (x p) (y p) 0 0)).
  { subst st1. unfold handleMouseDown_fabric. rewrite Hnone. done. }
  destruct H1 as (Hsel1 & Hstart1 & Hscale1 & Hbounds1 & Hbox1).
  destruct (rubber_band_moves moves st1 Hsel1)
    as (Hsel2 & Hstart2 & Hscale2 & Hbounds2 & Hbox2).
  cbn zeta in Hsel2, Hstart2, Hscale2, Hbounds2, Hbox2.
  set (st2 := foldl (fun st m => handleMouseMove m.1 m.2 st) st1 moves) in *.
  assert (Hbox : selection st2 = Some (spanned p q)).
  { rewrite Hbox2. subst q. destruct (last moves) as [m|].
    - rewrite Hstart1. unfold toCanvasCoords. by rewrite Hscale1.
    - rewrite Hbox1. unfold spanned. f_equal.
      rewrite !Rmin_left, !Rminus_diag, Rabs_R0 by lra. done. }
  unfold handleMouseUp_fabric. rewrite Hsel2.
  cbn [selection set_isSelecting]. rewrite Hbox.
  unfold fullBounds. rewrite <- Hbounds1, <- Hbounds2.
  destruct (tooSmall (spanned p q)); done.
Qed.

(** X24: once something is drawn, the selection is frozen.  While the
    canvas has objects and no rubber band is being pulled, no sequence of
    presses, moves and releases moves, resizes or replaces the selection,
    and the border drawn around it stays as it is. *)
Theorem selection_frozen_with_objects st sel events :
  hasObjects st = true -> isSelecting st = false -> selection st = Some sel ->
  let st' := foldl (fun st e => step_fabric e st) st events in
  selection st' = Some sel /\ mask st' = mask st /\ isSelecting st' = false.
Proof.
  revert st. induction events as [|e events IH]; intros st Hobj Hsel Hbox;
    [done|].
  cbn [foldl].
  assert (H1 : hasObjects (step_fabric e st) = true
               /\ isSelecting (step_fabric e st) = false
               /\ selection (step_fabric e st) = Some sel
               /\ mask (step_fabric e st) = mask st).
  { destruct e as [onToolbar onUpper cx cy|cx cy|]; cbn [step_fabric].
    - unfold handleMouseDown_fabric. rewrite Hbox, Hobj. cbn [negb].
      by repeat case_match.
    - unfold handleMouseMove. rewrite Hsel, Hobj. by repeat case_match.
    - unfold handleMouseUp_fabric. by rewrite Hsel. }
  destruct H1 as (Hobj1 & Hsel1 & Hbox1 & Hmask1).
  destruct (IH _ Hobj1 Hsel1 Hbox1) as (H2 & H3 & H4).
  cbn zeta in *. split; [done|]. split; [congruence|done].
Qed.

(** A capture of 1000 x 800 pixels with a box of 200 x 100 grabbed at
    (150, 150) for moving. *)
Definition moving : State :=
  mkState false true false None (Some (Box.mk 100 100 200 100))
    (mkPoint2D 0 0) (mkPoint2D 150 150) (Some (Box.mk 100 100 200 100))
    (mkPoint2D 1 1) (Box.mk 0 0 1000 800) false (Some (Box.mk 100 100 200 100)).

Lemma move_step_in_bounds_witness :
  let pos := toCanvasCoords moving 2000 160 in
  let moved :=
    Box.mk (100 + (x pos - 150)) (100 + (y pos - 150)) 200 100 in
  exists b,
    selection (handleMouseMove 2000 160 moving) = Some b
    /\ Box.w b = 200 /\ Box.h b = 100
    /\ inBounds (bounds moving) b
    /\ (inBounds (bounds moving) moved -> b = moved).
Proof.
  apply (move_step_in_bounds moving 2000 160 (Box.mk 100 100 200 100)
           eq_refl eq_refl eq_refl eq_refl); cbn; lra.
Defined.

(** The same capture with nothing selected, and with a selection and a
    drawing on it. *)
Definition idle : State :=
  mkState false false false None None
    (mkPoint2D 0 0) (mkPoint2D 0 0) None
    (mkPoint2D 2 2) (Box.mk 0 0 1000 800) false None.

Definition annotated : State :=
  mkState false false false None (Some (Box.mk 100 100 200 100))
    (mkPoint2D 0 0) (mkPoint2D 0 0) None
    (mkPoint2D 1 1) (Box.mk 0 0 1000 800) true (Some (Box.mk 100 100 200 100)).

Lemma select_by_dragging_witness :
  let p := toCanvasCoords idle 10 20 in
  let q := toCanvasCoords idle 110 70 in
  let st' :=
    handleMouseUp_fabric
      (foldl (fun st m => handleMouseMove m.1 m.2 st)
         (handleMouseDown_fabric false false 10 20 idle)
         [(50, 60); (110, 70)]) in
  selection st'
  = Some (if tooSmall (spanned p q) then fullBounds idle else spanned p q)
  /\ isSelecting st' = false /\ isDragging st' = false
  /\ isResizing st' = false.
Proof.
  apply (select_by_dragging idle 10 20 [(50, 60); (110, 70)] eq_refl).
Defined.

Lemma selection_frozen_with_objects_witness :
  let st' :=
    foldl (fun st e => step_fabric e st) annotated
      [MouseDown false false 95 95; MouseMove 10 10; MouseUp;
       MouseDown false false 500 500; MouseMove 600 600; MouseUp] in
  selection st' = Some (Box.mk 100 100 200 100)
  /\ mask st' = mask annotated /\ isSelecting st' = false.
Proof.
  apply (selection_frozen_with_objects annotated (Box.mk 100 100 200 100)
           _ eq_refl eq_refl eq_refl).
Defined.

End SelectionLaws.

(** ** The capture window: bounds, hit testing and the toolbar *)

Module CaptureLaws.
Import Capture.
Local Open Scope R_scope.

(** The point of the segment from (x1, y1) to (x2, y2) at parameter [t]. *)
Definition along (x1 y1 x2 y2 t : R) : Point2D :=
  mkPoint2D (x1 + t * (x2 - x1)) (y1 + t * (y2 - y1)).

(** The Euclidean distance from (px, py) to a point. *)
Definition distance (px py : R) (q : Point2D) : R :=
  sqrt ((px - x q) * (px - x q) + (py - y q) * (py - y q)).

(** The running minima and maxima of [bounds]. *)
Definition extend (acc : R * R * R * R) (c : CaptureResult.t) : R * R * R * R :=
  let '(minX, minY, maxX, maxY) := acc in
  (Rmin minX (CaptureResult.x c),
   Rmin minY (CaptureResult.y c),
   Rmax maxX (CaptureResult.x c + CaptureResult.width c),
   Rmax maxY (CaptureResult.y c + CaptureResult.height c)).

Definition corners (c : CaptureResult.t) : R * R * R * R :=
  (CaptureResult.x c, CaptureResult.y c,
   CaptureResult.x c + CaptureResult.width c,
   CaptureResult.y c + CaptureResult.height c).

Lemma bounds_fold c0 rest innerWidth innerHeight :
  bounds (c0 :: rest) innerWidth innerHeight
  = let '(minX, minY, maxX, maxY) := foldl extend (corners c0) rest in
    Box.mk minX minY (maxX - minX) (maxY - minY).
Proof.
  unfold bounds, corners.
  assert (E : forall acc,
            foldl
              (fun '(minX, minY, maxX, maxY) c =>
                 (Rmin minX (CaptureResult.x c),
                  Rmin minY (CaptureResult.y c),
                  Rmax maxX (CaptureResult.x c + CaptureResult.width c),
                  Rmax maxY (CaptureResult.y c + CaptureResult.height c)))
              acc rest
            = foldl extend acc rest).
  { induction rest as [|c rest IH]; intros acc; [done|].
    cbn [foldl]. rewrite <- IH. by destruct acc as [[[? ?] ?] ?]. }
  by rewrite E.
Qed.

Lemma extend_fold rest a b c d :
  let '(minX, minY, maxX, maxY) := foldl extend (a, b, c, d) rest in
  (minX <= a /\ minY <= b /\ c <= maxX /\ d <= maxY)
  /\ (forall e, e ∈ rest ->
      minX <= CaptureResult.x e /\ minY <= CaptureResult.y e
      /\ CaptureResult.x e + CaptureResult.width e <= maxX
      /\ CaptureResult.y e + CaptureResult.height e <= maxY)
  /\ (minX = a \/ exists e, e ∈ rest /\ minX = CaptureResult.x e)
  /\ (minY = b \/ exists e, e ∈ rest /\ minY = CaptureResult.y e)
  /\ (maxX = c
      \/ exists e, e ∈ rest
                   /\ maxX = CaptureResult.x e + CaptureResult.width e)
  /\ (maxY = d
      \/ exists e, e ∈ rest
                   /\ maxY = CaptureResult.y e + CaptureResult.height e).
Proof.
  revert a b c d. induction rest as [|e rest IH]; intros a b c d.
  - cbn. split; [repeat split; lra|]. split.
    + intros e He. by apply elem_of_nil in He.
    + repeat split; by left.
  - cbn [foldl extend].
    specialize (IH (Rmin a (CaptureResult.x e)) (Rmin b (CaptureResult.y e))
                  (Rmax c (CaptureResult.x e + CaptureResult.width e))
                  (Rmax d (CaptureResult.y e + CaptureResult.height e))).
    destruct (foldl extend _ rest) as [[[minX minY] maxX] maxY].
    destruct IH as ((H1 & H2 & H3 & H4) & Hall & Ha & Hb & Hc & Hd).
    pose proof (Rmin_l a (CaptureResult.x e)).
    pose proof (Rmin_r a (CaptureResult.x e)).
    pose proof (Rmin_l b (CaptureResult.y e)).
    pose proof (Rmin_r b (CaptureResult.y e)).
    pose proof (Rmax_l c (CaptureResult.x e + CaptureResult.width e)).
    pose proof (Rmax_r c (CaptureResult.x e + CaptureResult.width e)).
    pose proof (Rmax_l d (CaptureResult.y e + CaptureResult.height e)).
    pose proof (Rmax_r d (CaptureResult.y e + CaptureResult.height e)).
    split; [repeat split; lra|]. split.
    { intros e' He'. apply elem_of_cons in He' as [->|He'].
      - repeat split; lra.
      - by apply Hall. }
    assert (Hin : forall (P : CaptureResult.t -> Prop),
              (exists e', e' ∈ rest /\ P e') ->
              exists e', e' ∈ e :: rest /\ P e').
    { intros P (e' & He' & HP). exists e'. split; [|done].
      by apply list_elem_of_further. }
    split; [|split; [|split]].
    + destruct Ha as [->|Ha]; [|right; by apply Hin].
      unfold Rmin. destruct (Rle_dec a (CaptureResult.x e)); [by left|right].
      exists e. split; [apply list_elem_of_here|done].
    + destruct Hb as [->|Hb]; [|right; by apply Hin].
      unfold Rmin. destruct (Rle_dec b (CaptureResult.y e)); [by left|right].
      exists e. split; [apply list_elem_of_here|done].
    + destruct Hc as [->|Hc]; [|right; by apply Hin].
      unfold Rmax.
      destruct (Rle_dec c (CaptureResult.x e + CaptureResult.width e));
        [right|by left].
      exists e. split; [apply list_elem_of_here|done].
    + destruct Hd as [->|Hd]; [|right; by apply Hin].
      unfold Rmax.
      destruct (Rle_dec d (CaptureResult.y e + CaptureResult.height e));
        [right|by left].
      exists e. split; [apply list_elem_of_here|done].
Qed.

(** X25: with at least one captured screen, [bounds] is the bounding box
    of the captures: every capture lies between its edges, and each of its
    four edges is the edge of some capture.  Without captures it is the
    window, from (0, 0). *)
Theorem bounds_is_bounding_box captures innerWidth innerHeight :
  captures <> [] ->
  let b := bounds captures innerWidth innerHeight in
  (forall c, c ∈ captures ->
     Box.x b <= CaptureResult.x c /\ Box.y b <= CaptureResult.y c
     /\ CaptureResult.x c + CaptureResult.width c <= Box.x b + Box.w b
     /\ CaptureResult.y c + CaptureResult.height c <= Box.y b + Box.h b)
  /\ (exists c, c ∈ captures /\ Box.x b = CaptureResult.x c)
  /\ (exists c, c ∈ captures /\ Box.y b = CaptureResult.y c)
  /\ (exists c, c ∈ captures
                /\ Box.x b + Box.w b
                   = CaptureResult.x c + CaptureResult.width c)
  /\ (exists c, c ∈ captures
                /\ Box.y b + Box.h b
                   = CaptureResult.y c + CaptureResult.height c)
  /\ bounds [] innerWidth innerHeight = Box.mk 0 0 innerWidth innerHeight.
Proof.
  destruct captures as [|c0 rest]; [done|]. intros _ b. subst b.
  rewrite bounds_fold. unfold corners.
  pose proof (extend_fold rest (CaptureResult.x c0) (CaptureResult.y c0)
                (CaptureResult.x c0 + CaptureResult.width c0)
                (CaptureResult.y c0 + CaptureResult.height c0)) as Hfold.
  destruct (foldl extend _ rest) as [[[minX minY] maxX] maxY].
  destruct Hfold as ((H1 & H2 & H3 & H4) & Hall & Ha & Hb & Hc & Hd).
  cbn [Box.x Box.y Box.w Box.h].
  assert (Hin : forall (P : CaptureResult.t -> Prop) v,
            (v = true -> P c0) ->
            (v = true \/ exists e, e ∈ rest /\ P e) ->
            exists e, e ∈ c0 :: rest /\ P e).
  { intros P v H0 [Hv|(e & He & HP)].
    - exists c0. split; [apply list_elem_of_here|by apply H0].
    - exists e. split; [by apply list_elem_of_further|done]. }
  split.
  { intros c Hc0. apply elem_of_cons in Hc0 as [->|Hc0].
    - repeat split; lra.
    - destruct (Hall c Hc0) as (? & ? & ? & ?). repeat split; lra. }
  split; [|split; [|split; [|split]]]; [| | | |done].
  - destruct Ha as [->|(e & He & ->)].
    + exists c0. split; [apply list_elem_of_here|done].
    + exists e. split; [by apply list_elem_of_further|done].
  - destruct Hb as [->|(e & He & ->)].
    + exists c0. split; [apply list_elem_of_here|done].
    + exists e. split; [by apply list_elem_of_further|done].
  - destruct Hc as [->|(e & He & ->)].
    + exists c0. split; [apply list_elem_of_here|lra].
    + exists e. split; [by apply list_elem_of_further|lra].
  - destruct Hd as [->|(e & He & ->)].
    + exists c0. split; [apply list_elem_of_here|lra].
    + exists e. split; [by apply list_elem_of_further|lra].
Qed.

(** pointToLineDistance is the distance to the point at some parameter in
    [[0, 1]], and no point of the segment is nearer. *)
Lemma pointToLineDistance_spec px py x1 y1 x2 y2 :
  (exists t, 0 <= t <= 1
             /\ pointToLineDistance px py x1 y1 x2 y2
                = distance px py (along x1 y1 x2 y2 t))
  /\ (forall t, 0 <= t <= 1 ->
      pointToLineDistance px py x1 y1 x2 y2
      <= distance px py (along x1 y1 x2 y2 t)).
Proof.
  unfold pointToLineDistance, distance, along. cbn [x y].
  set (A := px - x1). set (B := py - y1).
  set (C := x2 - x1). set (D := y2 - y1).
  set (L := C * C + D * D).
  assert (HL : 0 <= L) by (subst L; nra).
  destruct (Req_dec_T L 0) as [E|E].
  - assert (HC : C = 0) by (subst L; nra).
    assert (HD : D = 0) by (subst L; nra).
    assert (Hlt : Num.ltb (-1) 0 = true) by (apply NumFacts.ltb_lt; lra).
    rewrite Hlt. split.
    + exists 0. split; [lra|]. f_equal. subst A B. rewrite HC, HD. ring.
    + intros t Ht. apply Req_le. f_equal. subst A B. rewrite HC, HD. ring.
  - assert (Hpos : 0 < L) by lra.
    set (param := (A * C + B * D) / L).
    assert (Hdot : A * C + B * D = param * L) by (subst param; field; lra).
    destruct (Num.ltb param 0) eqn:E0;
      [apply NumFacts.ltb_lt in E0|apply NumFacts.ltb_ge in E0].
    + split.
      * exists 0. split; [lra|]. f_equal. subst A B. ring.
      * intros t Ht. apply sqrt_le_1_alt.
        assert (H1 : 0 <= t * (- param * L)).
        { apply Rmult_le_pos; [lra|]. apply Rmult_le_pos; lra. }
        assert (H2 : 0 <= t * t * L).
        { apply Rmult_le_pos; [|lra]. apply Rmult_le_pos; lra. }
        replace ((px - (x1 + t * C)) * (px - (x1 + t * C))
                 + (py - (y1 + t * D)) * (py - (y1 + t * D)))
          with (A * A + B * B - 2 * t * (A * C + B * D) + t * t * L)
          by (subst A B L; ring).
        rewrite Hdot. fold A B. lra.
    + destruct (Num.ltb 1 param) eqn:E1;
        [apply NumFacts.ltb_lt in E1|apply NumFacts.ltb_ge in E1].
      * split.
        -- exists 1. split; [lra|]. f_equal. subst A B C D. ring.
        -- intros t Ht. apply sqrt_le_1_alt.
           replace ((px - x2) * (px - x2) + (py - y2) * (py - y2))
             with (A * A + B * B - 2 * (A * C + B * D) + L)
             by (subst A B C D L; ring).
           replace ((px - (x1 + t * C)) * (px - (x1 + t * C))
                    + (py - (y1 + t * D)) * (py - (y1 + t * D)))
             with (A * A + B * B - 2 * t * (A * C + B * D) + t * t * L)
             by (subst A B L; ring).
           rewrite Hdot.
           assert (H1 : 0 <= (1 - t) * ((2 * param - (1 + t)) * L)).
           { apply Rmult_le_pos; [lra|]. apply Rmult_le_pos; lra. }
           lra.
      * split.
        -- exists param. split; [lra|]. f_equal.
        -- intros t Ht. apply sqrt_le_1_alt.
           replace ((px - (x1 + param * C)) * (px - (x1 + param * C))
                    + (py - (y1 + param * D)) * (py - (y1 + param * D)))
             with (A * A + B * B - 2 * param * (A * C + B * D)
                   + param * param * L)
             by (subst A B L; ring).
           replace ((px - (x1 + t * C)) * (px - (x1 + t * C))
                    + (py - (y1 + t * D)) * (py - (y1 + t * D)))
             with (A * A + B * B - 2 * t * (A * C + B * D) + t * t * L)
             by (subst A B L; ring).
           rewrite Hdot.
           assert (H1 : 0 <= (t - param) * (t - param) * L).
           { apply Rmult_le_pos; [apply Rle_0_sqr|lra]. }
           lra.
Qed.

(** X26: pointToLineDistance is the distance from the point to the
    segment: it is the distance to some point of the segment, no point of
    the segment is nearer, and for a segment of length zero it is the
    distance to its one point. *)
Theorem pointToLineDistance_nearest px py x1 y1 x2 y2 :
  (exists t, 0 <= t <= 1
             /\ pointToLineDistance px py x1 y1 x2 y2
                = distance px py (along x1 y1 x2 y2 t))
  /\ (forall t, 0 <= t <= 1 ->
      pointToLineDistance px py x1 y1 x2 y2
      <= distance px py (along x1 y1 x2 y2 t))
  /\ pointToLineDistance px py x1 y1 x1 y1
     = distance px py (mkPoint2D x1 y1).
Proof.
  split; [apply pointToLineDistance_spec|].
  split; [apply pointToLineDistance_spec|].
  destruct (pointToLineDistance_spec px py x1 y1 x1 y1) as [(t & _ & ->) _].
  unfold distance, along. cbn [x y]. f_equal. ring.
Qed.

Lemma near_segment px py x1 y1 x2 y2 r :
  Num.ltb (pointToLineDistance px py x1 y1 x2 y2) r = true
  <-> exists t, 0 <= t <= 1 /\ distance px py (along x1 y1 x2 y2 t) < r.
Proof.
  rewrite NumFacts.ltb_lt.
  destruct (pointToLineDistance_spec px py x1 y1 x2 y2)
    as [(t0 & Ht0 & Heq) Hmin].
  split.
  - intros Hlt. exists t0. split; [done|]. by rewrite <- Heq.
  - intros (t & Ht & Hlt). specialize (Hmin t Ht). lra.
Qed.

(** X27: picking a shape.  getShapeAtPoint returns the last drawn shape
    that isPointInShape accepts, and null when it accepts none.  An arrow
    is accepted exactly when some point of its segment is less than 10
    pixels away, a pen stroke exactly when some point of one of its
    segments is, so a stroke of a single point is never picked; a
    rectangle is accepted within 10 pixels of the span from its origin to
    its origin plus width and height, so a rectangle with a width or
    height below -20 is never picked. *)
Theorem picking_shapes px py :
  (forall shapes,
     match getShapeAtPoint shapes px py with
     | Some shape =>
         exists below above,
           shapes = below ++ shape :: above
           /\ isPointInShape px py shape = true
           /\ forall other, other ∈ above -> isPointInShape px py other = false
     | None => forall shape, shape ∈ shapes -> isPointInShape px py shape = false
     end)
  /\ (forall id x1 y1 x2 y2,
        isPointInShape px py (ArrowShape id x1 y1 x2 y2) = true
        <-> exists t, 0 <= t <= 1
                      /\ distance px py (along x1 y1 x2 y2 t) < 10)
  /\ (forall id points,
        isPointInShape px py (PenShape id points) = true
        <-> exists i a b t,
              points !! i = Some a /\ points !! S i = Some b /\ 0 <= t <= 1
              /\ distance px py (along (x a) (y a) (x b) (y b) t) < 10)
  /\ (forall id a, isPointInShape px py (PenShape id []) = false
                   /\ isPointInShape px py (PenShape id [a]) = false)
  /\ (forall id sx sy w h,
        (isPointInShape px py (RectShape id sx sy w h) = true
         <-> sx - 10 <= px <= sx + w + 10 /\ sy - 10 <= py <= sy + h + 10)
        /\ (w < -20 \/ h < -20 ->
            isPointInShape px py (RectShape id sx sy w h) = false)).
Proof.
  split; [|split; [|split; [|split]]].
  - intros shapes. unfold getShapeAtPoint.
    apply (GestureLaws.find_rev_topmost (isPointInShape px py) shapes).
  - intros id x1 y1 x2 y2. cbn [isPointInShape]. apply near_segment.
  - intros id points. cbn [isPointInShape]. unfold segments.
    rewrite existsb_exists. split.
    + intros ([a b] & Hin & Hnear).
      apply list_elem_of_In, list_elem_of_lookup in Hin as [i Hi].
      apply lookup_zip_with_Some in Hi as (a' & b' & [= <- <-] & Ha & Hb).
      apply near_segment in Hnear as (t & Ht & Hlt).
      exists i, a, b, t. rewrite lookup_tail in Hb. done.
    + intros (i & a & b & t & Ha & Hb & Ht & Hlt).
      exists (a, b). split.
      * apply list_elem_of_In. apply (list_elem_of_lookup_2 _ i).
        apply lookup_zip_with_Some. exists a, b. rewrite lookup_tail. done.
      * apply near_segment. by exists t.
  - intros id a. done.
  - intros id sx sy w h.
    assert (Hiff : isPointInShape px py (RectShape id sx sy w h) = true
                   <-> sx - 10 <= px <= sx + w + 10
                       /\ sy - 10 <= py <= sy + h + 10).
    { cbn [isPointInShape]. rewrite !andb_true_iff, !NumFacts.leb_le. tauto. }
    split; [exact Hiff|]. intros Hneg.
    destruct (isPointInShape px py (RectShape id sx sy w h)) eqn:E; [|done].
    destruct (proj1 Hiff eq_refl) as [Hx Hy]. lra.
Qed.

(** X28: the toolbar stays on screen.  In a window at least 16 pixels
    wider than the toolbar and at least 56 pixels high, the toolbar of a
    selection is placed with a margin of 8 pixels to every edge of the
    window, wherever the selection is.  It goes 8 pixels below a selection
    that lies in the window with 56 pixels free below it, and otherwise
    8 pixels above one with 56 pixels free above it.  Without a selection
    there is no toolbar. *)
Theorem toolbar_on_screen toolbarWidth sel scaleFactor innerWidth innerHeight :
  toolbarWidth + 16 <= innerWidth -> 56 <= innerHeight ->
  let logicalY := Box.y sel / y scaleFactor in
  let logicalH := Box.h sel / y scaleFactor in
  (exists left top,
     toolbarStyle toolbarWidth (Some sel) scaleFactor innerWidth innerHeight
     = Some (left, top)
     /\ 8 <= left /\ left + toolbarWidth <= innerWidth - 8
     /\ 8 <= top /\ top + 40 <= innerHeight - 8
     /\ (0 <= logicalY -> 0 <= logicalH ->
         logicalY + logicalH <= innerHeight ->
         (56 <= innerHeight - (logicalY + logicalH) ->
          top = logicalY + logicalH + 8)
         /\ (innerHeight - (logicalY + logicalH) < 56 -> 56 <= logicalY ->
             top + 40 = logicalY - 8)))
  /\ toolbarStyle toolbarWidth None scaleFactor innerWidth innerHeight = None.
Proof.
  intros Hw Hh logicalY logicalH. split; [|done].
  unfold toolbarStyle. fold logicalY logicalH.
  eexists _, _. split; [reflexivity|].
  split; [|split; [|split; [|split]]].
  - num_cases; lra.
  - num_cases; lra.
  - apply Rmax_l.
  - apply Rplus_le_reg_r with (r := -40).
    replace (Rmax _ _ + 40 + -40) with
      (Rmax 8 (Rmin (innerHeight - 40 - 8)
                 (if Num.leb (40 + 8 * 2) (innerHeight - (logicalY + logicalH))
                  then logicalY + logicalH + 8
                  else if Num.leb (40 + 8 * 2) logicalY
                       then logicalY - 40 - 8
                       else logicalY + logicalH - 40 - 8))) by ring.
    apply Rmax_lub; [lra|].
    etransitivity; [apply Rmin_l|lra].
  - intros Hy Hlh Hin. split.
    + intros Hbelow. num_cases; try lra.
      rewrite Rmin_right, Rmax_right by lra. lra.
    + intros Hbelow Habove. num_cases; try lra.
      rewrite Rmin_right by lra. rewrite Rmax_right by lra. lra.
Qed.

Lemma bounds_is_bounding_box_witness :
  let captures :=
    [CaptureResult.mk 0 0 1920 1080; CaptureResult.mk 1920 (-200) 1280 1024] in
  let b := bounds captures 800 600 in
  (forall c, c ∈ captures ->
     Box.x b <= CaptureResult.x c /\ Box.y b <= CaptureResult.y c
     /\ CaptureResult.x c + CaptureResult.width c <= Box.x b + Box.w b
     /\ CaptureResult.y c + CaptureResult.height c <= Box.y b + Box.h b)
  /\ (exists c, c ∈ captures /\ Box.x b = CaptureResult.x c)
  /\ (exists c, c ∈ captures /\ Box.y b = CaptureResult.y c)
  /\ (exists c, c ∈ captures
                /\ Box.x b + Box.w b
                   = CaptureResult.x c + CaptureResult.width c)
  /\ (exists c, c ∈ captures
                /\ Box.y b + Box.h b
                   = CaptureResult.y c + CaptureResult.height c)
  /\ bounds [] 800 600 = Box.mk 0 0 800 600.
Proof.
  apply (bounds_is_bounding_box
           [CaptureResult.mk 0 0 1920 1080;
            CaptureResult.mk 1920 (-200) 1280 1024] 800 600).
  discriminate.
Defined.

Lemma toolbar_on_screen_witness :
  let sel := Box.mk 100 100 400 300 in
  let scaleFactor := mkPoint2D 2 2 in
  let logicalY := Box.y sel / y scaleFactor in
  let logicalH := Box.h sel / y scaleFactor in
  (exists left top,
     toolbarStyle 340 (Some sel) scaleFactor 1280 720 = Some (left, top)
     /\ 8 <= left /\ left + 340 <= 1280 - 8
     /\ 8 <= top /\ top + 40 <= 720 - 8
     /\ (0 <= logicalY -> 0 <= logicalH -> logicalY + logicalH <= 720 ->
         (56 <= 720 - (logicalY + logicalH) -> top = logicalY + logicalH + 8)
         /\ (720 - (logicalY + logicalH) < 56 -> 56 <= logicalY ->
             top + 40 = logicalY - 8)))
  /\ toolbarStyle 340 None scaleFactor 1280 720 = None.
Proof.
  apply (toolbar_on_screen 340 (Box.mk 100 100 400 300) (mkPoint2D 2 2)
           1280 720); lra.
Defined.

End CaptureLaws.

(** ** Merging the updater manifests *)

Module MergeLaws.
Import MergeLatest.

Section Merge.
Context {JSON : Type}.

(** The manifests the script gets to read, in the order of the listing. *)
Definition readable (entries : list (@File JSON)) : list (Manifest.t JSON) :=
  omap snd
    (filter
       (fun f : File =>
          endsWith f.1 ".json" && startsWith f.1 "latest-" = true)
       entries).

(** The entry of a manifest for a platform. *)
Definition platform (k : string) (m : Manifest.t JSON) : option JSON :=
  Manifest.platforms m ≫= (.!! k).

(** The last manifest of a list that has the platform gives [v] for it. *)
Definition lastGives (k : string) (v : JSON) (ms : list (Manifest.t JSON))
    : Prop :=
  exists before m after,
    ms = before ++ m :: after /\ platform k m = Some v
    /\ forall m', m' ∈ after -> platform k m' = None.

Lemma lastGives_snoc k v ms m :
  lastGives k v (ms ++ [m])
  <-> platform k m = Some v \/ (platform k m = None /\ lastGives k v ms).
Proof.
  split.
  - intros (before & m0 & after & Heq & Hv & Hnone).
    destruct after as [|a after _] using rev_ind.
    + apply app_inj_tail in Heq as [_ <-]. by left.
    + rewrite app_comm_cons, app_assoc in Heq.
      apply app_inj_tail in Heq as [-> ->]. right. split.
      * apply Hnone. apply elem_of_app. right. apply list_elem_of_here.
      * exists before, m0, after. split; [done|]. split; [done|].
        intros m' Hm'. apply Hnone. apply elem_of_app. by left.
  - intros [Hv|[Hnone (before & m0 & after & -> & Hv & Hafter)]].
    + exists ms, m, []. split; [done|]. split; [done|].
      intros m' Hm'. by apply elem_of_nil in Hm'.
    + exists before, m0, (after ++ [m]). split; [by rewrite <- app_assoc|].
      split; [done|]. intros m' Hm'. apply elem_of_app in Hm' as [Hm'|Hm'].
      * by apply Hafter.
      * apply list_elem_of_singleton in Hm' as ->. done.
Qed.

Lemma foldl_mergeFile_skip (files : list (@File JSON)) merged :
  foldl mergeFile merged files
  = foldl mergeFile merged ((fun m => (EmptyString, Some m)) <$> omap snd files).
Proof.
  revert merged. induction files as [|[name [content|]] files IH];
    intros merged; cbn; [done| |]; apply IH.
Qed.

(** Merging from the first readable manifest on. *)
Lemma foldl_mergeFile_spec ms (m0 : Manifest.t JSON) :
  exists merged,
    foldl mergeFile None ((fun m => (EmptyString, Some m)) <$> (m0 :: ms))
    = Some merged
    /\ Merged.version merged = Manifest.version m0
    /\ Merged.notes merged = Manifest.notes m0
    /\ Merged.pub_date merged = Manifest.pub_date m0
    /\ forall k v, Merged.platforms merged !! k = Some v
                   <-> lastGives k v (m0 :: ms).
Proof.
  induction ms as [|m ms IH] using rev_ind.
  - cbn. unfold mergeFile. cbn.
    destruct (Manifest.platforms m0) as [p|] eqn:Hp; eexists;
      (split; [reflexivity|]); cbn; do 3 (split; [done|]); intros k v.
    + rewrite map_union_empty. split.
      * intros Hk. exists [], m0, []. split; [done|].
        unfold platform. rewrite Hp. split; [done|].
        intros m' Hm'. by apply elem_of_nil in Hm'.
      * intros (before & m & after & Heq & Hv & _).
        destruct before as [|b [|? ?]]; try discriminate Heq.
        injection Heq as <- _. unfold platform in Hv. by rewrite Hp in Hv.
    + rewrite lookup_empty. split; [done|].
      intros (before & m & after & Heq & Hv & _).
      destruct before as [|b [|? ?]]; try discriminate Heq.
      injection Heq as <- _. unfold platform in Hv. by rewrite Hp in Hv.
  - destruct IH as (merged & Hfold & Hver & Hnotes & Hdate & Hplat).
    rewrite app_comm_cons, fmap_app, foldl_app, Hfold. cbn.
    unfold mergeFile. cbn.
    destruct (Manifest.platforms m) as [p|] eqn:Hp; eexists;
      (split; [reflexivity|]); cbn; do 3 (split; [done|]); intros k v;
      change (m0 :: ms ++ [m]) with ((m0 :: ms) ++ [m]);
      rewrite lastGives_snoc; unfold platform at 1 2; rewrite Hp; cbn.
    + rewrite lookup_union_Some_raw, Hplat. done.
    + rewrite Hplat. split; [by right|]. by intros [?|[_ ?]].
Qed.

(** X29: merging the updater manifests.  Of the files of the input
    directory only those named [latest-*.json] are read, and those that
    cannot be read or parsed are skipped.  If none is left (or there is no
    such directory) nothing is written and the script exits with code 1.
    Otherwise the version, notes and publication date written are those of
    the first file that could be read, whatever the later ones say, and the
    entry written for a platform is the entry of the last file that has
    the platform; a platform that no file has is not written. *)
Theorem mergeLatest_result (entries : list (@File JSON)) :
  match readable entries with
  | [] => mergeLatest (Some entries) = Exit 1
  | first :: _ =>
      exists merged,
        mergeLatest (Some entries) = Written merged
        /\ Merged.version merged = Manifest.version first
        /\ Merged.notes merged = Manifest.notes first
        /\ Merged.pub_date merged = Manifest.pub_date first
        /\ forall k v, Merged.platforms merged !! k = Some v
                       <-> lastGives k v (readable entries)
  end
  /\ @mergeLatest JSON None = Exit 1.
Proof.
  split; [|done]. unfold mergeLatest, readable.
  rewrite foldl_mergeFile_skip.
  destruct (omap snd _) as [|m0 ms]; [done|].
  destruct (foldl_mergeFile_spec ms m0)
    as (merged & Hfold & Hver & Hnotes & Hdate & Hplat).
  rewrite Hfold. by exists merged.
Qed.

End Merge.

End MergeLaws.

(** ** Search highlighting *)

Module HighlightTextSpec.
Import HighlightText.

(** C9: if the query is empty, or if constructing the regular expression
    throws (an invalid pattern typed in regex mode; the escaped pattern of
    the literal mode is covered as well), the highlight computation returns
    the original text as one unhighlighted part. *)
Theorem parts_fallback `{RegExpEngine} txt query isRegex isCaseSensitive :
  query = ""
  \/ newRegExp (pattern isRegex query) (flags isCaseSensitive) = None ->
  parts txt query isRegex isCaseSensitive = [mkPart txt false].
Proof.
  intros [Hq | Hthrow]; unfold parts.
  - by rewrite decide_True.
  - case_decide; [done|]. by rewrite Hthrow.
Qed.

(** An engine that only knows how to reject a group left open, and splits
    nothing. *)
Definition strictEngine : RegExpEngine :=
  {| RegExp := string;
     newRegExp := fun p _ => if decide (p = "(()") then None else Some p;
     split := fun txt _ => [Some txt] |}.

Lemma parts_fallback_witness :
  @parts strictEngine "a(b" "(" true false = [mkPart "a(b" false]
  /\ @parts strictEngine "a(b" "" true false = [mkPart "a(b" false].
Proof.
  split.
  - apply (@parts_fallback strictEngine "a(b" "(" true false).
    right. reflexivity.
  - apply (@parts_fallback strictEngine "a(b" "" true false).
    left. reflexivity.
Defined.

(** In the literal mode the special characters of the query are escaped. *)
Example escape_example : escape "a.b(c" = "a\.b\(c".
Proof. reflexivity. Qed.

End HighlightTextSpec.

(** ** Search highlighting: the parts of a match *)

Module HighlightLaws.
Import HighlightText.













End HighlightLaws.
